(** * A shallow embedding of the research-assistant pipeline

    The development follows the Python sources module by module:

    - [Py]          the fragments of Python's [str], slicing and [re] that
                    the sources rely on;
    - [Chunker]     [src/services/text_chunking.py];
    - [Extractor]   [src/services/content_extraction.py] and
                    [src/agents/content_extractor_agent.py];
    - [Researcher]  [src/services/search_api.py] and
                    [src/agents/researcher_agent.py];
    - [Synthesizer] [src/agents/global_synthesizer_agent.py];
    - [Memory]      [src/memory_system.py];
    - [Pipeline]    [src/memory_integration.py].

    Python strings are sequences of Unicode code points; they are modelled
    as lists of code points ([N]).  Python floats are modelled by exact
    rationals ([Q]); wall-clock instants ([datetime.now()]) are integers
    counting microseconds and are inputs of the operations that read the
    clock. *)

From Stdlib Require Import ZArith NArith List Bool Lia QArith Lqa String Ascii.
From Stdlib Require Import DecimalString Sorted.
From stdpp Require Import base option list gmap.

Import ListNotations.
Open Scope Z_scope.

(* ===================================================================== *)
(** * Python strings, slices and regular expressions                      *)
(* ===================================================================== *)

Module Py.

Definition char := N.
Definition pystr := list char.

(** A string literal of the sources whose characters are all ASCII. *)
Definition str (s : string) : pystr :=
  map N_of_ascii (list_ascii_of_string s).

Definition len (s : pystr) : Z := Z.of_nat (length s).

Definition nl : char := 10%N.
Definition sp : char := 32%N.

(** [str.isspace] on one code point, which is also the class [\s] of [re]
    on [str] patterns (CPython's [Py_UNICODE_ISSPACE]). *)
Definition isspace (c : char) : bool :=
  (((9 <=? c) && (c <=? 13)) || ((28 <=? c) && (c <=? 32)) ||
   (c =? 133) || (c =? 160) || (c =? 5760) ||
   ((8192 <=? c) && (c <=? 8202)) ||
   (c =? 8232) || (c =? 8233) || (c =? 8239) || (c =? 8287) ||
   (c =? 12288))%N.

Definition char_eqb (a b : char) : bool := (a =? b)%N.

Fixpoint str_eqb (a b : pystr) : bool :=
  match a, b with
  | [], [] => true
  | x :: a', y :: b' => char_eqb x y && str_eqb a' b'
  | _, _ => false
  end.

(** The truth value of a string or a list: it is not empty. *)
Definition nonempty {A} (l : list A) : bool :=
  match l with [] => false | _ => true end.

(** ** [strip], [split], [join], [in] *)

Fixpoint lstrip (s : pystr) : pystr :=
  match s with
  | c :: s' => if isspace c then lstrip s' else s
  | [] => []
  end.

Fixpoint rstrip (s : pystr) : pystr :=
  match s with
  | [] => []
  | c :: s' =>
      match rstrip s' with
      | [] => if isspace c then [] else [c]
      | r => c :: r
      end
  end.

Definition strip (s : pystr) : pystr := lstrip (rstrip s).

(** Puts [c] in front of the first piece of a split. *)
Definition cons_to_first (c : char) (pieces : list pystr) : list pystr :=
  match pieces with
  | p :: ps => (c :: p) :: ps
  | [] => [[c]]
  end.

(** [s.split()] with no argument: the maximal runs of non-whitespace. *)
Fixpoint split_ws (s : pystr) : list pystr :=
  match s with
  | [] => []
  | c :: s' =>
      if isspace c then split_ws s'
      else
        match s' with
        | [] => [[c]]
        | c' :: _ =>
            if isspace c' then [c] :: split_ws s'
            else cons_to_first c (split_ws s')
        end
  end.

(** [s.split(sep)] for a one-character separator. *)
Fixpoint split_char (sep : char) (s : pystr) : list pystr :=
  match s with
  | [] => [[]]
  | c :: s' =>
      if char_eqb c sep
      then [] :: split_char sep s'
      else cons_to_first c (split_char sep s')
  end.

(** [sep.join(parts)] *)
Fixpoint join (sep : pystr) (parts : list pystr) : pystr :=
  match parts with
  | [] => []
  | [p] => p
  | p :: ps => p ++ sep ++ join sep ps
  end.

Fixpoint startswith (p s : pystr) : bool :=
  match p, s with
  | [], _ => true
  | x :: p', y :: s' => char_eqb x y && startswith p' s'
  | _ :: _, [] => false
  end.

(** [p in s] on strings: [p] occurs as a contiguous substring of [s]. *)
Fixpoint contains (p s : pystr) : bool :=
  startswith p s ||
  match s with
  | [] => false
  | _ :: s' => contains p s'
  end.

(** [str.lower] restricted to the ASCII letters; it stands for [str.lower]
    in the concrete runs, whose texts are ASCII. *)
Definition ascii_lower (s : pystr) : pystr :=
  map (fun c => if ((65 <=? c) && (c <=? 90))%N then (c + 32)%N else c) s.

(** [str(n)] for an integer [n]. *)
Definition repr_int (n : Z) : pystr :=
  str (NilZero.string_of_int (Z.to_int n)).

(** ** Slices *)

(** [l[:n]] for an integer [n] (a negative [n] counts from the end). *)
Definition slice_to {A} (n : Z) (l : list A) : list A :=
  if n <? 0
  then firstn (Z.to_nat (Z.of_nat (length l) + n)) l
  else firstn (Z.to_nat n) l.

(** [l[k:]] for an integer [k] (a negative [k] counts from the end). *)
Definition slice_from {A} (k : Z) (l : list A) : list A :=
  if k <? 0
  then skipn (Z.to_nat (Z.of_nat (length l) + k)) l
  else skipn (Z.to_nat k) l.

(** [l[-n:]] as the sources write it: the index is the integer [-n], so
    that [n = 0] gives the index [0] and hence the whole list. *)
Definition last_n {A} (n : Z) (l : list A) : list A := slice_from (- n) l.

(** ** [re.sub] and [re.split]

    A pattern is represented by its matcher: [m s] is the length of the
    match of the pattern at the beginning of [s] (as chosen by the
    backtracking engine: greedy quantifiers, first alternative first), or
    [None] when the pattern does not match there.  No pattern of the sources
    matches the empty string and none has a capturing group, so [re.sub] and
    [re.split] scan from the left, take the match at the first position
    where it exists and resume after it.  [skip] counts the characters of
    the current match that are still to be consumed. *)

Definition matcher := pystr -> option nat.

Fixpoint re_sub_from (m : matcher) (repl : pystr) (skip : nat) (s : pystr)
  : pystr :=
  match s with
  | [] => []
  | c :: s' =>
      match skip with
      | S k => re_sub_from m repl k s'
      | O =>
          match m s with
          | Some (S k) => repl ++ re_sub_from m repl k s'
          | _ => c :: re_sub_from m repl 0 s'
          end
      end
  end.

Definition re_sub (m : matcher) (repl : pystr) (s : pystr) : pystr :=
  re_sub_from m repl 0 s.

Fixpoint re_split_from (m : matcher) (skip : nat) (s : pystr)
  : list pystr :=
  match s with
  | [] => [[]]
  | c :: s' =>
      match skip with
      | S k => re_split_from m k s'
      | O =>
          match m s with
          | Some (S k) => [] :: re_split_from m k s'
          | _ => cons_to_first c (re_split_from m 0 s')
          end
      end
  end.

Definition re_split (m : matcher) (s : pystr) : list pystr :=
  re_split_from m 0 s.

(** Length of the longest prefix of [s] whose characters satisfy [p]. *)
Fixpoint run_len (p : char -> bool) (s : pystr) : nat :=
  match s with
  | c :: s' => if p c then S (run_len p s') else O
  | [] => O
  end.

(** [p+] for a character class [p]. *)
Definition m_plus (p : char -> bool) : matcher :=
  fun s => match run_len p s with O => None | n => Some n end.

(** [\s+] *)
Definition m_ws_run : matcher := m_plus isspace.

(** Within the maximal whitespace prefix of [t]: the length of the prefix
    that ends with the last newline of that run, if the run has one. *)
Fixpoint last_nl_end (t : pystr) : option nat :=
  match t with
  | c :: t' =>
      if isspace c
      then match last_nl_end t' with
           | Some k => Some (S k)
           | None => if char_eqb c nl then Some 1%nat else None
           end
      else None
  | [] => None
  end.

(** Number of newlines in the maximal whitespace prefix of [t]. *)
Fixpoint nl_count_ws (t : pystr) : nat :=
  match t with
  | c :: t' =>
      if isspace c
      then (if char_eqb c nl then 1 else 0)%nat + nl_count_ws t'
      else O
  | [] => O
  end.

(** [\n\s*\n]: a newline, then the greedy [\s*] gives back characters until
    it is followed by a newline, that is, the match ends with the last
    newline of the whitespace run that follows the first one. *)
Definition m_par_break : matcher :=
  fun s =>
    match s with
    | c :: t => if char_eqb c nl then option_map S (last_nl_end t) else None
    | [] => None
    end.

(** [\n\s*\n\s*\n+]: as above, and the whitespace run after the first
    newline must hold at least two more newlines; both [\s*] and [\n+] are
    greedy, so the match again ends with the last newline of the run. *)
Definition m_three_nl : matcher :=
  fun s =>
    match s with
    | c :: t =>
        if char_eqb c nl && (2 <=? nl_count_ws t)%nat
        then option_map S (last_nl_end t)
        else None
    | [] => None
    end.

Definition is_sentence_punct (c : char) : bool :=
  char_eqb c 46%N || char_eqb c 33%N || char_eqb c 63%N.

(** [[.!?]+(?:\s|$)]: the whole run of sentence punctuation, followed by
    one whitespace character or by the end of the string.  A shorter run
    would be followed by punctuation, so backtracking never helps. *)
Definition m_sentence_end : matcher :=
  fun s =>
    match run_len is_sentence_punct s with
    | O => None
    | n =>
        match skipn n s with
        | [] => Some n
        | c :: _ => if isspace c then Some (S n) else None
        end
    end.

(** ** Floats

    Python floats are modelled by rationals; [a < b], [max(a, b)] and
    [min(a, b)] on them. *)

Definition Qltb (a b : Q) : bool := negb (Qle_bool b a).
Definition Qmax (a b : Q) : Q := if Qle_bool a b then b else a.
Definition Qmin (a b : Q) : Q := if Qle_bool a b then a else b.

(** ** Exceptions

    A call either returns a value or raises; an exception carries the name
    of its class and its message. *)

Record exn := mkExn { exn_class : pystr; exn_message : pystr }.

Inductive outcome (A : Type) : Type :=
| Ok (a : A)
| Raise (e : exn).

Arguments Ok {A} a.
Arguments Raise {A} e.

Definition bind {A B} (x : outcome A) (f : A -> outcome B) : outcome B :=
  match x with
  | Ok a => f a
  | Raise e => Raise e
  end.

(** ** The first character of a stripped text *)

Lemma lstrip_head s c r : lstrip s = c :: r -> isspace c = false.
Proof.
  induction s as [|x s IH]; simpl; [discriminate|].
  destruct (isspace x) eqn:Hx; [exact IH|]. now intros [= <- <-].
Qed.

Lemma strip_head s c r : strip s = c :: r -> isspace c = false.
Proof. unfold strip. apply lstrip_head. Qed.

Lemma rstrip_cons_not_space c r :
  isspace c = false -> exists r', rstrip (c :: r) = c :: r'.
Proof.
  intros Hc. simpl. destruct (rstrip r) as [|x r'].
  - rewrite Hc. now exists [].
  - now exists (x :: r').
Qed.

Lemma strip_cons_not_space c r :
  isspace c = false -> exists r', strip (c :: r) = c :: r'.
Proof.
  intros Hc. unfold strip.
  destruct (rstrip_cons_not_space c r Hc) as [r' ->].
  simpl. rewrite Hc. now exists r'.
Qed.

Lemma split_char_head sep c s :
  char_eqb c sep = false ->
  exists r, hd [] (split_char sep (c :: s)) = c :: r.
Proof.
  intros Hc. simpl. rewrite Hc.
  destruct (split_char sep s) as [|p ps]; simpl; eauto.
Qed.

(** ** Facts about text without newlines *)

Definition no_newline (s : pystr) : Prop := Forall (fun c => c <> nl) s.

Lemma isspace_nl : isspace nl = true.
Proof. reflexivity. Qed.

Lemma char_eqb_eq a b : char_eqb a b = true <-> a = b.
Proof. unfold char_eqb. apply N.eqb_eq. Qed.

Lemma char_eqb_neq a b : a <> b -> char_eqb a b = false.
Proof. unfold char_eqb. intros H. now apply N.eqb_neq. Qed.

Lemma str_eqb_eq a b : str_eqb a b = true <-> a = b.
Proof.
  revert b. induction a as [|x a IH]; intros [|y b]; simpl;
    try (split; [discriminate | discriminate]); [tauto|].
  rewrite andb_true_iff, char_eqb_eq, IH.
  split; [intros [-> ->]; reflexivity | intros [= -> ->]; auto].
Qed.

Lemma str_eqb_refl a : str_eqb a a = true.
Proof. now apply str_eqb_eq. Qed.

Lemma not_space_not_nl c : isspace c = false -> c <> nl.
Proof. intros H ->. rewrite isspace_nl in H. discriminate. Qed.

(** After [re.sub(r'\s+', ' ', text)] every whitespace character of the
    text is a space, so no newline is left. *)
Lemma re_sub_ws_no_newline skip s :
  no_newline (re_sub_from m_ws_run [sp] skip s).
Proof.
  revert skip. induction s as [|c s IH]; intros skip; simpl.
  - constructor.
  - destruct skip as [|k]; [|apply IH].
    unfold m_ws_run, m_plus. simpl.
    destruct (isspace c) eqn:Hc.
    + simpl. constructor; [discriminate | apply IH].
    + constructor; [now apply not_space_not_nl | apply IH].
Qed.

(** [\n\s*\n\s*\n+] has nothing to replace in a text without newlines. *)
Lemma re_sub_three_nl_no_newline repl s :
  no_newline s -> re_sub m_three_nl repl s = s.
Proof.
  unfold re_sub. induction 1 as [|c s Hc _ IH]; simpl; [reflexivity|].
  rewrite (char_eqb_neq _ _ Hc). simpl. now rewrite IH.
Qed.

(** [\n\s*\n] does not match in a text without newlines, so [re.split]
    returns the text as its only piece. *)
Lemma re_split_par_no_newline s :
  no_newline s -> re_split m_par_break s = [s].
Proof.
  unfold re_split. induction 1 as [|c s Hc _ IH]; simpl; [reflexivity|].
  rewrite (char_eqb_neq _ _ Hc). now rewrite IH.
Qed.

Lemma lstrip_no_newline s : no_newline s -> no_newline (lstrip s).
Proof.
  induction 1 as [|c s Hc Hs IH]; simpl; [constructor|].
  destruct (isspace c); [exact IH | now constructor].
Qed.

Lemma rstrip_no_newline s : no_newline s -> no_newline (rstrip s).
Proof.
  induction 1 as [|c s Hc Hs IH]; simpl; [constructor|].
  destruct (rstrip s) as [|r rs].
  - destruct (isspace c); [constructor | constructor; [exact Hc | constructor]].
  - now constructor.
Qed.

Lemma strip_no_newline s : no_newline s -> no_newline (strip s).
Proof.
  intros H. unfold strip. now apply lstrip_no_newline, rstrip_no_newline.
Qed.

(** ** More facts about [strip], [split], [join] and [re.sub] *)

Lemma lstrip_Forall (P : char -> Prop) s : Forall P s -> Forall P (lstrip s).
Proof.
  induction 1 as [|c s Hc Hs IH]; simpl; [constructor|].
  destruct (isspace c); [exact IH | now constructor].
Qed.

Lemma rstrip_Forall (P : char -> Prop) s : Forall P s -> Forall P (rstrip s).
Proof.
  induction 1 as [|c s Hc Hs IH]; simpl; [constructor|].
  destruct (rstrip s) as [|r rs].
  - destruct (isspace c); [constructor | constructor; [exact Hc | constructor]].
  - now constructor.
Qed.

Lemma strip_Forall (P : char -> Prop) s : Forall P s -> Forall P (strip s).
Proof. intros H. unfold strip. now apply lstrip_Forall, rstrip_Forall. Qed.

(** A text is blank when all its characters are whitespace; that is when
    [strip] leaves nothing. *)
Definition blank (s : pystr) : bool := forallb isspace s.

Lemma lstrip_nil s : lstrip s = [] <-> blank s = true.
Proof.
  induction s as [|c s IH]; simpl; [tauto|].
  destruct (isspace c); simpl; [exact IH|]. split; discriminate.
Qed.

Lemma rstrip_nil s : rstrip s = [] <-> blank s = true.
Proof.
  induction s as [|c s IH]; simpl; [tauto|].
  destruct (rstrip s) as [|r rs] eqn:Hr.
  - destruct (isspace c); simpl; [tauto|]. split; discriminate.
  - split; [discriminate|]. intros H. apply andb_true_iff in H.
    destruct H as [_ H]. apply IH in H. discriminate.
Qed.

Lemma blank_lstrip s : blank (lstrip s) = blank s.
Proof.
  induction s as [|c s IH]; simpl; [reflexivity|].
  destruct (isspace c) eqn:Hc; simpl; [exact IH | now rewrite Hc].
Qed.

Lemma blank_rstrip s : blank (rstrip s) = blank s.
Proof.
  induction s as [|c s IH]; simpl; [reflexivity|].
  destruct (rstrip s) as [|r rs] eqn:Hr.
  - assert (Hb : blank s = true) by now apply rstrip_nil.
    rewrite Hb, andb_true_r.
    destruct (isspace c) eqn:Hc; simpl; [reflexivity | now rewrite Hc].
  - simpl in *. now rewrite IH.
Qed.

Lemma strip_nil s : strip s = [] <-> blank s = true.
Proof. unfold strip. now rewrite lstrip_nil, blank_rstrip. Qed.

Lemma nonempty_strip s : nonempty (strip s) = negb (blank s).
Proof.
  destruct (strip s) as [|c r] eqn:Hs; simpl.
  - apply strip_nil in Hs. now rewrite Hs.
  - destruct (blank s) eqn:Hb; [|reflexivity].
    apply strip_nil in Hb. congruence.
Qed.

Lemma lstrip_idem s : lstrip (lstrip s) = lstrip s.
Proof.
  induction s as [|c s IH]; simpl; [reflexivity|].
  destruct (isspace c) eqn:Hc; [exact IH|]. simpl. now rewrite Hc.
Qed.

Lemma lstrip_not_space c s : isspace c = false -> lstrip (c :: s) = c :: s.
Proof. intros H. simpl. now rewrite H. Qed.

Lemma rstrip_idem s : rstrip (rstrip s) = rstrip s.
Proof.
  induction s as [|c s IH]; simpl; [reflexivity|].
  destruct (rstrip s) as [|r rs] eqn:Hr.
  - destruct (isspace c) eqn:Hc; simpl; [reflexivity | now rewrite Hc].
  - simpl in *. now rewrite IH.
Qed.

Lemma rstrip_lstrip s : rstrip (lstrip s) = lstrip (rstrip s).
Proof.
  induction s as [|c s IH]; [reflexivity|].
  destruct (isspace c) eqn:Hc.
  - cbn [lstrip rstrip]. rewrite Hc.
    destruct (rstrip s) as [|r rs] eqn:Hr.
    + simpl. apply rstrip_nil. rewrite blank_lstrip. now apply rstrip_nil.
    + rewrite IH. simpl. now rewrite Hc.
  - rewrite (lstrip_not_space c s Hc).
    destruct (rstrip_cons_not_space c s Hc) as [r' ->].
    now rewrite (lstrip_not_space c r' Hc).
Qed.

(** [strip] is idempotent: a stripped text has nothing more to strip. *)
Lemma strip_idem s : strip (strip s) = strip s.
Proof.
  unfold strip. rewrite rstrip_lstrip, rstrip_idem, lstrip_idem. reflexivity.
Qed.

(** Skipping the rest of a match is dropping it. *)
Lemma re_sub_from_skipn m repl k s :
  re_sub_from m repl k s = re_sub_from m repl 0 (skipn k s).
Proof.
  revert s. induction k as [|k IH]; intros s; [reflexivity|].
  destruct s as [|c s]; simpl; [reflexivity | apply IH].
Qed.

(** The characters of the result of [re.sub] come from the text or from
    the replacement. *)
Lemma re_sub_from_Forall (P : char -> Prop) m repl k s :
  Forall P s -> Forall P repl -> Forall P (re_sub_from m repl k s).
Proof.
  intros Hs Hr. revert k. induction Hs as [|c s Hc Hs IH]; intros k; simpl.
  - constructor.
  - destruct k as [|k]; [|apply IH].
    destruct (m (c :: s)) as [[|n]|].
    + constructor; [exact Hc | apply IH].
    + apply Forall_app. split; [exact Hr | apply IH].
    + constructor; [exact Hc | apply IH].
Qed.

Lemma re_sub_Forall (P : char -> Prop) m repl s :
  Forall P s -> Forall P repl -> Forall P (re_sub m repl s).
Proof. apply re_sub_from_Forall. Qed.

Lemma cons_to_first_Forall (P : char -> Prop) c pieces :
  P c -> Forall (Forall P) pieces -> Forall (Forall P) (cons_to_first c pieces).
Proof.
  intros Hc Hp. destruct Hp as [|p ps Hp Hps]; simpl.
  - repeat constructor. exact Hc.
  - constructor; [now constructor | exact Hps].
Qed.

Lemma split_char_Forall (P : char -> Prop) sep s :
  Forall P s -> Forall (Forall P) (split_char sep s).
Proof.
  induction 1 as [|c s Hc Hs IH]; simpl.
  - repeat constructor.
  - destruct (char_eqb c sep).
    + constructor; [constructor | exact IH].
    + now apply cons_to_first_Forall.
Qed.

Lemma join_Forall (P : char -> Prop) sep pieces :
  Forall P sep -> Forall (Forall P) pieces -> Forall P (join sep pieces).
Proof.
  intros Hsep. induction 1 as [|p ps Hp Hps IH]; simpl; [constructor|].
  destruct ps as [|p' ps']; [exact Hp|].
  apply Forall_app. split; [exact Hp|].
  apply Forall_app. split; [exact Hsep | exact IH].
Qed.

(** [re.sub(r'\s+', ' ', text)] keeps the characters that are not
    whitespace: a text that is not blank stays so. *)
Lemma re_sub_ws_blank k s :
  (k <= run_len isspace s)%nat ->
  blank (re_sub_from m_ws_run [sp] k s) = blank s.
Proof.
  revert k. induction s as [|c s IH]; intros k Hk; simpl; [reflexivity|].
  simpl in Hk. destruct k as [|k].
  - unfold m_ws_run, m_plus. simpl. destruct (isspace c) eqn:Hc; simpl.
    + apply IH. lia.
    + rewrite Hc. reflexivity.
  - destruct (isspace c) eqn:Hc; [|lia]. simpl. apply IH. lia.
Qed.

(** ** Substrings of a stripped text *)

Lemma startswith_app p a b :
  startswith p a = true -> startswith p (a ++ b) = true.
Proof.
  revert a. induction p as [|x p IH]; intros a; [reflexivity|].
  destruct a as [|y a]; simpl; [discriminate|].
  rewrite !andb_true_iff. intros [H1 H2]. split; [exact H1 | now apply IH].
Qed.

Lemma contains_app_l p a b :
  contains p a = true -> contains p (a ++ b) = true.
Proof.
  induction a as [|y a IH]; simpl.
  - rewrite orb_false_r. intros H. destruct p; [|discriminate].
    destruct b; reflexivity.
  - rewrite !orb_true_iff. intros [H|H].
    + left. now apply (startswith_app p (y :: a) b).
    + right. now apply IH.
Qed.

Lemma startswith_prefix p b : startswith p (p ++ b) = true.
Proof.
  induction p as [|x p IH]; [reflexivity|]. simpl.
  unfold char_eqb. now rewrite N.eqb_refl.
Qed.

Lemma contains_app_r p a b :
  contains p b = true -> contains p (a ++ b) = true.
Proof.
  intros H. induction a as [|y a IH]; [exact H|].
  simpl. rewrite IH. apply orb_true_r.
Qed.

(** A text contains each of its contiguous parts. *)
Lemma contains_infix p a b : contains p (a ++ p ++ b) = true.
Proof.
  apply contains_app_r. destruct (p ++ b) eqn:H; simpl.
  - destruct p; [reflexivity | discriminate].
  - rewrite <- H, startswith_prefix. reflexivity.
Qed.

Lemma contains_lstrip p s :
  contains p (lstrip s) = true -> contains p s = true.
Proof.
  induction s as [|c s IH]; simpl; [tauto|].
  destruct (isspace c); [|tauto].
  intros H. apply IH in H. rewrite H. apply orb_true_r.
Qed.

Lemma rstrip_prefix s : exists b, s = rstrip s ++ b.
Proof.
  induction s as [|c s [b IH]]; simpl; [now exists []|].
  destruct (rstrip s) as [|r rs].
  - destruct (isspace c).
    + now exists (c :: s).
    + exists s. reflexivity.
  - exists b. simpl in *. now rewrite <- IH.
Qed.

Lemma contains_rstrip p s :
  contains p (rstrip s) = true -> contains p s = true.
Proof.
  intros H. destruct (rstrip_prefix s) as [b Hb]. rewrite Hb.
  now apply contains_app_l.
Qed.

(** A substring of [strip(s)] is a substring of [s]. *)
Lemma contains_strip p s :
  contains p s = false -> contains p (strip s) = false.
Proof.
  intros H. destruct (contains p (strip s)) eqn:Hc; [|reflexivity].
  unfold strip in Hc. apply contains_lstrip, contains_rstrip in Hc.
  congruence.
Qed.

Lemma run_len_skipn (p : char -> bool) s :
  run_len p (skipn (run_len p s) s) = O.
Proof.
  induction s as [|c s IH]; simpl; [reflexivity|].
  destruct (p c) eqn:Hc; simpl; [exact IH | now rewrite Hc].
Qed.

End Py.

(* ===================================================================== *)
(** * The chunker: [src/services/text_chunking.py]                        *)
(* ===================================================================== *)

Module Chunker.
Import Py.

(** [TextChunk] *)
Record TextChunk := mkTextChunk {
  content : pystr;
  start_index : Z;
  end_index : Z;
  chunk_id : Z;
  total_chunks : Z;
  word_count : Z;
  has_heading : bool;
  heading_text : option pystr
}.

(** The three parameters of [TextChunker.__init__]. *)
Record TextChunker := mkTextChunker {
  max_chunk_size : Z;
  overlap_size : Z;
  min_chunk_size : Z
}.

(** [ChunkingManager.chunkers] *)
Definition chunker_default := mkTextChunker 4000 200 500.
Definition chunker_small := mkTextChunker 2000 100 500.
Definition chunker_large := mkTextChunker 20000 300 500.
Definition chunker_precise := mkTextChunker 3000 150 800.

Definition set_id (c : TextChunk) (i : Z) : TextChunk :=
  mkTextChunk (content c) (start_index c) (end_index c) i (total_chunks c)
    (word_count c) (has_heading c) (heading_text c).

Definition set_total (n : Z) (c : TextChunk) : TextChunk :=
  mkTextChunk (content c) (start_index c) (end_index c) (chunk_id c) n
    (word_count c) (has_heading c) (heading_text c).

Section WithUnicodeClasses.

(** Character classes that come from the Unicode tables of the Python
    runtime: [str.isupper], and the classes [\d] and [\w] of [re]. *)
Variable isupper : char -> bool.
Variable isdigit : char -> bool.
Variable isword : char -> bool.

(** ** [heading_patterns], matched with [re.match] against a line; the line
    is an element of [split('\n')] and holds no newline, so [.] matches
    each of its characters and [$] only its end. *)

(** [^#{1,6}\s+.+$] *)
Definition is_markdown_heading (l : pystr) : bool :=
  let k := run_len (char_eqb 35%N) l in
  (1 <=? k)%nat && (k <=? 6)%nat &&
  match skipn k l with
  | w :: _ :: _ => isspace w
  | _ => false
  end.

(** [^\d+\.\s+.+$] *)
Definition is_numbered_heading (l : pystr) : bool :=
  let k := run_len isdigit l in
  (1 <=? k)%nat &&
  match skipn k l with
  | d :: w :: _ :: _ => char_eqb d 46%N && isspace w
  | _ => false
  end.

(** [^[A-Z\s]{5,}$] *)
Definition is_caps_heading (l : pystr) : bool :=
  (5 <=? length l)%nat &&
  forallb (fun c => ((65 <=? c) && (c <=? 90))%N || isspace c) l.

(** [^\w+:$] *)
Definition is_label_heading (l : pystr) : bool :=
  match rev l with
  | c :: (_ :: _) as body => char_eqb c 58%N && forallb isword body
  | _ => false
  end.

(** [_detect_heading].  [first_line[0]] raises [IndexError] on an empty
    line; the callers pass text whose [strip()] is non-empty (the guards
    [if not paragraph.strip()] and [if current_chunk.strip()]), so the
    first line starts with a non-blank character. *)
Definition _detect_heading (paragraph : pystr) : bool * option pystr :=
  let first_line := strip (hd [] (split_char nl (strip paragraph))) in
  if is_markdown_heading first_line || is_numbered_heading first_line ||
     is_caps_heading first_line || is_label_heading first_line
  then (true, Some first_line)
  else if (len first_line <? 100) &&
          (Z.of_nat (length (split_ws first_line)) <? 10) &&
          match first_line with c :: _ => isupper c | [] => false end
  then (true, Some first_line)
  else (false, None).

(** The first line that [_detect_heading] looks at is not empty when the
    text has a non-blank character, so that [first_line[0]] exists for
    every text that the chunker passes to it. *)
Lemma first_line_nonempty (paragraph : pystr) :
  nonempty (strip paragraph) = true ->
  nonempty (strip (hd [] (split_char nl (strip paragraph)))) = true.
Proof.
  destruct (strip paragraph) as [|c r] eqn:Hs; [discriminate|]. intros _.
  pose proof (strip_head _ _ _ Hs) as Hc.
  assert (Hnl : char_eqb c nl = false).
  { apply char_eqb_neq. now apply not_space_not_nl. }
  destruct (split_char_head nl c r Hnl) as [r1 ->].
  now destruct (strip_cons_not_space c r1 Hc) as [r2 ->].
Qed.

Variable cfg : TextChunker.

(** [_clean_text] *)
Definition _clean_text (text : pystr) : pystr :=
  let text := re_sub m_ws_run [sp] text in
  let text := re_sub m_three_nl [nl; nl] text in
  strip text.

(** The loop of [_get_overlap_text] over [reversed(words)]. *)
Fixpoint overlap_words_loop (ws : list pystr) (overlap_words : list pystr)
    (char_count : Z) : list pystr :=
  match ws with
  | [] => overlap_words
  | word :: ws' =>
      if char_count + len word >? overlap_size cfg
      then overlap_words
      else overlap_words_loop ws' (word :: overlap_words)
             (char_count + len word + 1)
  end.

(** [_get_overlap_text] *)
Definition _get_overlap_text (chunk : pystr) : pystr :=
  if len chunk <=? overlap_size cfg then []
  else
    let sentences :=
      re_split m_sentence_end (last_n (overlap_size cfg) chunk) in
    if (1 <? length sentences)%nat
    then join (str ". ") (tl sentences) ++ str ". "
    else
      let overlap_words := overlap_words_loop (rev (split_ws chunk)) [] 0 in
      if nonempty overlap_words
      then join [sp] overlap_words ++ [sp]
      else [].

(** [_create_chunk] *)
Definition _create_chunk (c : pystr) (start stop : Z) (id : Z) : TextChunk :=
  let '(is_heading, heading) := _detect_heading c in
  mkTextChunk c start stop id 0 (Z.of_nat (length (split_ws c)))
    is_heading heading.

(** The local variables of the loops of [_chunk_with_structure] and
    [_chunk_simple]. *)
Record loop_state := mkLoop {
  chunks : list TextChunk;
  current_chunk : pystr;
  current_start : Z;
  text_position : Z
}.

Definition loop_init : loop_state := mkLoop [] [] 0 0.

(** One pass of the body of the [for] loop; [piece] is what is appended,
    [sep] the separator put before it inside a chunk and [advance] the
    amount added to [text_position]. *)
Definition loop_body (sep : pystr) (advance : Z) (st : loop_state)
    (piece : pystr) : loop_state :=
  if (len (current_chunk st) + len piece >? max_chunk_size cfg) &&
     nonempty (current_chunk st)
  then
    let chunk :=
      _create_chunk (strip (current_chunk st)) (current_start st)
        (text_position st) (Z.of_nat (length (chunks st)) + 1) in
    let overlap_text := _get_overlap_text (current_chunk st) in
    mkLoop (chunks st ++ [chunk]) (overlap_text ++ piece)
      (text_position st - len overlap_text)
      (text_position st + advance)
  else if nonempty (current_chunk st)
  then mkLoop (chunks st) (current_chunk st ++ sep ++ piece)
         (current_start st) (text_position st + advance)
  else mkLoop (chunks st) piece (text_position st)
         (text_position st + advance).

(** After the loop: "Ajouter le dernier chunk". *)
Definition loop_finish (text : pystr) (st : loop_state) : list TextChunk :=
  if nonempty (strip (current_chunk st))
  then chunks st ++
       [_create_chunk (strip (current_chunk st)) (current_start st)
          (len text) (Z.of_nat (length (chunks st)) + 1)]
  else chunks st.

(** The body of the loop of [_chunk_with_structure]; the heading test on
    the paragraph is computed there and not used. *)
Definition structure_body (st : loop_state) (paragraph : pystr)
  : loop_state :=
  if nonempty (strip paragraph)
  then loop_body [nl; nl] (len paragraph + 2) st paragraph
  else st.

(** [_chunk_with_structure] *)
Definition _chunk_with_structure (text : pystr) : list TextChunk :=
  let paragraphs := re_split m_par_break text in
  loop_finish text (fold_left structure_body paragraphs loop_init).

(** The body of the loop of [_chunk_simple]. *)
Definition simple_body (st : loop_state) (sentence : pystr) : loop_state :=
  let sentence := strip sentence in
  if nonempty sentence
  then
    let sentence_in_text := sentence ++ [46%N] in
    loop_body [sp] (len sentence_in_text) st sentence_in_text
  else st.

(** [_chunk_simple] *)
Definition _chunk_simple (text : pystr) : list TextChunk :=
  let sentences := re_split m_sentence_end text in
  loop_finish text (fold_left simple_body sentences loop_init).

(** The [while] loop of [_post_process_chunks]; [done] is
    [len(merged_chunks)]. *)
Fixpoint merge_loop (done : Z) (l : list TextChunk) : list TextChunk :=
  match l with
  | [] => []
  | current :: rest =>
      match rest with
      | next :: rest' =>
          if (len (content current) <? min_chunk_size cfg) &&
             (len (content current) + len (content next)
                <=? max_chunk_size cfg)
          then
            let merged_content :=
              content current ++ [nl; nl] ++ content next in
            mkTextChunk merged_content (start_index current)
              (end_index next) (done + 1) 0
              (Z.of_nat (length (split_ws merged_content)))
              (has_heading current || has_heading next)
              (match heading_text current with
               | Some h => if nonempty h then Some h else heading_text next
               | None => heading_text next
               end)
            :: merge_loop (done + 1) rest'
          else set_id current (done + 1) :: merge_loop (done + 1) rest
      | [] => set_id current (done + 1) :: merge_loop (done + 1) rest
      end
  end.

(** [_post_process_chunks] *)
Definition _post_process_chunks (l : list TextChunk) : list TextChunk :=
  let merged_chunks := merge_loop 0 l in
  map (set_total (Z.of_nat (length merged_chunks))) merged_chunks.

(** [chunk_text] *)
Definition chunk_text (text : pystr) (preserve_structure : bool)
  : list TextChunk :=
  if negb (nonempty text) || (len (strip text) =? 0) then []
  else
    let text := _clean_text text in
    if len text <=? max_chunk_size cfg
    then [mkTextChunk text 0 (len text) 1 1
            (Z.of_nat (length (split_ws text))) false None]
    else
      _post_process_chunks
        (if preserve_structure
         then _chunk_with_structure text
         else _chunk_simple text).

(** The size invariant of the specification for one chunk. *)
Definition within_bounds (c : TextChunk) : Prop :=
  min_chunk_size cfg <= len (content c) <= max_chunk_size cfg.

(** ** The structure-preserving path *)

Lemma clean_text_no_newline text : no_newline (_clean_text text).
Proof.
  unfold _clean_text.
  rewrite re_sub_three_nl_no_newline by apply re_sub_ws_no_newline.
  apply strip_no_newline, re_sub_ws_no_newline.
Qed.

(** A text without newlines is one paragraph: the loop runs once, never
    takes the overflow branch (the current chunk is still empty) and the
    whole text is emitted as a single chunk. *)
Lemma chunk_with_structure_no_newline text :
  no_newline text ->
  _chunk_with_structure text =
    if nonempty (strip text)
    then [_create_chunk (strip text) 0 (len text) 1]
    else [].
Proof.
  intros H. unfold _chunk_with_structure.
  rewrite re_split_par_no_newline by exact H. simpl.
  unfold structure_body. destruct (nonempty (strip text)) eqn:Hne.
  - unfold loop_body. simpl. rewrite andb_false_r. simpl.
    unfold loop_finish. simpl. now rewrite Hne.
  - reflexivity.
Qed.

Lemma merge_loop_length done l :
  (length (merge_loop done l) <= length l)%nat.
Proof.
  remember (length l) as n eqn:Hn. revert done l Hn.
  induction n as [n IH] using lt_wf_ind. intros done l ->.
  destruct l as [|c [|c' r]]; simpl; [lia | lia |].
  destruct (_ && _).
  - simpl. specialize (IH (length r) ltac:(simpl; lia) (done + 1) r eq_refl). lia.
  - simpl.
    specialize (IH (length (c' :: r)) ltac:(simpl; lia) (done + 1) (c' :: r) eq_refl).
    simpl in IH. lia.
Qed.

Lemma post_process_length l :
  (length (_post_process_chunks l) <= length l)%nat.
Proof.
  unfold _post_process_chunks. rewrite length_map. apply merge_loop_length.
Qed.

Lemma chunk_text_structure_at_most_one text :
  (length (chunk_text text true) <= 1)%nat.
Proof.
  unfold chunk_text.
  destruct (negb (nonempty text) || (len (strip text) =? 0)); [simpl; lia|].
  destruct (len (_clean_text text) <=? max_chunk_size cfg); [simpl; lia|].
  etransitivity; [apply post_process_length|].
  rewrite chunk_with_structure_no_newline by apply clean_text_no_newline.
  destruct (nonempty _); simpl; lia.
Qed.

(** ** What the structure-preserving path returns *)

Lemma clean_text_blank text : blank (_clean_text text) = blank text.
Proof.
  unfold _clean_text.
  rewrite re_sub_three_nl_no_newline by apply re_sub_ws_no_newline.
  unfold strip. rewrite blank_lstrip, blank_rstrip.
  apply re_sub_ws_blank. lia.
Qed.

Lemma clean_text_stripped text : strip (_clean_text text) = _clean_text text.
Proof. unfold _clean_text. apply strip_idem. Qed.

(** The first test of [chunk_text] is the test that the text is blank. *)
Lemma chunk_text_guard text :
  negb (nonempty text) || (len (strip text) =? 0) = blank text.
Proof.
  destruct text as [|c t]; [reflexivity|]. simpl negb. simpl orb.
  destruct (strip (c :: t)) as [|x r] eqn:Hs.
  - apply strip_nil in Hs. now rewrite Hs.
  - destruct (blank (c :: t)) eqn:Hb.
    + apply strip_nil in Hb. congruence.
    + reflexivity.
Qed.

Lemma create_chunk_fields c start stop id :
  content (_create_chunk c start stop id) = c /\
  start_index (_create_chunk c start stop id) = start /\
  end_index (_create_chunk c start stop id) = stop /\
  chunk_id (_create_chunk c start stop id) = id /\
  word_count (_create_chunk c start stop id)
    = Z.of_nat (length (split_ws c)).
Proof. unfold _create_chunk. destruct (_detect_heading c). simpl. auto. Qed.

(** On a blank text the guard of [chunk_text] returns no chunk. *)
Lemma chunk_text_blank (text : pystr) :
  blank text = true -> chunk_text text true = [].
Proof.
  intros Hb. unfold chunk_text. now rewrite chunk_text_guard, Hb.
Qed.

(** On any other text the structure-preserving path returns one chunk. *)
Lemma chunk_text_structure_one (text : pystr) :
  blank text = false ->
  exists c,
    chunk_text text true = [c] /\
    content c = _clean_text text /\
    start_index c = 0 /\
    end_index c = len (_clean_text text) /\
    chunk_id c = 1 /\
    total_chunks c = 1 /\
    word_count c = Z.of_nat (length (split_ws (_clean_text text))).
Proof.
  intros Hb. unfold chunk_text. rewrite chunk_text_guard, Hb.
  destruct (len (_clean_text text) <=? max_chunk_size cfg).
  - eexists. split; [reflexivity|]. simpl. auto 10.
  - rewrite chunk_with_structure_no_newline by apply clean_text_no_newline.
    rewrite nonempty_strip, clean_text_blank, Hb. simpl.
    rewrite clean_text_stripped.
    pose proof (create_chunk_fields (_clean_text text) 0
                  (len (_clean_text text)) 1) as (H1 & H2 & H3 & H4 & H5).
    eexists. split; [reflexivity|]. simpl. auto 10.
Qed.

(** C3.  [_clean_text] replaces every whitespace run by one space before
    anything else, and with it every blank line: what it returns is the
    [strip] of that replacement and holds no newline, so that the split on
    blank-line paragraph boundaries finds none and gives the text back as
    a single paragraph.  A text whose normalized form is longer than
    [max_chunk_size] therefore comes back from [chunk_text] as one chunk
    that holds the whole normalized text and exceeds the maximum: the text
    is not split, and the only chunk is outside the size bounds of the
    specification. *)
Theorem chunk_text_never_splits (text : pystr) :
  0 <= max_chunk_size cfg ->
  max_chunk_size cfg < len (strip (re_sub m_ws_run [sp] text)) ->
  _clean_text text = strip (re_sub m_ws_run [sp] text) /\
  re_split m_par_break (_clean_text text) = [_clean_text text] /\
  exists c,
    chunk_text text true = [c] /\
    content c = strip (re_sub m_ws_run [sp] text) /\
    max_chunk_size cfg < len (content c) /\
    ~ within_bounds c.
Proof.
  intros Hmax Hlong.
  assert (Hclean : _clean_text text = strip (re_sub m_ws_run [sp] text)).
  { unfold _clean_text.
    now rewrite re_sub_three_nl_no_newline by apply re_sub_ws_no_newline. }
  split; [exact Hclean|]. split.
  - apply re_split_par_no_newline, clean_text_no_newline.
  - assert (Hb : blank text = false).
    { rewrite <- clean_text_blank. destruct (blank (_clean_text text)) eqn:Hb;
        [|reflexivity].
      apply strip_nil in Hb. rewrite clean_text_stripped, Hclean in Hb.
      rewrite Hb in Hlong. unfold len in Hlong. simpl in Hlong. lia. }
    destruct (chunk_text_structure_one text Hb) as (c & Hc & Hcontent & _).
    exists c. rewrite Hcontent, Hclean.
    split; [exact Hc|]. split; [reflexivity|]. split; [exact Hlong|].
    unfold within_bounds. rewrite Hcontent, Hclean. lia.
Qed.

(** With [preserve_structure=True], a blank text gives no chunk and any
    other text gives exactly one chunk, which holds the whole normalized
    text, whatever its length: the text is never split. *)
Theorem chunk_text_structure_whole_text (text : pystr) :
  (blank text = true -> chunk_text text true = []) /\
  (blank text = false ->
   exists c,
     chunk_text text true = [c] /\
     content c = _clean_text text /\
     start_index c = 0 /\
     end_index c = len (_clean_text text) /\
     chunk_id c = 1 /\
     total_chunks c = 1 /\
     word_count c = Z.of_nat (length (split_ws (_clean_text text)))).
Proof.
  split; [apply chunk_text_blank | apply chunk_text_structure_one].
Qed.

(** ** Post-processing *)

Lemma merge_loop_lookup_id done l i c :
  merge_loop done l !! i = Some c -> chunk_id c = done + Z.of_nat i + 1.
Proof.
  remember (length l) as n eqn:Hn. revert done l i c Hn.
  induction n as [n IH] using lt_wf_ind. intros done l i c ->.
  destruct l as [|x [|y r]]; simpl.
  - discriminate.
  - destruct i as [|i]; simpl; [|discriminate].
    intros [= <-]. simpl. lia.
  - destruct (_ && _).
    + destruct i as [|i]; simpl.
      * intros [= <-]. simpl. lia.
      * intros H.
        apply (IH (length r) ltac:(simpl; lia) (done + 1) r i c eq_refl) in H.
        lia.
    + destruct i as [|i]; simpl.
      * intros [= <-]. simpl. lia.
      * intros H.
        apply (IH (length (y :: r)) ltac:(simpl; lia) (done + 1) (y :: r)
                 i c eq_refl) in H.
        lia.
Qed.

(** After [_post_process_chunks] the chunks are numbered 1, 2, ... in
    order and each of them records the final number of chunks. *)
Theorem post_process_numbering (l : list TextChunk) (i : nat) (c : TextChunk) :
  _post_process_chunks l !! i = Some c ->
  chunk_id c = Z.of_nat i + 1 /\
  total_chunks c = Z.of_nat (length (_post_process_chunks l)).
Proof.
  unfold _post_process_chunks. rewrite list_lookup_fmap, length_map.
  destruct (merge_loop 0 l !! i) as [c0|] eqn:Hc; [|discriminate].
  simpl. intros [= <-]. simpl. split; [|reflexivity].
  apply merge_loop_lookup_id in Hc. lia.
Qed.

Definition at_most (bound : Z) (c : TextChunk) : Prop :=
  len (content c) <= bound.

Lemma merge_loop_bound done l :
  Forall (at_most (max_chunk_size cfg)) l ->
  Forall (at_most (max_chunk_size cfg + 2)) (merge_loop done l) /\
  (length l <= 2 * length (merge_loop done l))%nat.
Proof.
  remember (length l) as n eqn:Hn. revert done l Hn.
  induction n as [n IH] using lt_wf_ind. intros done l -> Hl.
  destruct l as [|x [|y r]]; simpl.
  - split; [constructor | lia].
  - split; [|lia]. constructor; [|constructor].
    apply Forall_inv in Hl. unfold at_most in *. simpl. lia.
  - inversion Hl as [|? ? Hx Hyr]; subst.
    inversion Hyr as [|? ? Hy Hr]; subst.
    destruct (_ && _) eqn:Hm.
    + destruct (IH (length r) ltac:(simpl; lia) (done + 1) r eq_refl Hr)
        as [IH1 IH2].
      split; [|simpl; lia]. constructor; [|exact IH1].
      apply andb_true_iff in Hm. destruct Hm as [_ Hm].
      unfold at_most. simpl. unfold len in *. rewrite !length_app. simpl.
      lia.
    + destruct (IH (length (y :: r)) ltac:(simpl; lia) (done + 1) (y :: r)
                  eq_refl Hyr) as [IH1 IH2].
      split; [|simpl in *; lia]. constructor; [|exact IH1].
      unfold at_most in *. simpl. lia.
Qed.

(** Merging joins at most two chunks into one and does not count the
    two-character separator: when no chunk exceeds [max_chunk_size]
    before, none exceeds it by more than 2 after, and the number of chunks
    is at least half of what it was. *)
Theorem post_process_merge_bound (l : list TextChunk) :
  Forall (at_most (max_chunk_size cfg)) l ->
  Forall (at_most (max_chunk_size cfg + 2)) (_post_process_chunks l) /\
  (length l <= 2 * length (_post_process_chunks l))%nat /\
  (length (_post_process_chunks l) <= length l)%nat.
Proof.
  intros Hl. destruct (merge_loop_bound 0 l Hl) as [H1 H2].
  unfold _post_process_chunks. rewrite length_map.
  split; [|split; [exact H2 | apply merge_loop_length]].
  apply Forall_fmap. eapply Forall_impl; [exact H1|].
  intros c Hc. exact Hc.
Qed.

End WithUnicodeClasses.

(** ** A run on a long text *)

Definition ascii_upper (c : char) : bool := ((65 <=? c) && (c <=? 90))%N.
Definition ascii_digit (c : char) : bool := ((48 <=? c) && (c <=? 57))%N.
Definition ascii_word (c : char) : bool :=
  ascii_upper c || ascii_digit c || ((97 <=? c) && (c <=? 122))%N ||
  (c =? 95)%N.

(** Three paragraphs of 100, 5000 and 3000 characters. *)
Definition three_paragraphs : pystr :=
  repeat 97%N 100 ++ [nl; nl] ++
  concat (repeat (str "word ") 1000) ++ [nl; nl] ++
  concat (repeat (str "text. ") 500).

(** With the default strategy (maximum 4000) the text comes back as one
    chunk of 8100 characters: the last chunk is the only one, and it is
    the one that the size invariant leaves out. *)
Example long_text_single_chunk :
  map (fun c => (len (content c), chunk_id c, total_chunks c))
    (chunk_text ascii_upper ascii_digit ascii_word chunker_default
       three_paragraphs true)
  = [(8100, 1, 1)].
Proof. vm_compute. reflexivity. Qed.

(** C3 at that text: two blank-line boundaries, 8100 characters after
    normalization, one chunk. *)
Lemma chunk_text_never_splits_witness :
  len (_clean_text three_paragraphs) = 8100 /\
  exists c,
    chunk_text ascii_upper ascii_digit ascii_word chunker_default
      three_paragraphs true = [c] /\
    content c = strip (re_sub m_ws_run [sp] three_paragraphs) /\
    max_chunk_size chunker_default < len (content c) /\
    ~ within_bounds chunker_default c.
Proof.
  split; [vm_compute; reflexivity|].
  apply (chunk_text_never_splits ascii_upper ascii_digit ascii_word
           chunker_default three_paragraphs).
  - vm_compute. discriminate.
  - vm_compute. reflexivity.
Defined.

(** The sentence path ([preserve_structure=False], which no caller of the
    repository selects) is outside the invariant: with a maximum of 20 and
    a minimum of 8, the second of four chunks has 29 characters. *)
Example sentence_path_chunk_sizes :
  map (fun c => len (content c))
    (chunk_text ascii_upper ascii_digit ascii_word (mkTextChunker 20 5 8)
       (str "Hello world. This is a second paragraph. It has words. Third one here!")
       false)
  = [12; 29; 15; 17].
Proof. vm_compute. reflexivity. Qed.

(** ** A run of the post-processing *)

(** Three chunks of 2, 4 and 5 characters, for a chunker of maximum 6 and
    minimum 3. *)
Definition short_chunks : list TextChunk :=
  [mkTextChunk (str "ab") 0 2 1 0 1 false None;
   mkTextChunk (str "cdef") 2 6 2 0 1 false None;
   mkTextChunk (str "ghijk") 6 11 3 0 1 false None].

Definition tiny_chunker : TextChunker := mkTextChunker 6 1 3.

(** The first two chunks are merged into one of 8 characters, two more
    than the maximum, and two chunks are left out of three. *)
Lemma post_process_merge_bound_witness :
  map (fun c => len (content c))
    (_post_process_chunks tiny_chunker short_chunks) = [8; 5] /\
  (Forall (at_most (max_chunk_size tiny_chunker + 2))
     (_post_process_chunks tiny_chunker short_chunks) /\
   (length short_chunks
      <= 2 * length (_post_process_chunks tiny_chunker short_chunks))%nat /\
   (length (_post_process_chunks tiny_chunker short_chunks)
      <= length short_chunks)%nat).
Proof.
  split; [reflexivity|].
  apply (post_process_merge_bound tiny_chunker short_chunks).
  repeat (apply List.Forall_cons; [vm_compute; discriminate|]).
  apply List.Forall_nil.
Defined.

(** The chunk that was third is the second of two after the merge. *)
Lemma post_process_numbering_witness :
  chunk_id (mkTextChunk (str "ghijk") 6 11 2 2 1 false None)
    = Z.of_nat 1 + 1 /\
  total_chunks (mkTextChunk (str "ghijk") 6 11 2 2 1 false None)
    = Z.of_nat (length (_post_process_chunks tiny_chunker short_chunks)).
Proof.
  apply (post_process_numbering tiny_chunker short_chunks 1
           (mkTextChunk (str "ghijk") 6 11 2 2 1 false None)).
  reflexivity.
Defined.

(** ** [get_chunking_stats] and [ChunkingManager] *)

(** The dictionary returned by [get_chunking_stats] for a list of chunks
    that is not empty. *)
Record ChunkingStats := mkChunkingStats {
  stat_total_chunks : Z;
  stat_total_characters : Z;
  stat_total_words : Z;
  stat_average_chunk_size : Z;
  stat_average_words_per_chunk : Z;
  stat_min_chunk_size : Z;
  stat_max_chunk_size : Z;
  stat_chunks_with_headings : Z
}.

Definition Zsum (l : list Z) : Z := fold_right Z.add 0 l.

(** [min] and [max] of the list [x :: l]. *)
Definition list_min (x : Z) (l : list Z) : Z := fold_left Z.min l x.
Definition list_max (x : Z) (l : list Z) : Z := fold_left Z.max l x.

(** [get_chunking_stats]; [None] is the empty dictionary returned for an
    empty list. *)
Definition get_chunking_stats (chunks : list TextChunk)
  : option ChunkingStats :=
  match chunks with
  | [] => None
  | c :: rest =>
      let chunk_sizes := map (fun c => len (content c)) chunks in
      let word_counts := map word_count chunks in
      let n := Z.of_nat (length chunks) in
      Some (mkChunkingStats n (Zsum chunk_sizes) (Zsum word_counts)
              (Zsum chunk_sizes / n) (Zsum word_counts / n)
              (list_min (len (content c))
                 (map (fun c => len (content c)) rest))
              (list_max (len (content c))
                 (map (fun c => len (content c)) rest))
              (Z.of_nat (length (List.filter has_heading chunks))))
  end.

(** [ChunkingManager.chunkers]: the chunker registered under a name. *)
Definition chunkers (strategy : pystr) : option TextChunker :=
  if str_eqb strategy (str "default") then Some chunker_default
  else if str_eqb strategy (str "small") then Some chunker_small
  else if str_eqb strategy (str "large") then Some chunker_large
  else if str_eqb strategy (str "precise") then Some chunker_precise
  else None.

(** [auto_select_strategy] *)
Definition auto_select_strategy (c : pystr) : pystr :=
  let content_length := len c in
  let word_count := Z.of_nat (length (split_ws c)) in
  if content_length <? 5000 then str "small"
  else if content_length >? 20000 then str "large"
  else if word_count >? 3000 then str "precise"
  else str "default".

Section WithUnicodeClassesManager.

Variable isupper : char -> bool.
Variable isdigit : char -> bool.
Variable isword : char -> bool.

(** [chunk_text] as a call: on a text longer than [max_chunk_size] the
    line that logs the mean size divides by the number of chunks and
    raises [ZeroDivisionError] when there is none. *)
Definition chunk_text_call (cfg : TextChunker) (text : pystr)
    (preserve_structure : bool) : outcome (list TextChunk) :=
  let chunks := chunk_text isupper isdigit isword cfg text preserve_structure in
  if negb (nonempty text) || (len (strip text) =? 0) then Ok chunks
  else if len (_clean_text text) <=? max_chunk_size cfg then Ok chunks
  else
    match chunks with
    | [] => Raise (mkExn (str "ZeroDivisionError")
                     (str "integer division or modulo by zero"))
    | _ => Ok chunks
    end.

(** [ChunkingManager.chunk_document]: an unknown strategy is replaced by
    ["default"]; the line that logs [stats['total_chunks']] raises
    [KeyError] when the statistics are the empty dictionary. *)
Definition chunk_document (c : pystr) (strategy : pystr)
    (preserve_structure : bool) : outcome (list TextChunk) :=
  let chunker := default chunker_default (chunkers strategy) in
  bind (chunk_text_call chunker c preserve_structure)
    (fun chunks =>
       match get_chunking_stats chunks with
       | None => Raise (mkExn (str "KeyError") (str "'total_chunks'"))
       | Some _ => Ok chunks
       end).

(** On the structure-preserving path the log line of [chunk_text] never
    divides by zero. *)
Lemma chunk_text_call_structure cfg text :
  chunk_text_call cfg text true
    = Ok (chunk_text isupper isdigit isword cfg text true).
Proof.
  unfold chunk_text_call.
  pose proof (chunk_text_structure_one isupper isdigit isword cfg text)
    as Hnb.
  rewrite chunk_text_guard. destruct (blank text) eqn:Hb; [reflexivity|].
  destruct (_ <=? _); [reflexivity|].
  destruct (Hnb eq_refl) as (c & -> & _). reflexivity.
Qed.

(** [chunk_document] with [preserve_structure=True], as the summarizer
    calls it: a blank content makes it raise [KeyError] (the statistics of
    an empty list have no ['total_chunks']); any other content comes back
    as one chunk holding the whole normalized text, for every strategy
    name, registered or not. *)
Theorem chunk_document_structure (c : pystr) (strategy : pystr) :
  (blank c = true ->
   chunk_document c strategy true
     = Raise (mkExn (str "KeyError") (str "'total_chunks'"))) /\
  (blank c = false ->
   exists chunk,
     chunk_document c strategy true = Ok [chunk] /\
     content chunk = _clean_text c /\
     chunk_id chunk = 1 /\ total_chunks chunk = 1).
Proof.
  unfold chunk_document. rewrite chunk_text_call_structure. simpl.
  pose proof (chunk_text_blank isupper isdigit isword
                (default chunker_default (chunkers strategy)) c) as Hb.
  pose proof (chunk_text_structure_one isupper isdigit isword
                (default chunker_default (chunkers strategy)) c) as Hnb.
  split; intros H.
  - now rewrite (Hb H).
  - destruct (Hnb H) as (chunk & -> & Hc & _ & _ & Hid & Htot & _).
    exists chunk. simpl. auto.
Qed.

End WithUnicodeClassesManager.

Lemma list_min_le x l : list_min x l <= x /\ Forall (fun y => list_min x l <= y) l.
Proof.
  unfold list_min. revert x. induction l as [|y l IH]; intros x; simpl.
  - split; [lia | constructor].
  - destruct (IH (Z.min x y)) as [H1 H2]. split; [lia|].
    constructor; [lia | exact H2].
Qed.

Lemma list_max_ge x l : x <= list_max x l /\ Forall (fun y => y <= list_max x l) l.
Proof.
  unfold list_max. revert x. induction l as [|y l IH]; intros x; simpl.
  - split; [lia | constructor].
  - destruct (IH (Z.max x y)) as [H1 H2]. split; [lia|].
    constructor; [lia | exact H2].
Qed.

Lemma Zsum_bounds lo hi l :
  Forall (fun y => lo <= y <= hi) l ->
  Z.of_nat (length l) * lo <= Zsum l <= Z.of_nat (length l) * hi.
Proof.
  induction 1 as [|y l Hy _ IH]; simpl length; simpl Zsum; [lia|].
  rewrite Nat2Z.inj_succ. lia.
Qed.

(** The statistics exist exactly for a list of chunks that is not empty;
    they count the chunks, the minimum and the maximum bound the size of
    every chunk, and the mean size (an integer division) lies between
    them. *)
Theorem chunking_stats_consistent (chunks : list TextChunk) :
  match get_chunking_stats chunks with
  | None => chunks = []
  | Some st =>
      chunks <> [] /\
      stat_total_chunks st = Z.of_nat (length chunks) /\
      Forall (fun c => stat_min_chunk_size st <= len (content c)
                       <= stat_max_chunk_size st) chunks /\
      stat_min_chunk_size st <= stat_average_chunk_size st
        <= stat_max_chunk_size st
  end.
Proof.
  destruct chunks as [|c rest]; [reflexivity|].
  unfold get_chunking_stats.
  cbn [stat_total_chunks stat_min_chunk_size stat_max_chunk_size
       stat_average_chunk_size].
  set (sizes := map (fun c => len (content c)) rest).
  destruct (list_min_le (len (content c)) sizes) as [Hm1 Hm2].
  destruct (list_max_ge (len (content c)) sizes) as [HM1 HM2].
  set (lo := list_min (len (content c)) sizes) in *.
  set (hi := list_max (len (content c)) sizes) in *.
  assert (Hall : Forall (fun y => lo <= y <= hi)
                   (map (fun c => len (content c)) (c :: rest))).
  { simpl. fold sizes. constructor; [lia|].
    apply List.Forall_forall. intros y Hy.
    rewrite List.Forall_forall in Hm2, HM2.
    split; [apply Hm2 | apply HM2]; exact Hy. }
  split; [discriminate|]. split; [reflexivity|]. split.
  - apply Forall_fmap in Hall. exact Hall.
  - pose proof (Zsum_bounds lo hi _ Hall) as Hs.
    rewrite length_map in Hs.
    set (n := Z.of_nat (length (c :: rest))) in *.
    assert (Hn : 0 < n) by (unfold n; simpl length; lia).
    split.
    + apply Z.div_le_lower_bound; lia.
    + apply Z.div_le_upper_bound; lia.
Qed.

End Chunker.

(* ===================================================================== *)
(** * The extractor: [src/services/content_extraction.py] and
      [src/agents/content_extractor_agent.py]                             *)
(* ===================================================================== *)

Module Extractor.
Import Py.

(** The fields of [Document] that the stage reads or writes. *)
Record Document := mkDocument {
  title : pystr;
  url : pystr;
  content : pystr;
  word_count : Z;
  language : pystr
}.

Definition set_content (d : Document) (c : pystr) : Document :=
  mkDocument (title d) (url d) c (word_count d) (language d).

Definition set_word_count (d : Document) (n : Z) : Document :=
  mkDocument (title d) (url d) (content d) n (language d).

(** The text of the marker ["... [Contenu tronqué]"] (U+00E9 is 233). *)
Definition truncation_marker : pystr :=
  str "... [Contenu tronqu" ++ [233%N; 93%N].

(** A pattern that matches one character of the class [p]. *)
Definition m_char (p : char -> bool) : matcher :=
  fun s => match s with
           | c :: _ => if p c then Some 1%nat else None
           | [] => None
           end.

(** [[\x00-\x08\x0B\x0C\x0E-\x1F\x7F]] *)
Definition is_control (c : char) : bool :=
  ((c <=? 8) || (c =? 11) || (c =? 12) || ((14 <=? c) && (c <=? 31)) ||
   (c =? 127))%N.

(** [[ \t]+] *)
Definition m_blank_run : matcher :=
  m_plus (fun c => char_eqb c sp || char_eqb c 9%N).

(** [\n{3,}] *)
Definition m_nl_run3 : matcher :=
  fun s => let n := run_len (fun c => char_eqb c nl) s in
           if (3 <=? n)%nat then Some n else None.

(** [WebContentExtractor._clean_text] *)
Definition _clean_text (text : pystr) : pystr :=
  match text with
  | [] => []
  | _ =>
      let text := re_sub m_ws_run [sp] text in
      let text := re_sub m_par_break [nl; nl] text in
      let text := strip text in
      if len text >? 50000
      then slice_to 50000 text ++ truncation_marker
      else text
  end.

(** What the three extraction paths of the service ([_extract_html_content],
    [_extract_pdf_content], [_extract_generic_content]) build from the text
    they obtained for a URL: the content is [_clean_text] of that text, the
    word count is taken from it and the language is ["fr"]. *)
Record Page := mkPage {
  page_title : pystr;
  page_url : pystr;
  page_text : pystr
}.

Definition extract_content (p : Page) : Document :=
  let c := _clean_text (page_text p) in
  mkDocument (page_title p) (page_url p) c
    (Z.of_nat (length (split_ws c))) (str "fr").

Definition is_Some_bool {A} (o : option A) : bool :=
  match o with Some _ => true | None => false end.

(** The dictionary [content_filters]; a key that is absent is [None]. *)
Record Filters := mkFilters {
  min_content_length : option Z;
  max_content_length : option Z;
  required_language : option pystr;
  required_keywords : option (list pystr)
}.

(** Truth value of the dictionary: it has at least one key. *)
Definition has_key (f : Filters) : bool :=
  is_Some_bool (min_content_length f) || is_Some_bool (max_content_length f) ||
  is_Some_bool (required_language f) || is_Some_bool (required_keywords f).

(** The filters that [process_from_research_output] installs. *)
Definition pipeline_filters (keywords : list pystr) : Filters :=
  mkFilters (Some 200) (Some 50000) None (Some keywords).

(** [ContentExtractorAgent._clean_content] *)
Definition _clean_content (c : pystr) : pystr :=
  match c with
  | [] => []
  | _ =>
      let c := re_sub (m_char is_control) [] c in
      let c := re_sub m_blank_run [sp] c in
      let c := re_sub m_three_nl [nl; nl] c in
      let lines := map strip (split_char nl c) in
      let c := join [nl] lines in
      let c := re_sub m_nl_run3 [nl; nl] c in
      strip c
  end.

(** [_is_valid_document]; [ExtractionInput] has no attribute
    [min_quality_score], so the quality test is never run. *)
Definition _is_valid_document (d : Document) : bool :=
  nonempty (content d) && nonempty (strip (content d)) &&
  negb (len (content d) <? 50) &&
  negb (word_count d <? 20).

(** [_post_process_documents] *)
Definition _post_process_documents (docs : list Document) : list Document :=
  filter (fun d => _is_valid_document d = true)
    (map (fun d =>
            let d := set_content d (_clean_content (content d)) in
            set_word_count d (Z.of_nat (length (split_ws (content d)))))
       docs).

Section WithLower.

(** [str.lower] (Unicode case mapping of the Python runtime). *)
Variable lower : pystr -> pystr.

(** One pass of the loop of [_apply_content_filters]: [None] when the
    document is skipped ([continue]). *)
Definition apply_filters_to (filters : Filters) (doc : Document)
  : option Document :=
  let min_length := default 100 (min_content_length filters) in
  if len (content doc) <? min_length then None
  else
    let max_length := default 100000 (max_content_length filters) in
    let doc :=
      if len (content doc) >? max_length
      then set_content doc
             (slice_to max_length (content doc) ++ truncation_marker)
      else doc in
    let lang := default [] (required_language filters) in
    if nonempty lang && negb (str_eqb (language doc) lang) then None
    else
      let keywords := default [] (required_keywords filters) in
      if nonempty keywords &&
         negb (existsb (fun k => contains (lower k) (lower (content doc)))
                 keywords)
      then None
      else Some doc.

(** [_apply_content_filters] *)
Definition _apply_content_filters (filters : Filters)
    (docs : list Document) : list Document :=
  omap (apply_filters_to filters) docs.

(** [ContentExtractorAgent.process] on the pages obtained for the valid
    URLs: extraction, filters (when the filter dictionary is not empty),
    post-processing. *)
Definition process (filters : Filters) (pages : list Page)
  : list Document :=
  let documents := map extract_content pages in
  let documents :=
    if has_key filters
    then _apply_content_filters filters documents
    else documents in
  _post_process_documents documents.

(** ** Truncation *)

Lemma len_app (a b : pystr) : len (a ++ b) = len a + len b.
Proof. unfold len. rewrite length_app. lia. Qed.

Lemma len_truncation_marker : len truncation_marker = 21.
Proof. reflexivity. Qed.

Lemma len_slice_to n (s : pystr) :
  0 <= n <= len s -> len (slice_to n s) = n.
Proof.
  unfold slice_to, len. intros H.
  destruct (n <? 0) eqn:Hn; [lia|]. rewrite firstn_length_le; lia.
Qed.

(** A content longer than the maximum is cut to the maximum and the marker
    is appended after the cut: the document that the filter lets through
    has a content of [max_length + 21] characters. *)
Lemma apply_filters_to_truncated filters doc doc' max_length :
  max_content_length filters = Some max_length ->
  0 <= max_length < len (content doc) ->
  apply_filters_to filters doc = Some doc' ->
  len (content doc') = max_length + 21.
Proof.
  intros Hmax Hlen. unfold apply_filters_to. rewrite Hmax. simpl.
  destruct (len (content doc) <? _); [discriminate|].
  replace (len (content doc) >? max_length) with true by lia.
  destruct (_ && _); [discriminate|].
  destruct (_ && _); [discriminate|].
  intros [= <-]. simpl.
  rewrite len_app, len_truncation_marker, len_slice_to; lia.
Qed.

(** A content within the maximum is passed on unchanged. *)
Lemma apply_filters_to_short filters doc doc' :
  len (content doc) <= default 100000 (max_content_length filters) ->
  apply_filters_to filters doc = Some doc' ->
  doc' = doc.
Proof.
  intros Hlen. unfold apply_filters_to.
  destruct (len (content doc) <? _); [discriminate|].
  replace (len (content doc) >? _) with false by lia.
  destruct (_ && _); [discriminate|].
  destruct (_ && _); [discriminate|].
  now intros [= <-].
Qed.

End WithLower.

(** The service has the same cut: its result has at most 50021
    characters, and exactly 50021 when it cuts. *)
Lemma clean_text_length text :
  len (_clean_text text) <= 50021.
Proof.
  unfold _clean_text. destruct text as [|c t]; [unfold len; simpl; lia|].
  set (t' := strip _). destruct (len t' >? 50000) eqn:H.
  - rewrite len_app, len_truncation_marker, len_slice_to; lia.
  - lia.
Qed.

(** A page whose text is 12000 times ["word "] (60000 characters). *)
Definition long_page : Page :=
  mkPage (str "Long page") (str "https://example.org/long")
    (concat (repeat (str "word ") (12 * 1000))).

(** C4.  With the filters of the pipeline (maximum 50000), the page
    [long_page] is kept, its content is cut and marked, and the document
    that the stage emits has a content of 50021 characters: the marker is
    added after the cut to the maximum, so the content does not respect the
    maximum. *)
Theorem extractor_truncation_exceeds_max :
  let docs := process ascii_lower (pipeline_filters [str "word"]) [long_page] in
  map (fun d => len (content d)) docs = [50021] /\
  Forall (fun d => ~ len (content d) <= 50000) docs.
Proof.
  intros docs.
  assert (H : map (fun d => len (content d)) docs = [50021])
    by (vm_compute; reflexivity).
  split; [exact H|].
  destruct docs as [|d [|d' r]]; try discriminate.
  injection H as H. constructor; [lia | constructor].
Qed.

(** ** The content of the emitted documents *)

Definition is_nl (c : char) : bool := char_eqb c nl.

Definition three_newlines : pystr := [nl; nl; nl].

Definition not_control (c : char) : Prop := is_control c = false.

Lemma re_sub_control_removed s :
  Forall not_control (re_sub (m_char is_control) [] s).
Proof.
  unfold re_sub. induction s as [|c s IH]; simpl; [constructor|].
  destruct (is_control c) eqn:Hc; simpl; [exact IH | now constructor].
Qed.

(** [_clean_content] leaves no control character. *)
Lemma clean_content_no_control c : Forall not_control (_clean_content c).
Proof.
  unfold _clean_content. destruct c as [|x c]; [constructor|].
  apply strip_Forall, re_sub_Forall; [|repeat constructor].
  apply join_Forall; [repeat constructor|].
  apply Forall_fmap.
  eapply Forall_impl;
    [|intros piece Hp; apply (strip_Forall not_control piece Hp)].
  apply split_char_Forall.
  apply re_sub_Forall; [|repeat constructor].
  apply re_sub_Forall; [|repeat constructor].
  apply re_sub_control_removed.
Qed.

Lemma sub_nl_run_unfold c s :
  re_sub m_nl_run3 [nl; nl] (c :: s) =
  if (3 <=? run_len is_nl (c :: s))%nat
  then nl :: nl ::
       re_sub m_nl_run3 [nl; nl] (skipn (run_len is_nl (c :: s)) (c :: s))
  else c :: re_sub m_nl_run3 [nl; nl] s.
Proof.
  unfold re_sub at 1. cbn [re_sub_from]. unfold m_nl_run3 at 1.
  fold is_nl. destruct (3 <=? run_len is_nl (c :: s))%nat eqn:Hn.
  - destruct (run_len is_nl (c :: s)) as [|k] eqn:Hk; [discriminate|].
    rewrite re_sub_from_skipn. reflexivity.
  - reflexivity.
Qed.

Lemma skipn_length_le {A} n (l : list A) :
  (length (skipn n l) <= length l)%nat.
Proof. rewrite length_skipn. lia. Qed.

(** After [re.sub(r'\n{3,}', '\n\n', s)] a run of newlines at the
    beginning has the length it had, capped at 2. *)
Lemma sub_nl_run_head s :
  run_len is_nl (re_sub m_nl_run3 [nl; nl] s)
    = Nat.min (run_len is_nl s) 2.
Proof.
  remember (length s) as n eqn:Hn. revert s Hn.
  induction n as [n IH] using lt_wf_ind. intros s ->.
  destruct s as [|c s]; [reflexivity|].
  rewrite sub_nl_run_unfold.
  destruct (3 <=? run_len is_nl (c :: s))%nat eqn:H3.
  - apply Nat.leb_le in H3.
    pose proof (run_len_skipn is_nl (c :: s)) as Hrest.
    set (rest := skipn (run_len is_nl (c :: s)) (c :: s)) in *.
    assert (Hlen : (length rest < length (c :: s))%nat).
    { unfold rest. rewrite length_skipn. simpl length. lia. }
    pose proof (IH _ Hlen rest eq_refl) as Hhead.
    rewrite Hrest in Hhead.
    set (Y := re_sub m_nl_run3 [nl; nl] rest) in *.
    change (run_len is_nl (nl :: nl :: Y)) with (S (S (run_len is_nl Y))).
    rewrite Hhead. lia.
  - apply Nat.leb_gt in H3.
    pose proof (IH (length s) ltac:(simpl; lia) s eq_refl) as Hhead.
    set (Y := re_sub m_nl_run3 [nl; nl] s) in *.
    cbn [run_len] in *.
    destruct (is_nl c) eqn:Hc; [|reflexivity].
    rewrite Hhead. lia.
Qed.

Lemma startswith_nl_nl s :
  (run_len is_nl s <= 1)%nat -> startswith [nl; nl] s = false.
Proof.
  assert (Hsym : forall a, char_eqb nl a = is_nl a)
    by (intros a; apply N.eqb_sym).
  destruct s as [|a [|b s]]; cbn [startswith run_len]; try reflexivity.
  - intros _. apply andb_false_r.
  - rewrite !Hsym. destruct (is_nl a); [|reflexivity].
    destruct (is_nl b); [lia | reflexivity].
Qed.

Lemma startswith_nl s :
  run_len is_nl s = O -> startswith [nl] s = false.
Proof.
  assert (Hsym : forall a, char_eqb nl a = is_nl a)
    by (intros a; apply N.eqb_sym).
  destruct s as [|a s]; cbn [startswith run_len]; [reflexivity|].
  rewrite Hsym. destruct (is_nl a); [discriminate | reflexivity].
Qed.

(** After [re.sub(r'\n{3,}', '\n\n', s)] no three newlines follow one
    another. *)
Lemma sub_nl_run_no_triple s :
  contains three_newlines (re_sub m_nl_run3 [nl; nl] s) = false.
Proof.
  remember (length s) as n eqn:Hn. revert s Hn.
  induction n as [n IH] using lt_wf_ind. intros s ->.
  destruct s as [|c s]; [reflexivity|].
  rewrite sub_nl_run_unfold.
  destruct (3 <=? run_len is_nl (c :: s))%nat eqn:H3.
  - set (rest := skipn (run_len is_nl (c :: s)) (c :: s)).
    assert (Hlen : (length rest < length (c :: s))%nat).
    { unfold rest. rewrite length_skipn. apply Nat.leb_le in H3.
      simpl length. lia. }
    pose proof (IH _ Hlen rest eq_refl) as Hrest.
    pose proof (sub_nl_run_head rest) as Hhead.
    unfold rest in Hhead at 2. rewrite run_len_skipn in Hhead.
    simpl in Hhead.
    set (Y := re_sub m_nl_run3 [nl; nl] rest) in *.
    unfold three_newlines in *.
    change (contains [nl; nl; nl] (nl :: nl :: Y))
      with (startswith [nl; nl; nl] (nl :: nl :: Y)
            || (startswith [nl; nl; nl] (nl :: Y) || contains [nl; nl; nl] Y)).
    rewrite Hrest.
    change (startswith [nl; nl; nl] (nl :: nl :: Y))
      with (char_eqb nl nl && (char_eqb nl nl && startswith [nl] Y)).
    change (startswith [nl; nl; nl] (nl :: Y))
      with (char_eqb nl nl && startswith [nl; nl] Y).
    rewrite (startswith_nl Y Hhead).
    rewrite (startswith_nl_nl Y) by lia.
    rewrite !andb_false_r. reflexivity.
  - apply Nat.leb_gt in H3.
    pose proof (IH (length s) ltac:(simpl; lia) s eq_refl) as Hrest.
    pose proof (sub_nl_run_head s) as Hhead.
    set (Y := re_sub m_nl_run3 [nl; nl] s) in *.
    unfold three_newlines in *.
    change (contains [nl; nl; nl] (c :: Y))
      with (startswith [nl; nl; nl] (c :: Y) || contains [nl; nl; nl] Y).
    rewrite Hrest, orb_false_r.
    change (startswith [nl; nl; nl] (c :: Y))
      with (char_eqb nl c && startswith [nl; nl] Y).
    cbn [run_len] in H3.
    destruct (is_nl c) eqn:Hc.
    + rewrite (startswith_nl_nl Y) by lia. apply andb_false_r.
    + replace (char_eqb nl c) with (is_nl c) by apply N.eqb_sym.
      rewrite Hc. reflexivity.
Qed.

(** [_clean_content] leaves no run of three newlines and returns a
    stripped text. *)
Lemma clean_content_no_triple_newline c :
  contains three_newlines (_clean_content c) = false.
Proof.
  unfold _clean_content. destruct c as [|x c]; [reflexivity|].
  apply contains_strip, sub_nl_run_no_triple.
Qed.

Lemma clean_content_stripped c : strip (_clean_content c) = _clean_content c.
Proof.
  unfold _clean_content. destruct c as [|x c]; [reflexivity|].
  apply strip_idem.
Qed.

(** What [_post_process_documents] guarantees for each document it
    keeps. *)
Definition well_formed (d : Document) : Prop :=
  word_count d = Z.of_nat (length (split_ws (content d))) /\
  20 <= word_count d /\
  50 <= len (content d) /\
  strip (content d) = content d.

Definition clean (d : Document) : Prop :=
  Forall not_control (content d) /\
  contains three_newlines (content d) = false.

Lemma post_process_documents_elem docs d :
  d ∈ _post_process_documents docs ->
  exists d0,
    d0 ∈ docs /\ title d = title d0 /\ url d = url d0 /\
    content d = _clean_content (content d0) /\
    word_count d = Z.of_nat (length (split_ws (content d))) /\
    _is_valid_document d = true.
Proof.
  unfold _post_process_documents. intros H.
  apply list_elem_of_filter in H. destruct H as [Hv H].
  apply list_elem_of_fmap in H. destruct H as (d0 & -> & Hd0).
  exists d0. simpl. auto 10.
Qed.

Section Emitted.

Variable lower : pystr -> pystr.

(** Every document that the extractor emits has a word count equal to the
    number of whitespace-separated words of its content and at least 20, a
    content of at least 50 characters, and no whitespace at either end of
    the content. *)
Theorem emitted_documents_well_formed filters pages :
  Forall well_formed (process lower filters pages).
Proof.
  unfold process. apply List.Forall_forall. intros d Hd.
  apply list_elem_of_In in Hd.
  apply post_process_documents_elem in Hd.
  destruct Hd as (d0 & _ & _ & _ & Hc & Hw & Hv).
  unfold _is_valid_document in Hv.
  rewrite !andb_true_iff, !negb_true_iff in Hv.
  destruct Hv as [[[_ _] H50] H20].
  unfold well_formed. rewrite Hc at 3 4. rewrite clean_content_stripped.
  repeat split; try assumption; lia.
Qed.

(** The content of every document that the extractor emits is free of
    control characters (tab and newline apart) and never has three
    newlines in a row. *)
Theorem emitted_documents_clean filters pages :
  Forall clean (process lower filters pages).
Proof.
  unfold process. apply List.Forall_forall. intros d Hd.
  apply list_elem_of_In in Hd.
  apply post_process_documents_elem in Hd.
  destruct Hd as (d0 & _ & _ & _ & Hc & _ & _).
  unfold clean. rewrite Hc. split.
  - apply clean_content_no_control.
  - apply clean_content_no_triple_newline.
Qed.

End Emitted.

(** [\n\s*\n] has nothing to replace in a text without newlines. *)
Lemma re_sub_par_no_newline repl s :
  no_newline s -> re_sub m_par_break repl s = s.
Proof.
  unfold re_sub. induction 1 as [|c s Hc _ IH]; simpl; [reflexivity|].
  rewrite (char_eqb_neq _ _ Hc). now rewrite IH.
Qed.

Lemma marker_no_newline : no_newline truncation_marker.
Proof. unfold no_newline. repeat (constructor; [discriminate|]). constructor. Qed.

(** The text that the service hands over for a page has no newline left
    (every whitespace run was replaced by one space before the paragraph
    pattern is tried) and at most 50021 characters. *)
Theorem service_clean_text_shape text :
  no_newline (_clean_text text) /\ len (_clean_text text) <= 50021.
Proof.
  split; [|apply clean_text_length].
  unfold _clean_text. destruct text as [|c t]; [constructor|].
  rewrite re_sub_par_no_newline by apply re_sub_ws_no_newline.
  set (t' := strip (re_sub m_ws_run [sp] (c :: t))).
  assert (H : no_newline t')
    by apply strip_no_newline, re_sub_ws_no_newline.
  destruct (len t' >? 50000); [|exact H].
  apply Forall_app. split; [|apply marker_no_newline].
  unfold slice_to. simpl. now apply Forall_take.
Qed.

End Extractor.

(* ===================================================================== *)
(** * The researcher: [src/services/search_api.py] and
      [src/agents/researcher_agent.py]                                    *)
(* ===================================================================== *)

Module Researcher.
Import Py.

(** [ResearchQuery] *)
Record ResearchQuery := mkQuery {
  topic : pystr;
  keywords : list pystr;
  max_results : Z;
  search_depth : pystr
}.

(** [SearchResult]; [published_date] is an instant in microseconds. *)
Record SearchResult := mkResult {
  title : pystr;
  url : pystr;
  snippet : pystr;
  published_date : option Z;
  score : option Q
}.

(** [ResearchOutput]; the elapsed time and the timestamp are left out. *)
Record ResearchOutput := mkOutput {
  query : ResearchQuery;
  results : list SearchResult;
  total_found : Z;
  search_engine : pystr
}.

Definition set_score (r : SearchResult) (s : Q) : SearchResult :=
  mkResult (title r) (url r) (snippet r) (published_date r) (Some s).

(** A search adapter ([BaseSearchAPI.search]): query, maximum number of
    results and search depth give a list of results or an exception. *)
Definition adapter := pystr -> Z -> pystr -> outcome (list SearchResult).

(** [SearchAPIManager.apis]: a dictionary, in insertion order. *)
Definition registry := list (pystr * adapter).

Fixpoint lookup_api (name : pystr) (apis : registry) : option adapter :=
  match apis with
  | [] => None
  | (n, a) :: rest => if str_eqb n name then Some a else lookup_api name rest
  end.

Definition SearchAPIError (msg : pystr) : exn :=
  mkExn (str "SearchAPIError") msg.

(** [api_order] in [SearchAPIManager.search] *)
Definition api_order (preferred_api : pystr) (apis : registry) : list pystr :=
  preferred_api ::
  map fst (List.filter (fun na => negb (str_eqb (fst na) preferred_api)) apis).

(** The loop of [SearchAPIManager.search]: an API that is not registered is
    skipped, an API that raises or returns no result is passed over. *)
Fixpoint try_apis (apis : registry) (order : list pystr)
    (q : pystr) (n : Z) (depth : pystr) : outcome (list SearchResult) :=
  match order with
  | [] =>
      Raise (SearchAPIError
               ([201%N] ++
                str "chec de recherche avec toutes les APIs pour: " ++ q))
  | api_name :: rest =>
      match lookup_api api_name apis with
      | None => try_apis apis rest q n depth
      | Some api =>
          match api q n depth with
          | Ok (r :: rs) => Ok (r :: rs)
          | Ok [] => try_apis apis rest q n depth
          | Raise _ => try_apis apis rest q n depth
          end
      end
  end.

(** [SearchAPIManager.search] *)
Definition search (apis : registry) (q : pystr) (n : Z)
    (preferred_api : pystr) (depth : pystr) : outcome (list SearchResult) :=
  try_apis apis (api_order preferred_api apis) q n depth.

(** The name of the API whose results [search] returns: the first one in
    [api_order] that is registered and answers with a non-empty list.  The
    sources do not compute it; it is what "the provider that produced the
    results" means. *)
Fixpoint answering_api (apis : registry) (order : list pystr)
    (q : pystr) (n : Z) (depth : pystr) : option pystr :=
  match order with
  | [] => None
  | api_name :: rest =>
      match lookup_api api_name apis with
      | None => answering_api apis rest q n depth
      | Some api =>
          match api q n depth with
          | Ok (_ :: _) => Some api_name
          | _ => answering_api apis rest q n depth
          end
      end
  end.

(** The number of microseconds in a day, and [timedelta.days]. *)
Definition day_us : Z := 86400 * 1000000.
Definition days_between (now date : Z) : Z := (now - date) / day_us.

Section WithLower.

(** [str.lower] (Unicode case mapping of the Python runtime). *)
Variable lower : pystr -> pystr.

(** [_prepare_search_query] *)
Definition _prepare_search_query (q : ResearchQuery) : pystr :=
  let unique_keywords :=
    List.filter (fun kw => negb (contains (lower kw) (lower (topic q))))
      (keywords q) in
  let search_query := join [sp] (topic q :: unique_keywords) in
  let search_query :=
    if str_eqb (search_depth q) (str "advanced")
    then
      let s1 :=
        if contains (str "intelligence artificielle") (lower search_query) ||
           contains (str "ia") (lower search_query)
        then search_query ++ str " 2024 2025 r" ++ [233%N] ++ str "cent"
        else search_query in
      if contains (str "emploi") (lower s1) ||
         contains (str "travail") (lower s1)
      then s1 ++ str " march" ++ [233%N] ++ str " impact"
      else s1
    else search_query in
  strip search_query.

Definition count_matches (terms : list pystr) (text : pystr) : Z :=
  Z.of_nat (length (List.filter (fun term => contains term text) terms)).

(** [_calculate_relevance_score]; [now] is [datetime.now()].  The local
    variable [score] of the source is [s0], [s1], [s2], [s3], [s4] after
    each of its updates. *)
Definition _calculate_relevance_score (now : Z) (result : SearchResult)
    (scoring_terms : list pystr) : Q :=
  let s0 := 0%Q in
  let text_to_analyze := lower (title result ++ [sp] ++ snippet result) in
  let term_matches := count_matches scoring_terms text_to_analyze in
  let n := Z.of_nat (length scoring_terms) in
  let s1 :=
    match scoring_terms with
    | [] => s0
    | _ => (s0 + (inject_Z term_matches / inject_Z n) * (6 # 10))%Q
    end in
  let title_matches := count_matches scoring_terms (lower (title result)) in
  let s2 :=
    match scoring_terms with
    | [] => s1
    | _ => (s1 + (inject_Z title_matches / inject_Z n) * (3 # 10))%Q
    end in
  let s3 :=
    match published_date result with
    | Some date =>
        let days_old := days_between now date in
        if days_old <=? 365
        then
          let recency_score := Qmax 0 (1 - inject_Z days_old / 365)%Q in
          (s2 + recency_score * (1 # 10))%Q
        else s2
    | None => s2
    end in
  let s4 :=
    match score result with
    | Some api_score =>
        if Qltb 0 api_score then ((s3 + api_score) / 2)%Q else s3
    | None => s3
    end in
  Qmin s4 1.

(** The key of the sort and of the filter: [x.score or 0]. *)
Definition score_or_0 (r : SearchResult) : Q :=
  match score r with Some s => s | None => 0%Q end.

(** [list.sort(key=..., reverse=True)]: a stable sort by decreasing key;
    results with equal keys keep their relative order. *)
Fixpoint insert_desc (x : SearchResult) (l : list SearchResult)
  : list SearchResult :=
  match l with
  | [] => [x]
  | y :: l' =>
      if Qltb (score_or_0 x) (score_or_0 y)
      then y :: insert_desc x l'
      else x :: l
  end.

Definition sort_desc (l : list SearchResult) : list SearchResult :=
  fold_right insert_desc [] l.

(** [_filter_and_rank_results] *)
Definition _filter_and_rank_results (now : Z) (rs : list SearchResult)
    (topic : pystr) (keywords : list pystr) : list SearchResult :=
  match rs with
  | [] => []
  | _ =>
      let scoring_terms := lower topic :: map lower keywords in
      let scored_results :=
        map (fun r =>
               set_score r (_calculate_relevance_score now r scoring_terms))
          rs in
      let scored_results := sort_desc scored_results in
      List.filter (fun r => Qle_bool (1 # 10) (score_or_0 r)) scored_results
  end.

(** [default_search_params["preferred_api"]] *)
Definition preferred_api : pystr := str "tavily".

(** [validate_input] *)
Definition validate_input (q : ResearchQuery) : bool :=
  nonempty (topic q) && negb (len (strip (topic q)) <? 3) &&
  negb ((max_results q <=? 0) || (max_results q >? 20)).

(** [ResearcherAgent.process]; the two [except] clauses log and re-raise. *)
Definition process (apis : registry) (now : Z) (input_data : ResearchQuery)
  : outcome ResearchOutput :=
  let search_query := _prepare_search_query input_data in
  bind (search apis search_query (max_results input_data) preferred_api
          (search_depth input_data))
    (fun rs =>
       let filtered_results :=
         _filter_and_rank_results now rs (topic input_data)
           (keywords input_data) in
       let final_results :=
         slice_to (max_results input_data) filtered_results in
       Ok (mkOutput input_data final_results (Z.of_nat (length rs))
             preferred_api)).

(** The bound of the specification on a score. *)
Definition score_in_unit (r : SearchResult) : Prop :=
  exists s, score r = Some s /\ (0 <= s <= 1)%Q.

(** ** Scores *)

Lemma Qmin_le_r a b : (Qmin a b <= b)%Q.
Proof.
  unfold Qmin. destruct (Qle_bool a b) eqn:H.
  - now apply Qle_bool_iff.
  - apply Qle_refl.
Qed.

Lemma Qmin_glb c a b : (c <= a)%Q -> (c <= b)%Q -> (c <= Qmin a b)%Q.
Proof. intros Ha Hb. unfold Qmin. now destruct (Qle_bool a b). Qed.

Lemma Qmax_le_l a b : (a <= Qmax a b)%Q.
Proof.
  unfold Qmax. destruct (Qle_bool a b) eqn:H.
  - now apply Qle_bool_iff.
  - apply Qle_refl.
Qed.

Lemma Qltb_lt a b : Qltb a b = true -> (a < b)%Q.
Proof.
  unfold Qltb. intros H. apply Qnot_le_lt. intros Hle.
  apply Qle_bool_iff in Hle. rewrite Hle in H. discriminate.
Qed.

Lemma ratio_nonneg a b : 0 <= a -> 0 <= b -> (0 <= inject_Z a / inject_Z b)%Q.
Proof.
  intros Ha Hb. unfold Qdiv. apply Qmult_le_0_compat.
  - change 0%Q with (inject_Z 0). now rewrite <- Zle_Qle.
  - apply Qinv_le_0_compat. change 0%Q with (inject_Z 0). now rewrite <- Zle_Qle.
Qed.

Lemma count_matches_nonneg terms text : 0 <= count_matches terms text.
Proof. unfold count_matches. lia. Qed.

(** The weighted sum, the optional average with the score of the API and
    the cap give a score between 0 and 1. *)
Lemma relevance_score_range now result scoring_terms :
  (0 <= _calculate_relevance_score now result scoring_terms <= 1)%Q.
Proof.
  unfold _calculate_relevance_score. split; [|apply Qmin_le_r].
  apply Qmin_glb; [|discriminate].
  set (n := Z.of_nat (length scoring_terms)).
  assert (Hn : 0 <= n) by (unfold n; lia).
  pose proof (ratio_nonneg _ _
    (count_matches_nonneg scoring_terms
       (lower (title result ++ [sp] ++ snippet result))) Hn) as H1.
  pose proof (ratio_nonneg _ _
    (count_matches_nonneg scoring_terms (lower (title result))) Hn) as H2.
  fold n in H1, H2.
  set (t1 := (inject_Z _ / inject_Z n)%Q) in *.
  set (t2 := (inject_Z _ / inject_Z n)%Q) in *.
  set (s2 := match scoring_terms with
             | [] => match scoring_terms with [] => 0%Q | _ => _ end
             | _ => _ end).
  assert (Hs2 : (0 <= s2)%Q).
  { unfold s2. destruct scoring_terms; [apply Qle_refl | lra]. }
  clearbody s2.
  set (s3 := match published_date result with Some _ => _ | None => _ end).
  assert (Hs3 : (0 <= s3)%Q).
  { unfold s3. destruct (published_date result) as [d|]; [|exact Hs2].
    destruct (_ <=? 365); [|exact Hs2].
    pose proof (Qmax_le_l 0 (1 - inject_Z (days_between now d) / 365)). lra. }
  clearbody s3.
  destruct (score result) as [a|]; [|exact Hs3].
  destruct (Qltb 0 a) eqn:Ha; [|exact Hs3].
  apply Qltb_lt in Ha. unfold Qdiv.
  apply Qmult_le_0_compat; [lra | discriminate].
Qed.

Lemma set_score_in_unit now r terms :
  score_in_unit (set_score r (_calculate_relevance_score now r terms)).
Proof. eexists. split; [reflexivity | apply relevance_score_range]. Qed.

Lemma insert_desc_Forall (P : SearchResult -> Prop) x l :
  P x -> Forall P l -> Forall P (insert_desc x l).
Proof.
  intros Hx. induction 1 as [|y l Hy Hl IH]; simpl.
  - now constructor.
  - destruct (Qltb _ _); constructor; auto.
Qed.

Lemma sort_desc_Forall (P : SearchResult -> Prop) l :
  Forall P l -> Forall P (sort_desc l).
Proof.
  induction 1; simpl; [constructor | now apply insert_desc_Forall].
Qed.

Lemma insert_desc_length x l : length (insert_desc x l) = S (length l).
Proof.
  induction l as [|y l IH]; simpl; [reflexivity|].
  destruct (Qltb _ _); simpl; [now rewrite IH | reflexivity].
Qed.

Lemma sort_desc_length l : length (sort_desc l) = length l.
Proof.
  induction l as [|x l IH]; simpl; [reflexivity|].
  now rewrite insert_desc_length, IH.
Qed.

Lemma filter_Forall {A} (P : A -> Prop) f (l : list A) :
  Forall P l -> Forall P (List.filter f l).
Proof.
  induction 1; simpl; [constructor|]. destruct (f x); [constructor|]; auto.
Qed.

Lemma filter_and_rank_in_unit now rs topic keywords :
  Forall score_in_unit (_filter_and_rank_results now rs topic keywords).
Proof.
  unfold _filter_and_rank_results. destruct rs as [|r rs]; [constructor|].
  apply filter_Forall, sort_desc_Forall.
  apply List.Forall_forall. intros x Hx. apply in_map_iff in Hx.
  destruct Hx as [y [<- _]]. apply set_score_in_unit.
Qed.

Lemma slice_to_Forall {A} (P : A -> Prop) n (l : list A) :
  Forall P l -> Forall P (slice_to n l).
Proof.
  intros H. unfold slice_to. destruct (n <? 0); now apply Forall_take.
Qed.

Lemma slice_to_length {A} n (l : list A) :
  0 <= n -> Z.of_nat (length (slice_to n l)) <= n.
Proof.
  intros H. unfold slice_to. replace (n <? 0) with false by lia.
  rewrite length_take. lia.
Qed.

(** C6.  A [ResearchOutput] that the researcher returns for a query whose
    [max_results] is in the range 1..20 of [ResearchQuery] has at most
    [max_results] results, and each of them carries a score between 0 and
    1. *)
Theorem research_output_bounds apis now q out :
  1 <= max_results q <= 20 ->
  process apis now q = Ok out ->
  Z.of_nat (length (results out)) <= max_results q /\
  Forall score_in_unit (results out).
Proof.
  intros Hq. unfold process, bind.
  destruct (search _ _ _ _ _) as [rs|e]; [|discriminate].
  intros [= <-]. simpl. split.
  - apply slice_to_length. lia.
  - apply slice_to_Forall, filter_and_rank_in_unit.
Qed.

(** ** Providers *)

(** The engine recorded in the output is the preferred one, whichever API
    answered. *)
Lemma process_search_engine apis now q out :
  process apis now q = Ok out -> search_engine out = preferred_api.
Proof.
  unfold process, bind. destruct (search _ _ _ _ _); [|discriminate].
  now intros [= <-].
Qed.

(** [search] returns the results of the answering API, and raises exactly
    when no API of the order answers. *)
Lemma try_apis_answering apis order q n depth :
  match answering_api apis order q n depth with
  | Some name =>
      exists api, lookup_api name apis = Some api /\
                  try_apis apis order q n depth = api q n depth /\
                  In name order
  | None => exists e, try_apis apis order q n depth = Raise e
  end.
Proof.
  induction order as [|name rest IH]; simpl.
  - eexists. reflexivity.
  - destruct (lookup_api name apis) as [api|] eqn:Hl.
    + destruct (api q n depth) as [[|r rs]|e] eqn:Ha.
      * destruct (answering_api apis rest q n depth).
        -- destruct IH as (a & ? & ? & ?). exists a. auto.
        -- exact IH.
      * exists api. rewrite Ha. auto.
      * destruct (answering_api apis rest q n depth).
        -- destruct IH as (a & ? & ? & ?). exists a. auto.
        -- exact IH.
    + destruct (answering_api apis rest q n depth).
      * destruct IH as (a & ? & ? & ?). exists a. auto.
      * exact IH.
Qed.

Lemma answering_api_None apis order q n depth :
  answering_api apis order q n depth = None ->
  forall name api,
    In name order -> lookup_api name apis = Some api ->
    (exists e, api q n depth = Raise e) \/ api q n depth = Ok [].
Proof.
  induction order as [|x rest IH]; simpl; [tauto|].
  intros H name api [->|Hin] Hl.
  - rewrite Hl in H. destruct (api q n depth) as [[|r rs]|e]; eauto.
    discriminate.
  - apply (IH) with (name := name); auto.
    destruct (lookup_api x apis) as [a|]; [|exact H].
    destruct (a q n depth) as [[|r rs]|e]; auto. discriminate.
Qed.

Lemma lookup_api_in_order preferred apis name api :
  lookup_api name apis = Some api -> In name (api_order preferred apis).
Proof.
  unfold api_order. intros H.
  destruct (str_eqb name preferred) eqn:Hp.
  - left. symmetry. now apply str_eqb_eq.
  - right. induction apis as [|[n a] rest IH]; simpl in *; [discriminate|].
    destruct (str_eqb n name) eqn:Hn.
    + apply str_eqb_eq in Hn. subst n. rewrite Hp. simpl. now left.
    + destruct (negb (str_eqb n preferred)); simpl; auto.
Qed.

(** [search] raises only when every registered API raised or returned an
    empty list of results. *)
Lemma search_raises_all_fail apis q n preferred depth e :
  search apis q n preferred depth = Raise e ->
  forall name api,
    lookup_api name apis = Some api ->
    (exists e', api q n depth = Raise e') \/ api q n depth = Ok [].
Proof.
  unfold search. intros H name api Hl.
  pose proof (try_apis_answering apis (api_order preferred apis) q n depth)
    as Ha.
  destruct (answering_api _ _ _ _ _) as [w|] eqn:Hw.
  - destruct Ha as (a & Hla & Htry & _). rewrite Htry in H.
    clear - Hw Hla H. exfalso.
    induction (api_order preferred apis) as [|x rest IH]; simpl in Hw;
      [discriminate|].
    destruct (lookup_api x apis) as [b|] eqn:Hb; [|auto].
    destruct (b q n depth) as [[|r rs]|e'] eqn:Hbq; auto.
    injection Hw as <-. rewrite Hb in Hla. injection Hla as <-.
    rewrite Hbq in H. discriminate.
  - eapply answering_api_None; eauto. eapply lookup_api_in_order; eauto.
Qed.

(** ** Ranking *)

(** The order of the ranking: the score of [b] is at most the score of
    [a]. *)
Definition ranked_before (a b : SearchResult) : Prop :=
  (score_or_0 b <= score_or_0 a)%Q.

Lemma Qltb_false a b : Qltb a b = false -> (b <= a)%Q.
Proof.
  unfold Qltb. intros H. apply negb_false_iff in H. now apply Qle_bool_iff.
Qed.

Lemma insert_desc_In x y l : In y (insert_desc x l) -> y = x \/ In y l.
Proof.
  induction l as [|z l IH]; simpl.
  - intros [<-|[]]. now left.
  - destruct (Qltb _ _); simpl.
    + intros [<-|H]; [right; now left|].
      destruct (IH H) as [->|Hin]; [now left | right; now right].
    + intros [<-|H]; [now left | now right].
Qed.

Lemma sort_desc_In y l : In y (sort_desc l) -> In y l.
Proof.
  induction l as [|x l IH]; simpl; [tauto|].
  intros H. apply insert_desc_In in H. destruct H as [->|H]; auto.
Qed.

Lemma insert_desc_sorted x l :
  StronglySorted ranked_before l ->
  StronglySorted ranked_before (insert_desc x l).
Proof.
  induction 1 as [|y l Hl IH Hy]; simpl.
  - repeat constructor.
  - destruct (Qltb (score_or_0 x) (score_or_0 y)) eqn:Hxy.
    + constructor; [exact IH|].
      apply List.Forall_forall. intros z Hz.
      apply insert_desc_In in Hz. destruct Hz as [->|Hz].
      * unfold ranked_before. apply Qltb_lt in Hxy. now apply Qlt_le_weak.
      * rewrite List.Forall_forall in Hy. now apply Hy.
    + apply Qltb_false in Hxy. constructor; [now constructor|].
      constructor; [exact Hxy|].
      eapply Forall_impl; [exact Hy|].
      intros z Hz. unfold ranked_before in *.
      eapply Qle_trans; [exact Hz | exact Hxy].
Qed.

Lemma sort_desc_sorted l : StronglySorted ranked_before (sort_desc l).
Proof.
  induction l as [|x l IH]; simpl; [constructor | now apply insert_desc_sorted].
Qed.

Lemma filter_sorted (R : SearchResult -> SearchResult -> Prop) f l :
  StronglySorted R l -> StronglySorted R (List.filter f l).
Proof.
  induction 1 as [|x l Hl IH Hx]; simpl; [constructor|].
  destruct (f x); [|exact IH].
  constructor; [exact IH | now apply filter_Forall].
Qed.

Lemma filter_and_rank_length now rs topic keywords :
  (length (_filter_and_rank_results now rs topic keywords) <= length rs)%nat.
Proof.
  unfold _filter_and_rank_results. destruct rs as [|r rs]; [simpl; lia|].
  cbv zeta. etransitivity; [apply List.filter_length_le|].
  now rewrite sort_desc_length, length_map.
Qed.

(** [_filter_and_rank_results] returns the results in the order of
    decreasing score, keeps only scores of at least 0.1, and returns no
    more results than it was given. *)
Theorem ranking_sorted_and_thresholded now rs topic keywords :
  let ranked := _filter_and_rank_results now rs topic keywords in
  StronglySorted ranked_before ranked /\
  Forall (fun r => (1 # 10 <= score_or_0 r)%Q) ranked /\
  (length ranked <= length rs)%nat.
Proof.
  intros ranked. split; [|split; [|apply filter_and_rank_length]];
    subst ranked; unfold _filter_and_rank_results; destruct rs as [|r rs];
    try constructor.
  - apply filter_sorted, sort_desc_sorted.
  - apply List.Forall_forall. intros x Hx.
    apply List.filter_In in Hx. destruct Hx as [_ Hx].
    now apply Qle_bool_iff.
Qed.

(** The results of equal score. *)
Definition same_score (q : Q) (r : SearchResult) : bool :=
  Qeq_bool (score_or_0 r) q.

Lemma insert_desc_same_score q x l :
  List.filter (same_score q) (insert_desc x l)
    = List.filter (same_score q) (x :: l).
Proof.
  induction l as [|y l IH]; [reflexivity|].
  cbn [insert_desc].
  destruct (Qltb (score_or_0 x) (score_or_0 y)) eqn:Hxy; [|reflexivity].
  cbn [List.filter] in *. rewrite IH.
  destruct (same_score q x) eqn:Hx; [|reflexivity].
  destruct (same_score q y) eqn:Hy; [|reflexivity].
  exfalso. unfold same_score in *.
  apply Qeq_bool_iff in Hx, Hy. apply Qltb_lt in Hxy.
  rewrite Hx, Hy in Hxy. now apply Qlt_irrefl in Hxy.
Qed.

Lemma sort_desc_same_score q l :
  List.filter (same_score q) (sort_desc l) = List.filter (same_score q) l.
Proof.
  induction l as [|x l IH]; [reflexivity|].
  cbn [sort_desc fold_right]. fold (sort_desc l).
  rewrite insert_desc_same_score. cbn [List.filter]. now rewrite IH.
Qed.

Lemma filter_comm {A} (f g : A -> bool) l :
  List.filter f (List.filter g l) = List.filter g (List.filter f l).
Proof.
  induction l as [|x l IH]; [reflexivity|]. simpl.
  destruct (f x) eqn:Hf, (g x) eqn:Hg; simpl; rewrite ?Hf, ?Hg, IH;
    reflexivity.
Qed.

(** The sort is stable: the ranked results that share a score come in the
    order in which the provider returned them. *)
Theorem ranking_stable now rs topic keywords q :
  List.filter (same_score q) (_filter_and_rank_results now rs topic keywords)
  = List.filter (same_score q)
      (List.filter (fun r => Qle_bool (1 # 10) (score_or_0 r))
         (map (fun r =>
                 set_score r
                   (_calculate_relevance_score now r
                      (lower topic :: map lower keywords)))
            rs)).
Proof.
  unfold _filter_and_rank_results. destruct rs as [|r rs]; [reflexivity|].
  cbv zeta. rewrite filter_comm, sort_desc_same_score.
  apply filter_comm.
Qed.

(** The sources of an output are sources that the answering API returned:
    title, URL, snippet and date are untouched, only the score is set; and
    [total_found] counts what the API returned. *)
Theorem process_results_provenance apis now q out :
  process apis now q = Ok out ->
  exists rs,
    search apis (_prepare_search_query q) (max_results q) preferred_api
      (search_depth q) = Ok rs /\
    query out = q /\
    total_found out = Z.of_nat (length rs) /\
    (length (results out) <= length rs)%nat /\
    Forall (fun r =>
              exists r0, In r0 rs /\
                title r = title r0 /\ url r = url r0 /\
                snippet r = snippet r0 /\
                published_date r = published_date r0)
      (results out).
Proof.
  unfold process, bind.
  destruct (search _ _ _ _ _) as [rs|e]; [|discriminate].
  intros [= <-]. exists rs. cbn [query total_found results].
  split; [reflexivity|]. split; [reflexivity|]. split; [reflexivity|].
  pose proof (filter_and_rank_length now rs (topic q) (keywords q))
    as Hlen.
  split.
  - unfold slice_to. destruct (_ <? 0); rewrite length_take; lia.
  - apply slice_to_Forall. apply List.Forall_forall. intros r Hr.
    unfold _filter_and_rank_results in Hr. destruct rs as [|r1 rs]; [easy|].
    apply List.filter_In in Hr. destruct Hr as [Hr _].
    apply sort_desc_In in Hr. apply in_map_iff in Hr.
    destruct Hr as (r0 & <- & Hr0). exists r0. simpl. auto.
Qed.

End WithLower.

(** ** What [SearchAPIManager.search] returns *)

Lemma answering_api_Some apis order q n depth name :
  answering_api apis order q n depth = Some name ->
  exists api r rs,
    lookup_api name apis = Some api /\
    api q n depth = Ok (r :: rs) /\
    try_apis apis order q n depth = Ok (r :: rs).
Proof.
  induction order as [|x rest IH]; simpl; [discriminate|].
  destruct (lookup_api x apis) as [a|] eqn:Hl; [|exact IH].
  destruct (a q n depth) as [[|r rs]|e] eqn:Ha; try exact IH.
  intros [= <-]. exists a, r, rs. auto.
Qed.

Lemma answering_api_all_fail apis order q n depth :
  (forall name api,
     lookup_api name apis = Some api ->
     (exists e, api q n depth = Raise e) \/ api q n depth = Ok []) ->
  answering_api apis order q n depth = None.
Proof.
  intros Hall. induction order as [|x rest IH]; simpl; [reflexivity|].
  destruct (lookup_api x apis) as [a|] eqn:Hl; [|exact IH].
  destruct (Hall x a Hl) as [[e He]|He]; rewrite He; exact IH.
Qed.

Lemma try_apis_raise apis order q n depth e :
  try_apis apis order q n depth = Raise e ->
  e = SearchAPIError
        ([201%N] ++ str "chec de recherche avec toutes les APIs pour: " ++ q).
Proof.
  induction order as [|x rest IH]; simpl; [now intros [= <-]|].
  destruct (lookup_api x apis) as [a|]; [|exact IH].
  destruct (a q n depth) as [[|r rs]|e']; try exact IH. discriminate.
Qed.

(** A search that returns gives a list that is not empty and that is the
    answer of a registered API, the preferred one whenever that one
    answers with results. *)
Theorem search_returns_an_answer apis q n preferred depth rs :
  search apis q n preferred depth = Ok rs ->
  rs <> [] /\
  (exists name api,
     lookup_api name apis = Some api /\ api q n depth = Ok rs) /\
  (forall api r rs',
     lookup_api preferred apis = Some api ->
     api q n depth = Ok (r :: rs') -> rs = r :: rs').
Proof.
  unfold search. intros H.
  pose proof (try_apis_answering apis (api_order preferred apis) q n depth)
    as Ha.
  destruct (answering_api _ _ _ _ _) as [w|] eqn:Hw.
  - destruct (answering_api_Some _ _ _ _ _ _ Hw) as (a & r & rs0 & Hl & Hq & Ht).
    rewrite Ht in H. injection H as <-.
    split; [discriminate|]. split; [now exists w, a|].
    intros api r' rs' Hp Hpq. unfold api_order in Ht. simpl in Ht.
    rewrite Hp, Hpq in Ht. now injection Ht as <- <-.
  - destruct Ha as [e He]. rewrite He in H. discriminate.
Qed.

(** The search raises exactly when every registered API raised or returned
    no result, and the exception is then the [SearchAPIError] that names
    the query. *)
Theorem search_raises_iff apis q n preferred depth :
  (forall name api,
     lookup_api name apis = Some api ->
     (exists e, api q n depth = Raise e) \/ api q n depth = Ok []) <->
  search apis q n preferred depth
    = Raise (SearchAPIError
               ([201%N] ++
                str "chec de recherche avec toutes les APIs pour: " ++ q)).
Proof.
  split.
  - intros Hall. unfold search.
    pose proof (try_apis_answering apis (api_order preferred apis) q n depth)
      as Ha.
    rewrite (answering_api_all_fail _ _ _ _ _ Hall) in Ha.
    destruct Ha as [e He]. rewrite He. f_equal.
    now apply try_apis_raise in He.
  - intros H name api Hl. eapply search_raises_all_fail; eauto.
Qed.

(** ** A run with fail-over *)

Definition sample_query : ResearchQuery :=
  mkQuery (str "solar energy") [str "panels"] 5 (str "basic").

Definition sample_results : list SearchResult :=
  [ mkResult (str "Solar energy today") (str "https://a.example/1")
      (str "panels and more") None (Some (1 # 100));
    mkResult (str "Why solar energy matters") (str "https://b.example/2")
      (str "a study of panels") None (Some (2 # 100));
    mkResult (str "The price of solar energy") (str "https://c.example/3")
      (str "markets") None (Some (3 # 100)) ].

(** The preferred API raises, the second one returns three results. *)
Definition failover_registry : registry :=
  [ (str "tavily",
     fun _ _ _ => Raise (SearchAPIError (str "Erreur Tavily 500")));
    (str "serper", fun _ _ _ => Ok sample_results) ].

Definition sample_now : Z := 1700000000 * 1000000.

(** C6, at the fail-over run. *)
Lemma research_output_bounds_witness :
  exists out,
    process ascii_lower failover_registry sample_now sample_query = Ok out /\
    Z.of_nat (length (results out)) <= 5 /\
    Forall score_in_unit (results out).
Proof.
  eexists. split; [reflexivity|].
  apply (research_output_bounds ascii_lower failover_registry sample_now
           sample_query).
  - simpl. lia.
  - reflexivity.
Defined.

(** C2.  In the fail-over run the results are those of ["serper"], the
    output holds the three of them, and the engine it records is the
    preferred API ["tavily"], not the API that answered. *)
Theorem failover_records_preferred_engine :
  answering_api failover_registry (api_order preferred_api failover_registry)
    (_prepare_search_query ascii_lower sample_query) 5 (str "basic")
    = Some (str "serper") /\
  exists out,
    process ascii_lower failover_registry sample_now sample_query = Ok out /\
    length (results out) = 3%nat /\
    search_engine out = str "tavily" /\
    search_engine out <> str "serper".
Proof.
  split; [reflexivity|].
  eexists. split; [reflexivity|].
  split; [reflexivity|]. split; [reflexivity | discriminate].
Qed.

(** ** Keyword extraction *)

(** [s.strip(chars)] for the set of characters [p]. *)
Fixpoint lstrip_by (p : char -> bool) (s : pystr) : pystr :=
  match s with
  | c :: s' => if p c then lstrip_by p s' else s
  | [] => []
  end.

Fixpoint rstrip_by (p : char -> bool) (s : pystr) : pystr :=
  match s with
  | [] => []
  | c :: s' =>
      match rstrip_by p s' with
      | [] => if p c then [] else [c]
      | r => c :: r
      end
  end.

Definition strip_by (p : char -> bool) (s : pystr) : pystr :=
  lstrip_by p (rstrip_by p s).

(** The characters of ["0123456789.-\t\n "]. *)
Definition is_numbering_char (c : char) : bool :=
  (((48 <=? c) && (c <=? 57)) || (c =? 46) || (c =? 45) || (c =? 9) ||
   (c =? 10) || (c =? 32))%N.

(** The prefixes that [_parse_keywords_response] removes. *)
Definition keyword_prefixes : list pystr :=
  [ str "mots-cl" ++ [233%N] ++ str "s:"; str "keywords:";
    str "r" ++ [233%N] ++ str "ponse:"; str "voici:"; str "liste:" ].

(** The words that [_parse_keywords_response] rejects, and the stop words
    of [_extract_keywords_fallback]. *)
Definition parse_stop_words : list pystr :=
  [ str "et"; str "ou"; str "le"; str "la"; str "les"; str "de"; str "du";
    str "des" ].

Definition stop_words : list pystr :=
  [ str "le"; str "la"; str "les"; str "de"; str "du"; str "des"; str "et";
    str "ou"; str "sur"; str "dans"; str "avec"; str "pour"; str "par";
    str "en"; [224%N]; str "un"; str "une"; str "ce"; str "cette";
    str "ces" ].

Definition member (w : pystr) (l : list pystr) : bool :=
  existsb (str_eqb w) l.

Section WithLowerKeywords.

Variable lower : pystr -> pystr.

(** One pass of the loop over the prefixes. *)
Definition remove_prefix (response prefix : pystr) : pystr :=
  if startswith prefix (lower response)
  then strip (slice_from (len prefix) response)
  else response.

Definition acceptable_keyword (kw : pystr) : bool :=
  (2 <=? len kw) && negb (member (lower kw) parse_stop_words).

(** [_parse_keywords_response] *)
Definition _parse_keywords_response (response : pystr) : list pystr :=
  let response := strip response in
  let response := fold_left remove_prefix keyword_prefixes response in
  let keywords := map strip (split_char 44%N response) in
  let cleaned_keywords :=
    List.filter acceptable_keyword
      (map (strip_by is_numbering_char) keywords) in
  slice_to 7 cleaned_keywords.

Definition significant_word (word : pystr) : bool :=
  (3 <=? len word) && negb (member word stop_words).

(** [_extract_keywords_fallback] *)
Definition _extract_keywords_fallback (topic : pystr) : list pystr :=
  let words := split_ws (lower topic) in
  slice_to 5 (List.filter significant_word words).

(** [extract_keywords_with_llm]; [response] is what the call of the
    language model gave, a text or an exception.  Both [except] clauses
    fall back on the topic. *)
Definition extract_keywords_with_llm (response : outcome pystr)
    (topic : pystr) : list pystr :=
  match response with
  | Ok r => _parse_keywords_response r
  | Raise _ => _extract_keywords_fallback topic
  end.

Lemma take_filter_Forall {A} (f : A -> bool) n (l : list A) :
  Forall (fun x => f x = true) (take n (List.filter f l)).
Proof.
  apply Forall_take, List.Forall_forall. intros x Hx.
  now apply List.filter_In in Hx.
Qed.

(** The keywords given to the search are at most 7, each of at least two
    characters; when the language model fails they are at most 5 words of
    the lowercased topic, each of at least three characters and none of
    them a stop word. *)
Theorem extracted_keywords_bounded (response : outcome pystr) (topic : pystr) :
  let kws := extract_keywords_with_llm response topic in
  (length kws <= 7)%nat /\
  Forall (fun kw => 2 <= len kw) kws /\
  (forall e, response = Raise e ->
     (length kws <= 5)%nat /\
     Forall (fun kw => 3 <= len kw /\ member kw stop_words = false /\
                       In kw (split_ws (lower topic))) kws).
Proof.
  unfold extract_keywords_with_llm. destruct response as [r|e]; cbv zeta.
  - split; [|split; [|discriminate]].
    + unfold _parse_keywords_response, slice_to. simpl.
      rewrite length_take. lia.
    + unfold _parse_keywords_response, slice_to. simpl.
      eapply Forall_impl; [apply take_filter_Forall|].
      intros kw Hk. unfold acceptable_keyword in Hk.
      apply andb_true_iff in Hk. lia.
  - assert (H5 : (length (_extract_keywords_fallback topic) <= 5)%nat).
    { unfold _extract_keywords_fallback, slice_to. simpl.
      rewrite length_take. lia. }
    assert (Hall : Forall (fun kw => 3 <= len kw /\
                             member kw stop_words = false /\
                             In kw (split_ws (lower topic)))
                     (_extract_keywords_fallback topic)).
    { unfold _extract_keywords_fallback, slice_to. simpl.
      apply Forall_take, List.Forall_forall. intros kw Hk.
      apply List.filter_In in Hk. destruct Hk as [Hin Hk].
      unfold significant_word in Hk. apply andb_true_iff in Hk.
      destruct Hk as [H3 Hs]. apply negb_true_iff in Hs.
      split; [lia | split; assumption]. }
    split; [lia|]. split.
    + eapply Forall_impl; [exact Hall|]. intros kw (H3 & _). lia.
    + intros e' _. split; assumption.
Qed.

End WithLowerKeywords.

(** In the fail-over run the search returns the answer of ["serper"]. *)
Lemma search_returns_an_answer_witness :
  search failover_registry (str "solar energy panels") 5 preferred_api
    (str "basic") = Ok sample_results /\
  sample_results <> [].
Proof.
  assert (H : search failover_registry (str "solar energy panels") 5
                preferred_api (str "basic") = Ok sample_results)
    by reflexivity.
  split; [exact H|].
  exact (proj1 (search_returns_an_answer failover_registry _ 5 preferred_api
                  _ sample_results H)).
Defined.

Lemma process_results_provenance_witness :
  exists out,
    process ascii_lower failover_registry sample_now sample_query = Ok out /\
    total_found out = 3 /\ query out = sample_query.
Proof.
  eexists. split; [reflexivity|].
  destruct (process_results_provenance ascii_lower failover_registry
              sample_now sample_query _ eq_refl)
    as (rs & Hs & Hq & Ht & _).
  split; [|exact Hq].
  rewrite Ht. injection Hs as <-. reflexivity.
Defined.

End Researcher.

(* ===================================================================== *)
(** * The global synthesizer: [src/agents/global_synthesizer_agent.py]    *)
(* ===================================================================== *)

Module Synthesizer.
Import Py.

(** The fields of [DocumentSummary] that the quality assessment and the
    storage in memory read. *)
Record DocumentSummary := mkSummary {
  title : pystr;
  url : pystr;
  detailed_summary : pystr;
  credibility_score : option Q
}.

(** [ReportSection] *)
Record ReportSection := mkSection {
  section_title : pystr;
  section_content : pystr
}.

(** The dictionary returned by [_assess_quality]. *)
Record QualityScores := mkScores {
  confidence_score : Q;
  completeness_score : Q;
  reliability_score : Q;
  coherence_score : Q
}.

(** The quality fields of [FinalReport], as [_assemble_final_report] fills
    them. *)
Record FinalReportScores := mkReportScores {
  report_confidence_score : Q;
  report_completeness_score : Q;
  total_sources_analyzed : Z
}.

Definition Qsum (l : list Q) : Q := fold_right Qplus 0%Q l.

Definition Qlen {A} (l : list A) : Q := inject_Z (Z.of_nat (length l)).

(** [[s.credibility_score for s in summaries if s.credibility_score]]: the
    scores that are present and not zero. *)
Definition credibility_scores (summaries : list DocumentSummary) : list Q :=
  omap (fun s => match credibility_score s with
                 | Some c => if Qeq_bool c 0 then None else Some c
                 | None => None
                 end) summaries.

(** [_assess_quality] *)
Definition _assess_quality (summaries : list DocumentSummary)
    (sections : list ReportSection) : QualityScores :=
  let scores := credibility_scores summaries in
  let completeness := Qmin (Qlen summaries / 5) 1 in
  let reliability :=
    match scores with
    | [] => (5 # 10)%Q
    | _ => (Qsum scores / Qlen scores)%Q
    end in
  let coherence := Qmin (Qlen sections / 3) 1 in
  let confidence :=
    (completeness * (4 # 10) + reliability * (4 # 10) +
     coherence * (2 # 10))%Q in
  mkScores confidence completeness reliability coherence.

(** The quality fields in [_assemble_final_report]; [sources] is the list
    of source references, one per summary. *)
Definition _assemble_final_report (n_sources : nat) (quality : QualityScores)
  : FinalReportScores :=
  mkReportScores (confidence_score quality) (completeness_score quality)
    (Z.of_nat n_sources).

(** The quality fields of the [FinalReport] that [process] builds. *)
Definition final_report_scores (summaries : list DocumentSummary)
    (sections : list ReportSection) : FinalReportScores :=
  _assemble_final_report (length summaries)
    (_assess_quality summaries sections).

(** The constraint [ge=0, le=1] of [DocumentSummary.credibility_score]. *)
Definition valid_summary (s : DocumentSummary) : Prop :=
  match credibility_score s with
  | Some c => (0 <= c <= 1)%Q
  | None => True
  end.

Lemma Qmin_range a : (0 <= a)%Q -> (0 <= Qmin a 1 <= 1)%Q.
Proof.
  intros Ha. unfold Qmin. destruct (Qle_bool a 1) eqn:H.
  - apply Qle_bool_iff in H. split; assumption.
  - split; [discriminate | apply Qle_refl].
Qed.

Lemma Qlen_nonneg {A} (l : list A) : (0 <= Qlen l)%Q.
Proof.
  unfold Qlen. change 0%Q with (inject_Z 0). rewrite <- Zle_Qle. lia.
Qed.

Lemma Qlen_cons {A} (x : A) l : (Qlen (x :: l) == 1 + Qlen l)%Q.
Proof.
  unfold Qlen. simpl length. rewrite Nat2Z.inj_succ, <- Z.add_1_l.
  now rewrite inject_Z_plus.
Qed.

Lemma Qlen_pos {A} (x : A) l : (0 < Qlen (x :: l))%Q.
Proof. rewrite Qlen_cons. pose proof (Qlen_nonneg l). lra. Qed.

Lemma len_ratio_nonneg {A} (l : list A) (d : Q) :
  (0 < d)%Q -> (0 <= Qlen l / d)%Q.
Proof.
  intros Hd. apply Qle_shift_div_l; [exact Hd|].
  pose proof (Qlen_nonneg l). lra.
Qed.

Lemma credibility_scores_range summaries :
  Forall valid_summary summaries ->
  Forall (fun c => (0 <= c <= 1)%Q) (credibility_scores summaries).
Proof.
  unfold credibility_scores.
  induction 1 as [|s l Hs _ IH]; simpl; [constructor|].
  unfold valid_summary in Hs.
  destruct (credibility_score s) as [c|]; simpl; [|exact IH].
  destruct (Qeq_bool c 0); simpl; [exact IH | now constructor].
Qed.

Lemma Qsum_range l :
  Forall (fun c => (0 <= c <= 1)%Q) l -> (0 <= Qsum l <= Qlen l)%Q.
Proof.
  induction 1 as [|c l Hc _ IH].
  - split; [apply Qle_refl | apply Qlen_nonneg].
  - rewrite Qlen_cons. simpl. lra.
Qed.

Lemma mean_range l :
  l <> [] ->
  Forall (fun c => (0 <= c <= 1)%Q) l -> (0 <= Qsum l / Qlen l <= 1)%Q.
Proof.
  intros Hne H. pose proof (Qsum_range l H) as [H0 H1].
  destruct l as [|c l]; [congruence|].
  pose proof (Qlen_pos c l) as Hpos. split.
  - apply Qle_shift_div_l; [exact Hpos | lra].
  - apply Qle_shift_div_r; [exact Hpos | lra].
Qed.

Lemma reliability_range summaries sections :
  Forall valid_summary summaries ->
  (0 <= reliability_score (_assess_quality summaries sections) <= 1)%Q.
Proof.
  intros H. simpl. apply credibility_scores_range in H.
  destruct (credibility_scores summaries) as [|c l] eqn:Hs.
  - lra.
  - apply mean_range; [discriminate | exact H].
Qed.

(** C7.  For summaries whose credibility scores, when present, are in
    [0,1], the confidence score of the final report is
    0.4*completeness + 0.4*reliability + 0.2*coherence, where completeness
    is min(sources/5, 1) and coherence is min(sections/3, 1), and it lies
    between 0 and 1. *)
Theorem confidence_score_law summaries sections :
  Forall valid_summary summaries ->
  let quality := _assess_quality summaries sections in
  let report := final_report_scores summaries sections in
  (report_confidence_score report ==
     (4 # 10) * completeness_score quality +
     (4 # 10) * reliability_score quality +
     (2 # 10) * coherence_score quality)%Q /\
  (completeness_score quality == Qmin (Qlen summaries / 5) 1)%Q /\
  (coherence_score quality == Qmin (Qlen sections / 3) 1)%Q /\
  (report_completeness_score report == completeness_score quality)%Q /\
  (0 <= report_confidence_score report <= 1)%Q.
Proof.
  intros Hv quality report.
  pose proof (reliability_range summaries sections Hv) as Hr.
  pose proof (Qmin_range (Qlen summaries / 5)
                (len_ratio_nonneg summaries 5 ltac:(reflexivity))) as Hc.
  pose proof (Qmin_range (Qlen sections / 3)
                (len_ratio_nonneg sections 3 ltac:(reflexivity))) as Hh.
  subst quality report. unfold final_report_scores, _assemble_final_report.
  cbn [report_confidence_score report_completeness_score confidence_score
       completeness_score coherence_score reliability_score
       _assess_quality] in *.
  set (r := match credibility_scores summaries with [] => _ | _ => _ end) in *.
  set (c := Qmin (Qlen summaries / 5) 1) in *.
  set (h := Qmin (Qlen sections / 3) 1) in *.
  clearbody r c h.
  split; [lra|]. split; [reflexivity|]. split; [reflexivity|].
  split; [reflexivity|]. split; lra.
Qed.

Definition sample_summaries : list DocumentSummary :=
  [ mkSummary (str "A") (str "https://a.example/1") (str "first") (Some (8 # 10));
    mkSummary (str "B") (str "https://b.example/2") (str "second") None ].

Definition sample_sections : list ReportSection :=
  [ mkSection (str "Analyse") (str "text");
    mkSection (str "Themes") (str "text") ].

(** C7 at two sources and two sections: the confidence is
    0.4*0.4 + 0.4*0.8 + 0.2*(2/3). *)
Lemma confidence_score_law_witness :
  Forall valid_summary sample_summaries /\
  (report_confidence_score (final_report_scores sample_summaries sample_sections)
     == 92 # 150)%Q.
Proof.
  assert (Hv : Forall valid_summary sample_summaries).
  { repeat constructor; simpl; lra. }
  split; [exact Hv|].
  destruct (confidence_score_law sample_summaries sample_sections Hv)
    as (Heq & _).
  rewrite Heq. reflexivity.
Defined.

(** ** A credibility of zero *)

(** A summary whose credibility score is 0 read as a summary without
    score. *)
Definition without_zero_score (s : DocumentSummary) : DocumentSummary :=
  mkSummary (title s) (url s) (detailed_summary s)
    (match credibility_score s with
     | Some c => if Qeq_bool c 0 then None else Some c
     | None => None
     end).

Lemma credibility_scores_without_zero summaries :
  credibility_scores (map without_zero_score summaries)
    = credibility_scores summaries.
Proof.
  unfold credibility_scores.
  induction summaries as [|s l IH]; [reflexivity|].
  unfold omap in *. simpl. rewrite IH.
  destruct (credibility_score s) as [c|]; [|reflexivity].
  destruct (Qeq_bool c 0) eqn:Hc; [reflexivity|]. simpl. now rewrite Hc.
Qed.

Lemma credibility_scores_all_zero summaries :
  Forall (fun s => match credibility_score s with
                   | Some c => (c == 0)%Q
                   | None => True
                   end) summaries ->
  credibility_scores summaries = [].
Proof.
  unfold credibility_scores.
  induction 1 as [|s l Hs _ IH]; [reflexivity|].
  unfold omap in *. simpl. rewrite IH.
  destruct (credibility_score s) as [c|]; [|reflexivity].
  apply Qeq_bool_iff in Hs. now rewrite Hs.
Qed.

(** The quality assessment tests the truth value of the credibility
    score, so that a source of credibility 0 weighs like a source without
    score: it does not lower the reliability, and when no source has a
    score other than 0 the reliability is 0.5. *)
Theorem zero_credibility_is_ignored summaries sections :
  _assess_quality (map without_zero_score summaries) sections
    = _assess_quality summaries sections /\
  (Forall (fun s => match credibility_score s with
                    | Some c => (c == 0)%Q
                    | None => True
                    end) summaries ->
   reliability_score (_assess_quality summaries sections) = (5 # 10)%Q).
Proof.
  split.
  - unfold _assess_quality.
    rewrite credibility_scores_without_zero. unfold Qlen.
    now rewrite length_map.
  - intros H. simpl. now rewrite (credibility_scores_all_zero _ H).
Qed.

(** ** The sections of the report *)

(** A [ReportSection] with its display order. *)
Record OrderedSection := mkOrdered {
  ordered_title : pystr;
  ordered_content : pystr;
  ordered_order : Z
}.

Definition to_report_section (o : OrderedSection) : ReportSection :=
  mkSection (ordered_title o) (ordered_content o).

(** [list.sort(key=lambda x: x.order)]: a stable sort by increasing
    order. *)
Fixpoint insert_by_order (x : OrderedSection) (l : list OrderedSection)
  : list OrderedSection :=
  match l with
  | [] => [x]
  | y :: l' =>
      if ordered_order y <? ordered_order x
      then y :: insert_by_order x l'
      else x :: l
  end.

Definition sort_by_order (l : list OrderedSection) : list OrderedSection :=
  fold_right insert_by_order [] l.

(** [_get_llm_response]: the text of the model, or the text of the error
    when the call raised. *)
Definition _get_llm_response (response : outcome pystr) : pystr :=
  match response with
  | Ok r => r
  | Raise e => str "Erreur: " ++ exn_message e
  end.

Definition thematic_section (c : pystr) : OrderedSection :=
  mkOrdered (str "Analyse Th" ++ [233%N] ++ str "matique D" ++ [233%N]
               ++ str "taill" ++ [233%N] ++ str "e") c 2.

Section WithSectionPattern.

(** [re.findall(r'##\s+(.+?)\n(.*?)(?=##|\Z)', content, re.DOTALL)]: the
    pairs of title and text that the pattern finds. *)
Variable findall_sections : pystr -> list (pystr * pystr).

(** The loop over [enumerate(matches)], from index [i]. *)
Fixpoint number_sections (i : Z) (matches : list (pystr * pystr))
  : list OrderedSection :=
  match matches with
  | [] => []
  | (t, c) :: rest =>
      mkOrdered (strip t) (strip c) (i + 1) :: number_sections (i + 1) rest
  end.

(** [_parse_main_synthesis] *)
Definition _parse_main_synthesis (c : pystr) : list OrderedSection :=
  match number_sections 0 (findall_sections c) with
  | [] =>
      [mkOrdered (str "Analyse G" ++ [233%N] ++ str "n" ++ [233%N]
                    ++ str "rale") c 1]
  | sections => sections
  end.

(** [_generate_report_sections]; the two arguments are what the two calls
    of the language model gave. *)
Definition _generate_report_sections (main_synthesis : outcome pystr)
    (thematic_analysis : outcome pystr) : list OrderedSection :=
  sort_by_order
    (_parse_main_synthesis (_get_llm_response main_synthesis) ++
     [thematic_section (_get_llm_response thematic_analysis)]).

Lemma insert_before_numbered x b ms :
  ordered_order x <= b + 1 ->
  insert_by_order x (number_sections b ms) = x :: number_sections b ms.
Proof.
  intros Hx. destruct ms as [|[t c] r]; [reflexivity|]. simpl.
  replace (b + 1 <? ordered_order x) with false by lia. reflexivity.
Qed.

Lemma sort_numbered_with_thematic b ms T :
  0 <= b -> ordered_order T = 2 ->
  sort_by_order (number_sections b ms ++ [T])
    = take (Z.to_nat (2 - b)) (number_sections b ms) ++ [T] ++
      drop (Z.to_nat (2 - b)) (number_sections b ms).
Proof.
  intros Hb HT. revert b Hb. induction ms as [|[t c] r IH]; intros b Hb.
  - simpl. now rewrite take_nil, drop_nil.
  - cbn [number_sections app sort_by_order fold_right].
    fold (sort_by_order (number_sections (b + 1) r ++ [T])).
    rewrite (IH (b + 1)) by lia.
    set (m := mkOrdered (strip t) (strip c) (b + 1)).
    destruct (Z.eq_dec b 0) as [->|Hb0].
    + change (Z.to_nat (2 - (0 + 1))) with 1%nat.
      change (Z.to_nat (2 - 0)) with 2%nat.
      destruct r as [|[t1 c1] r1]; simpl.
      * rewrite HT. reflexivity.
      * rewrite ?take_0, ?drop_0. reflexivity.
    + destruct (Z.eq_dec b 1) as [->|Hb1].
      * change (Z.to_nat (2 - (1 + 1))) with 0%nat.
        change (Z.to_nat (2 - 1)) with 1%nat.
        rewrite ?take_0, ?drop_0. simpl. rewrite HT. simpl.
        now rewrite ?take_0, ?drop_0.
      * replace (Z.to_nat (2 - (b + 1))) with 0%nat by lia.
        replace (Z.to_nat (2 - b)) with 0%nat by lia.
        rewrite ?take_0, ?drop_0. simpl.
        replace (ordered_order T <? b + 1) with true by lia.
        f_equal. rewrite ?take_0, ?drop_0.
        apply (insert_before_numbered m (b + 1) r). simpl. lia.
Qed.

(** The report always has at least two sections, whatever the language
    model answered (an error of a call becomes the text of a section):
    those of the main synthesis, with the thematic analysis put in third
    place, or second when the synthesis has a single section.  The
    coherence score computed from them is therefore at least 2/3. *)
Theorem report_sections_shape main_synthesis thematic_analysis summaries :
  let main := _parse_main_synthesis (_get_llm_response main_synthesis) in
  let sections := _generate_report_sections main_synthesis thematic_analysis in
  sections = take 2 main ++
             [thematic_section (_get_llm_response thematic_analysis)] ++
             drop 2 main /\
  (2 <= length sections)%nat /\
  (2 # 3 <= coherence_score
              (_assess_quality summaries (map to_report_section sections)))%Q.
Proof.
  intros main sections.
  assert (Hmain : main <> [] /\
            sections = take 2 main ++
              [thematic_section (_get_llm_response thematic_analysis)] ++
              drop 2 main).
  { subst sections main. unfold _generate_report_sections,
      _parse_main_synthesis.
    destruct (number_sections 0 (findall_sections _)) as [|o l] eqn:Hn.
    - split; [discriminate | reflexivity].
    - split; [discriminate|]. rewrite <- Hn.
      now rewrite sort_numbered_with_thematic. }
  destruct Hmain as [Hne Heq]. split; [exact Heq|].
  assert (Hlen : (2 <= length sections)%nat).
  { rewrite Heq, !length_app, length_take, length_drop. simpl.
    destruct main; [congruence | simpl; lia]. }
  split; [exact Hlen|].
  simpl. unfold Qmin, Qlen. rewrite length_map.
  assert (H23 : (2 # 3 <= inject_Z (Z.of_nat (length sections)) / 3)%Q).
  { apply Qle_shift_div_l; [reflexivity|].
    assert (H2 : (inject_Z 2 <= inject_Z (Z.of_nat (length sections)))%Q)
      by (rewrite <- Zle_Qle; lia).
    eapply Qle_trans; [|exact H2]. discriminate. }
  destruct (Qle_bool _ 1); [exact H23 | discriminate].
Qed.

End WithSectionPattern.

(** ** The executive summary *)

(** [ExecutiveSummary] *)
Record ExecutiveSummary := mkExecutive {
  key_findings : list pystr;
  main_insights : list pystr;
  recommendations : list pystr;
  summary_text : pystr
}.

(** The values of [current_section]. *)
Inductive SummaryPart := Findings | Insights | Recommendations.

(** The variables of the loop of [_parse_executive_summary]. *)
Record ParseState := mkParse {
  current_section : option SummaryPart;
  found_findings : list pystr;
  found_insights : list pystr;
  found_recommendations : list pystr
}.

Definition bullet : char := 8226%N.

Section WithLowerSummary.

(** [str.lower] *)
Variable lower : pystr -> pystr.

(** The body of the loop over the lines. *)
Definition parse_line (st : ParseState) (raw_line : pystr) : ParseState :=
  let line := strip raw_line in
  if contains (str "conclusion") (lower line)
     || contains (str "finding") (lower line)
  then mkParse (Some Findings) (found_findings st) (found_insights st)
         (found_recommendations st)
  else if contains (str "insight") (lower line)
          || contains (str "d" ++ [233%N] ++ str "couverte") (lower line)
  then mkParse (Some Insights) (found_findings st) (found_insights st)
         (found_recommendations st)
  else if contains (str "recommandation") (lower line)
          || contains (str "recommendation") (lower line)
  then mkParse (Some Recommendations) (found_findings st) (found_insights st)
         (found_recommendations st)
  else if startswith (str "-") line || startswith [bullet] line
  then
    let point := strip (slice_from 1 line) in
    if 10 <? len point
    then
      match current_section st with
      | Some Findings =>
          mkParse (current_section st) (found_findings st ++ [point])
            (found_insights st) (found_recommendations st)
      | Some Insights =>
          mkParse (current_section st) (found_findings st)
            (found_insights st ++ [point]) (found_recommendations st)
      | Some Recommendations =>
          mkParse (current_section st) (found_findings st)
            (found_insights st) (found_recommendations st ++ [point])
      | None => st
      end
    else st
  else st.

(** The first sentences taken as findings when the loop found none. *)
Definition fallback_findings (c : pystr) : list pystr :=
  map (fun s => strip s ++ str ".")
    (List.filter (fun s => 20 <? len (strip s))
       (slice_to 3 (split_char 46%N c))).

(** [_parse_executive_summary] *)
Definition _parse_executive_summary (c : pystr) : ExecutiveSummary :=
  let st := fold_left parse_line (split_char nl c) (mkParse None [] [] []) in
  let findings :=
    if nonempty (found_findings st) then found_findings st
    else fallback_findings c in
  mkExecutive (slice_to 5 findings) (slice_to 5 (found_insights st))
    (slice_to 5 (found_recommendations st))
    (if 500 <? len c then slice_to 500 c ++ str "..." else c).

(** What the loop keeps: every recorded point has more than 10
    characters and is stripped. *)
Definition is_point (p : pystr) : Prop := 10 < len p /\ strip p = p.

Definition points_only (st : ParseState) : Prop :=
  Forall is_point (found_findings st) /\
  Forall is_point (found_insights st) /\
  Forall is_point (found_recommendations st).

Lemma parse_line_points st raw_line :
  points_only st -> points_only (parse_line st raw_line).
Proof.
  intros (Hf & Hi & Hr). unfold parse_line.
  repeat (match goal with
          | |- context [if ?b then _ else _] => destruct b eqn:?
          end; try (repeat split; assumption)).
  assert (Hp : is_point (strip (slice_from 1 (strip raw_line)))).
  { split; [lia | apply strip_idem]. }
  destruct (current_section st) as [[ | | ]|]; repeat split; simpl;
    try assumption; apply Forall_app; split; try assumption;
    now constructor.
Qed.

Lemma parse_lines_points lines st :
  points_only st -> points_only (fold_left parse_line lines st).
Proof.
  revert st. induction lines as [|l lines IH]; intros st H; [exact H|].
  simpl. apply IH, parse_line_points, H.
Qed.

Lemma fallback_findings_long c :
  Forall (fun p => 21 < len p) (fallback_findings c).
Proof.
  unfold fallback_findings. apply List.Forall_forall. intros p Hp.
  apply List.in_map_iff in Hp as (s & <- & Hs).
  apply List.filter_In in Hs as [_ Hs].
  unfold len in *. rewrite length_app. simpl. lia.
Qed.

(** Whatever the language model wrote, the executive summary has at most
    5 findings, 5 insights and 5 recommendations, each of more than 10
    characters; its text is the answer itself up to 500 characters and its
    first 500 characters followed by three dots beyond, which makes 503
    characters. *)
Theorem executive_summary_bounds c :
  let e := _parse_executive_summary c in
  ((length (key_findings e) <= 5)%nat /\
   (length (main_insights e) <= 5)%nat /\
   (length (recommendations e) <= 5)%nat) /\
  Forall (fun p => 10 < len p)
    (key_findings e ++ main_insights e ++ recommendations e) /\
  (len c <= 500 -> summary_text e = c) /\
  (500 < len c ->
   summary_text e = slice_to 500 c ++ str "..." /\ len (summary_text e) = 503).
Proof.
  intros e.
  set (st := fold_left parse_line (split_char nl c) (mkParse None [] [] [])).
  assert (Hst : points_only st).
  { apply parse_lines_points. repeat split; constructor. }
  destruct Hst as (Hf & Hi & Hr).
  assert (Hlen : forall l : list pystr, (length (slice_to 5 l) <= 5)%nat).
  { intros l. pose proof (Researcher.slice_to_length 5 l). lia. }
  assert (Hweak : forall l, Forall is_point l -> Forall (fun p => 10 < len p) l).
  { intros l. apply List.Forall_impl. now intros p [H _]. }
  split; [|split; [|split]].
  - subst e. unfold _parse_executive_summary. simpl.
    repeat split; apply Hlen.
  - subst e. unfold _parse_executive_summary. cbn [key_findings main_insights
      recommendations]. fold st.
    repeat (apply Forall_app; split);
      try (apply Researcher.slice_to_Forall, Hweak; assumption).
    apply Researcher.slice_to_Forall.
    destruct (nonempty (found_findings st)); [now apply Hweak|].
    eapply List.Forall_impl; [|apply fallback_findings_long].
    simpl. intros p Hp. lia.
  - intros Hc. subst e. simpl.
    now replace (500 <? len c) with false by lia.
  - intros Hc. subst e. simpl.
    replace (500 <? len c) with true by lia. split; [reflexivity|].
    unfold len in *. rewrite length_app. simpl.
    unfold slice_to. simpl. rewrite length_take. lia.
Qed.

End WithLowerSummary.

End Synthesizer.

(* ===================================================================== *)
(** * The memory subsystem: [src/memory_system.py]                        *)
(* ===================================================================== *)

Module Memory.
Import Py.

(** The dictionaries given to [add_documents]; an absent key is [None]. *)
Record DocDict := mkDocDict {
  doc_content : option pystr;
  doc_title : option pystr;
  doc_url : option pystr
}.

(** One record of the Chroma collection: id, document and metadata. *)
Record StoredItem := mkItem {
  item_id : pystr;
  item_content : pystr;
  meta_title : pystr;
  meta_url : pystr;
  meta_source : pystr;
  meta_timestamp : Z;
  meta_content_hash : pystr;
  meta_word_count : Z
}.

(** The state of [VectorMemoryManager]: the set [content_hashes] and the
    records of the collection, in insertion order. *)
Record VectorMemoryManager := mkVector {
  content_hashes : gset pystr;
  collection : list StoredItem
}.

(** The dictionary returned by [add_documents]. *)
Record AddStats := mkStats {
  added : Z;
  skipped : Z;
  total_in_db : Z
}.

(** An entry of [conversation_history]; the metadata dictionary maps
    names to integers, as the pipeline writes it. *)
Record ConversationEntry := mkEntry {
  entry_timestamp : Z;
  entry_user : pystr;
  entry_assistant : pystr;
  entry_metadata : list (pystr * Z)
}.

Definition hour_us : Z := 3600 * 1000000.
Definition day_us : Z := 24 * hour_us.

(** [timedelta(hours=h)] in microseconds; the constructor raises
    [OverflowError] when the number of days leaves its range. *)
Definition timedelta_hours (h : Z) : outcome Z :=
  if (-999999999 <=? h / 24) && (h / 24 <=? 999999999)
  then Ok (h * hour_us)
  else Raise (mkExn (str "OverflowError")
                (str "days out of range for timedelta")).

Section WithHash.

(** [hashlib.md5(content.encode('utf-8')).hexdigest()] *)
Variable md5 : pystr -> pystr.

(** The text of [datetime.now().timestamp()] in a document id. *)
Variable timestamp_text : Z -> pystr.

(** [_compute_hash] *)
Definition _compute_hash (c : pystr) : pystr := md5 c.

(** [is_duplicate] *)
Definition is_duplicate (vm : VectorMemoryManager) (c : pystr) : bool :=
  bool_decide (_compute_hash c ∈ content_hashes vm).

(** The local variables of the loop of [add_documents]; the three lists
    [docs_to_add], [metadatas_to_add] and [ids_to_add] are kept as one
    list of records. *)
Record add_state := mkAdd {
  add_hashes : gset pystr;
  to_add : list StoredItem;
  n_added : Z;
  n_skipped : Z
}.

(** One pass of the loop of [add_documents]; [now] is the reading of the
    clock during the call. *)
Definition add_one (source : pystr) (check_duplicates : bool) (now : Z)
    (st : add_state) (doc : DocDict) : add_state :=
  let c := default [] (doc_content doc) in
  if check_duplicates && bool_decide (_compute_hash c ∈ add_hashes st)
  then mkAdd (add_hashes st) (to_add st) (n_added st) (n_skipped st + 1)
  else
    let content_hash := _compute_hash c in
    let doc_id :=
      source ++ str "_" ++ slice_to 8 content_hash ++ str "_" ++
      timestamp_text now in
    let item :=
      mkItem doc_id c (default (str "Sans titre") (doc_title doc))
        (default [] (doc_url doc)) source now content_hash
        (Z.of_nat (length (split_ws c))) in
    mkAdd ({[content_hash]} ∪ add_hashes st) (to_add st ++ [item])
      (n_added st + 1) (n_skipped st).

(** [add_documents] *)
Definition add_documents (vm : VectorMemoryManager) (documents : list DocDict)
    (source : pystr) (check_duplicates : bool) (now : Z)
  : VectorMemoryManager * AddStats :=
  let st :=
    fold_left (add_one source check_duplicates now) documents
      (mkAdd (content_hashes vm) [] 0 0) in
  let coll := collection vm ++ to_add st in
  (mkVector (add_hashes st) coll,
   mkStats (n_added st) (n_skipped st) (Z.of_nat (length coll))).

(** ** The duplicate check *)

(** After one pass of the loop over a document, the hash of its content is
    in the set, whether the document was added or skipped. *)
Lemma add_one_hash source check now st doc :
  _compute_hash (default [] (doc_content doc))
    ∈ add_hashes (add_one source check now st doc).
Proof.
  unfold add_one.
  destruct check; simpl; [|set_solver].
  case_bool_decide; simpl; [assumption | set_solver].
Qed.

Lemma add_documents_single_hash vm doc source check now :
  _compute_hash (default [] (doc_content doc))
    ∈ content_hashes (fst (add_documents vm [doc] source check now)).
Proof. unfold add_documents. simpl. apply add_one_hash. Qed.

(** A document whose hash is known is skipped when duplicates are checked:
    nothing is added and the memory is unchanged. *)
Lemma add_documents_known vm doc source now :
  is_duplicate vm (default [] (doc_content doc)) = true ->
  add_documents vm [doc] source true now =
    (vm, mkStats 0 1 (Z.of_nat (length (collection vm)))).
Proof.
  unfold is_duplicate, add_documents, add_one. simpl. intros ->. simpl.
  rewrite app_nil_r. now destruct vm.
Qed.

(** C8.  After [add_documents] on the one document of content [c], the
    duplicate check answers true for [c], and adding a document of the same
    content again with the duplicate check on reports one skipped and none
    added (and leaves the memory as it is). *)
Theorem dedup_law vm c title url title' url' source check now source' now' :
  let vm1 := fst (add_documents vm [mkDocDict (Some c) title url]
                    source check now) in
  let second := add_documents vm1 [mkDocDict (Some c) title' url']
                  source' true now' in
  is_duplicate vm1 c = true /\
  added (snd second) = 0 /\
  skipped (snd second) = 1 /\
  fst second = vm1.
Proof.
  intros vm1 second.
  assert (Hdup : is_duplicate vm1 c = true).
  { unfold is_duplicate. apply bool_decide_eq_true.
    apply (add_documents_single_hash vm (mkDocDict (Some c) title url)). }
  split; [exact Hdup|].
  subst second.
  rewrite (add_documents_known vm1 (mkDocDict (Some c) title' url'))
    by exact Hdup.
  simpl. auto.
Qed.

(** ** The loop of [add_documents] on a batch *)

(** One pass of the loop either skips the document, its hash being known,
    or records it with its hash. *)
Lemma add_one_cases source check now st doc :
  let h := _compute_hash (default [] (doc_content doc)) in
  (check = true /\ h ∈ add_hashes st /\
   add_one source check now st doc
     = mkAdd (add_hashes st) (to_add st) (n_added st) (n_skipped st + 1)) \/
  ((check = false \/ h ∉ add_hashes st) /\
   exists item,
     meta_content_hash item = h /\ meta_source item = source /\
     meta_timestamp item = now /\
     item_content item = default [] (doc_content doc) /\
     add_one source check now st doc
       = mkAdd ({[h]} ∪ add_hashes st) (to_add st ++ [item])
           (n_added st + 1) (n_skipped st)).
Proof.
  intros h. unfold add_one. fold h. destruct check; simpl.
  - case_bool_decide as Hin.
    + left. auto.
    + right. split; [now right|].
      eexists (mkItem _ _ _ _ _ _ _ _). simpl. repeat split.
  - right. split; [now left|].
    eexists (mkItem _ _ _ _ _ _ _ _). simpl. repeat split.
Qed.

Lemma add_loop_ind (P : add_state -> Prop) source check now :
  (forall st doc, P st -> P (add_one source check now st doc)) ->
  forall docs st,
    P st -> P (fold_left (add_one source check now) docs st).
Proof.
  intros Hstep docs. induction docs as [|doc docs IH]; intros st H;
    [exact H|].
  simpl. apply IH, Hstep, H.
Qed.

Lemma add_loop_counts source check now docs st :
  let st' := fold_left (add_one source check now) docs st in
  n_added st' + n_skipped st'
    = n_added st + n_skipped st + Z.of_nat (length docs) /\
  n_added st <= n_added st' /\
  n_skipped st <= n_skipped st' /\
  (check = false -> n_skipped st' = n_skipped st) /\
  exists new,
    to_add st' = to_add st ++ new /\
    Z.of_nat (length new) = n_added st' - n_added st /\
    Forall (fun item => meta_source item = source /\
                        meta_timestamp item = now) new.
Proof.
  revert st. induction docs as [|doc docs IH]; intros st.
  - simpl. repeat split; try lia. exists []. rewrite app_nil_r.
    repeat split; [simpl; lia | constructor].
  - cbn [fold_left length].
    specialize (IH (add_one source check now st doc)).
    cbn zeta in IH. destruct IH as (H1 & H2 & H3 & H4 & new & H5 & H6 & H7).
    destruct (add_one_cases source check now st doc)
      as [(Hc & _ & Heq) | (Hc & item & _ & Hs & Ht & _ & Heq)];
      rewrite Heq in *; simpl in *.
    + repeat split; try lia.
      * intros ->. discriminate.
      * exists new. repeat split; [exact H5 | lia | exact H7].
    + repeat split; try lia.
      * intros Hcf. apply H4, Hcf.
      * exists (item :: new). rewrite H5, <- app_assoc. simpl.
        repeat split; [lia | constructor; auto].
Qed.

(** Every batch is accounted for: each document is either added or
    skipped, nothing is skipped when duplicates are not checked, and the
    records handed to the collection are as many as [added] says, all
    with the source of the call, after the records that were there. *)
Theorem add_documents_accounting vm docs source check now :
  let vm' := fst (add_documents vm docs source check now) in
  let stats := snd (add_documents vm docs source check now) in
  added stats + skipped stats = Z.of_nat (length docs) /\
  0 <= added stats /\ 0 <= skipped stats /\
  (check = false -> skipped stats = 0) /\
  exists new,
    collection vm' = collection vm ++ new /\
    Z.of_nat (length new) = added stats /\
    Forall (fun item => meta_source item = source) new.
Proof.
  intros vm' stats. subst vm' stats. unfold add_documents. simpl.
  pose proof (add_loop_counts source check now docs
                (mkAdd (content_hashes vm) [] 0 0))
    as (H1 & H2 & H3 & H4 & new & H5 & H6 & H7).
  simpl in *. repeat split; try lia.
  - intros Hc. now apply H4.
  - exists new. rewrite H5. repeat split; [lia|].
    eapply List.Forall_impl; [|exact H7]. now intros item [H _].
Qed.

Lemma add_one_hashes_grow source check now st doc :
  add_hashes st ⊆ add_hashes (add_one source check now st doc).
Proof.
  destruct (add_one_cases source check now st doc)
    as [(_ & _ & ->) | (_ & item & _ & _ & _ & _ & ->)]; simpl;
    [reflexivity | apply union_subseteq_r].
Qed.

Lemma add_loop_hashes_grow source check now docs st :
  add_hashes st ⊆ add_hashes (fold_left (add_one source check now) docs st).
Proof.
  apply (add_loop_ind (fun st' => add_hashes st ⊆ add_hashes st'));
    [|reflexivity].
  intros st' doc H. etransitivity; [exact H | apply add_one_hashes_grow].
Qed.

Lemma add_loop_hashes_known source check now docs st :
  Forall (fun doc => _compute_hash (default [] (doc_content doc))
                       ∈ add_hashes
                           (fold_left (add_one source check now) docs st))
    docs.
Proof.
  revert st. induction docs as [|doc docs IH]; intros st; [constructor|].
  simpl. constructor; [|apply IH].
  apply (add_loop_hashes_grow source check now docs
           (add_one source check now st doc)), add_one_hash.
Qed.

(** After [add_documents], with or without the duplicate check, the
    content of every document of the batch is a known duplicate, and so is
    every content that was one before. *)
Theorem add_documents_all_known vm docs source check now :
  let vm' := fst (add_documents vm docs source check now) in
  Forall (fun doc => is_duplicate vm' (default [] (doc_content doc)) = true)
    docs /\
  (forall c, is_duplicate vm c = true -> is_duplicate vm' c = true).
Proof.
  intros vm'. subst vm'. unfold add_documents, is_duplicate. simpl. split.
  - eapply List.Forall_impl;
      [|apply (add_loop_hashes_known source check now docs)].
    intros doc H. apply bool_decide_eq_true. exact H.
  - intros c H. apply bool_decide_eq_true in H. apply bool_decide_eq_true.
    apply (add_loop_hashes_grow source check now docs
             (mkAdd (content_hashes vm) [] 0 0)). exact H.
Qed.

Lemma add_loop_all_skipped source now docs st :
  Forall (fun doc => _compute_hash (default [] (doc_content doc))
                       ∈ add_hashes st) docs ->
  fold_left (add_one source true now) docs st
    = mkAdd (add_hashes st) (to_add st) (n_added st)
        (n_skipped st + Z.of_nat (length docs)).
Proof.
  revert st. induction docs as [|doc docs IH]; intros st H.
  - simpl. rewrite Z.add_0_r. now destruct st.
  - inversion H as [|? ? Hd Hrest]; subst. cbn [fold_left length].
    assert (Heq : add_one source true now st doc
                  = mkAdd (add_hashes st) (to_add st) (n_added st)
                      (n_skipped st + 1)).
    { unfold add_one. simpl. now rewrite bool_decide_eq_true_2. }
    rewrite Heq, IH by exact Hrest. simpl. f_equal. lia.
Qed.

(** Adding a batch a second time with the duplicate check on adds
    nothing: every document is skipped and the memory is unchanged,
    whatever the source given and the time elapsed. *)
Theorem add_documents_twice vm docs source check now source' now' :
  let vm1 := fst (add_documents vm docs source check now) in
  add_documents vm1 docs source' true now'
    = (vm1, mkStats 0 (Z.of_nat (length docs))
              (Z.of_nat (length (collection vm1)))).
Proof.
  intros vm1.
  assert (Hknown : Forall (fun doc =>
            _compute_hash (default [] (doc_content doc))
              ∈ content_hashes vm1) docs).
  { subst vm1. unfold add_documents. simpl.
    apply add_loop_hashes_known. }
  clearbody vm1. unfold add_documents.
  rewrite add_loop_all_skipped by exact Hknown. simpl.
  rewrite app_nil_r. now destruct vm1.
Qed.

(** ** The hashes and the collection *)

(** [_load_existing_hashes] on the records of the collection (every
    record written by [add_documents] has a content hash), from the
    hashes [hashes] held so far. *)
Definition _load_existing_hashes (coll : list StoredItem)
    (hashes : gset pystr) : gset pystr :=
  fold_left (fun hs item => {[meta_content_hash item]} ∪ hs) coll hashes.

(** The manager that [__init__] builds on a collection: the set of hashes
    is empty, then loaded from the records. *)
Definition reopen (coll : list StoredItem) : VectorMemoryManager :=
  mkVector (_load_existing_hashes coll ∅) coll.

Definition hashes_of (coll : list StoredItem) : gset pystr :=
  list_to_set (map meta_content_hash coll).

Lemma load_existing_hashes_spec coll hashes :
  _load_existing_hashes coll hashes = hashes ∪ hashes_of coll.
Proof using Type.
  clear md5 timestamp_text.
  unfold _load_existing_hashes, hashes_of. revert hashes.
  induction coll as [|item coll IH]; intros hashes; simpl.
  - apply leibniz_equiv. set_solver.
  - rewrite IH. apply leibniz_equiv. set_solver.
Qed.

Lemma hashes_of_app a b : hashes_of (a ++ b) = hashes_of a ∪ hashes_of b.
Proof using Type.
  clear md5 timestamp_text.
  unfold hashes_of. rewrite map_app. apply leibniz_equiv.
  apply list_to_set_app.
Qed.

Lemma hashes_of_singleton item :
  hashes_of [item] = {[meta_content_hash item]}.
Proof using Type.
  clear md5 timestamp_text.
  unfold hashes_of. simpl. apply leibniz_equiv. set_solver.
Qed.

Lemma add_loop_hashes_of source check now docs st :
  add_hashes (fold_left (add_one source check now) docs st)
    ∪ hashes_of (to_add st)
  = add_hashes st
    ∪ hashes_of (to_add (fold_left (add_one source check now) docs st)).
Proof.
  apply (add_loop_ind
           (fun st' => add_hashes st' ∪ hashes_of (to_add st)
                       = add_hashes st ∪ hashes_of (to_add st')));
    [|reflexivity].
  intros st' doc H.
  destruct (add_one_cases source check now st' doc)
    as [(_ & _ & ->) | (_ & item & Hh & _ & _ & _ & ->)]; simpl;
    [exact H|].
  rewrite hashes_of_app, hashes_of_singleton, Hh.
  apply leibniz_equiv. apply leibniz_equiv_iff in H.
  set (h := _compute_hash (default [] (doc_content doc))) in *.
  clearbody h. set_solver.
Qed.

(** The set of hashes in memory is what a restart would load: when it
    agrees with the records of the collection before [add_documents], it
    agrees with them afterwards, so that the duplicate check answers the
    same after the manager is built again on the collection. *)
Theorem reopen_after_add vm docs source check now :
  reopen (collection vm) = vm ->
  let vm' := fst (add_documents vm docs source check now) in
  reopen (collection vm') = vm' /\
  (forall c, is_duplicate (reopen (collection vm')) c = is_duplicate vm' c).
Proof.
  intros Hsync vm'.
  assert (H : reopen (collection vm') = vm'); [|split; [exact H|]].
  - subst vm'. unfold reopen in *. unfold add_documents. simpl.
    f_equal. rewrite load_existing_hashes_spec, hashes_of_app.
    assert (Hh : content_hashes vm = hashes_of (collection vm)).
    { rewrite <- Hsync at 1. simpl.
      rewrite load_existing_hashes_spec. apply leibniz_equiv.
      set_solver. }
    pose proof (add_loop_hashes_of source check now docs
                  (mkAdd (content_hashes vm) [] 0 0)) as Hl.
    simpl in Hl. rewrite <- Hh.
    apply leibniz_equiv. apply leibniz_equiv_iff in Hl.
    unfold hashes_of in Hl at 1. simpl in Hl. set_solver.
  - intros c. now rewrite H.
Qed.

(** No two records of the collection have the same content hash. *)
Definition distinct_hashes (coll : list StoredItem) : Prop :=
  NoDup (map meta_content_hash coll).

Lemma elem_of_hashes_of h coll :
  h ∈ hashes_of coll <-> In h (map meta_content_hash coll).
Proof using Type.
  clear md5 timestamp_text.
  unfold hashes_of. rewrite elem_of_list_to_set. apply list_elem_of_In.
Qed.

(** With the duplicate check on, [add_documents] never stores a content
    twice: when the records of the collection have pairwise distinct
    hashes, all known to the manager, they still have after the call,
    also when the batch itself holds the same content several times. *)
Theorem add_documents_distinct_hashes vm docs source now :
  reopen (collection vm) = vm ->
  distinct_hashes (collection vm) ->
  distinct_hashes
    (collection (fst (add_documents vm docs source true now))).
Proof.
  intros Hsync Hnd. unfold add_documents. simpl.
  assert (Hh : content_hashes vm = hashes_of (collection vm)).
  { rewrite <- Hsync at 1. simpl.
    rewrite load_existing_hashes_spec. apply leibniz_equiv. set_solver. }
  set (P := fun st : add_state =>
              distinct_hashes (collection vm ++ to_add st) /\
              add_hashes st = hashes_of (collection vm ++ to_add st)).
  assert (HP : P (fold_left (add_one source true now) docs
                    (mkAdd (content_hashes vm) [] 0 0))).
  { apply add_loop_ind.
    - intros st doc [H1 H2].
      destruct (add_one_cases source true now st doc)
        as [(_ & _ & ->) | ([Hc | Hnew] & item & Hh' & _ & _ & _ & ->)];
        [split; assumption | discriminate |].
      split; simpl.
      + unfold distinct_hashes in *.
        rewrite app_assoc, map_app. simpl.
        apply NoDup_app. split; [exact H1|]. split.
        * intros h Hin Hin'. apply list_elem_of_singleton in Hin'.
          subst h. apply Hnew. rewrite H2, <- Hh'.
          apply elem_of_hashes_of, list_elem_of_In, Hin.
        * apply NoDup_singleton.
      + rewrite app_assoc, (hashes_of_app (collection vm ++ to_add st)).
        rewrite H2. unfold hashes_of at 3. simpl. rewrite Hh'.
        apply leibniz_equiv. set_solver.
    - split; simpl; rewrite app_nil_r; assumption. }
  exact (proj1 HP).
Qed.

(** ** [clear_old_documents] *)

(** [timedelta(days=d)]; the constructor raises [OverflowError] beyond
    999999999 days. *)
Definition timedelta_days (d : Z) : outcome Z :=
  if (-999999999 <=? d) && (d <=? 999999999)
  then Ok (d * day_us)
  else Raise (mkExn (str "OverflowError")
                (str "days=" ++ repr_int d ++
                 str "; must have magnitude <= 999999999")).

(** [datetime.now() - delta], in microseconds since [datetime.min]; the
    subtraction raises [OverflowError] when the result is not a date of
    the years 1 to 9999. *)
Definition datetime_sub (now delta : Z) : outcome Z :=
  if (0 <=? now - delta) && (now - delta <? 3652059 * day_us)
  then Ok (now - delta)
  else Raise (mkExn (str "OverflowError") (str "date value out of range")).

(** The loop of [clear_old_documents] over the records: the ids to
    delete, and the hashes left. *)
Fixpoint collect_old (cutoff_date : Z) (coll : list StoredItem)
    (hashes : gset pystr) : list pystr * gset pystr :=
  match coll with
  | [] => ([], hashes)
  | item :: rest =>
      if meta_timestamp item <? cutoff_date
      then
        let hashes' :=
          if nonempty (meta_content_hash item)
          then hashes ∖ {[meta_content_hash item]}
          else hashes in
        let '(ids, hashes'') := collect_old cutoff_date rest hashes' in
        (item_id item :: ids, hashes'')
      else collect_old cutoff_date rest hashes
  end.

(** [collection.delete(ids=ids_to_delete)] *)
Definition delete_ids (ids : list pystr) (coll : list StoredItem)
  : list StoredItem :=
  List.filter (fun item => negb (existsb (str_eqb (item_id item)) ids)) coll.

(** [clear_old_documents]; [now] is the reading of the clock.  The result
    is the manager after the call and the number returned. *)
Definition clear_old_documents (vm : VectorMemoryManager) (days : Z)
    (now : Z) : outcome (VectorMemoryManager * Z) :=
  bind (timedelta_days days) (fun delta =>
  bind (datetime_sub now delta) (fun cutoff_date =>
    let '(ids_to_delete, hashes) :=
      collect_old cutoff_date (collection vm) (content_hashes vm) in
    Ok (mkVector hashes (delete_ids ids_to_delete (collection vm)),
        Z.of_nat (length ids_to_delete)))).

(** The record is older than the cut-off date. *)
Definition older_than (cutoff_date : Z) (item : StoredItem) : bool :=
  meta_timestamp item <? cutoff_date.

Lemma collect_old_ids cutoff coll hashes :
  fst (collect_old cutoff coll hashes)
    = map item_id (List.filter (older_than cutoff) coll).
Proof using Type.
  clear md5 timestamp_text.
  revert hashes. induction coll as [|item rest IH]; intros hashes;
    [reflexivity|].
  simpl. unfold older_than at 1.
  destruct (meta_timestamp item <? cutoff).
  - match goal with
    | |- context [collect_old cutoff rest ?h] =>
        specialize (IH h); destruct (collect_old cutoff rest h)
    end.
    simpl in *. now rewrite IH.
  - apply IH.
Qed.

Lemma collect_old_hashes cutoff coll hashes :
  Forall (fun item => meta_content_hash item <> []) coll ->
  snd (collect_old cutoff coll hashes)
    = hashes ∖ hashes_of (List.filter (older_than cutoff) coll).
Proof using Type.
  clear md5 timestamp_text.
  revert hashes. induction coll as [|item rest IH]; intros hashes Hne.
  - simpl. apply leibniz_equiv. unfold hashes_of. set_solver.
  - inversion Hne as [|? ? Hh Hrest]; subst. simpl.
    unfold older_than at 1.
    destruct (meta_timestamp item <? cutoff).
    + destruct (meta_content_hash item) as [|c r] eqn:Hm; [congruence|].
      simpl nonempty. cbv iota.
      match goal with
      | |- context [collect_old cutoff rest ?h] =>
          specialize (IH h Hrest); destruct (collect_old cutoff rest h)
      end.
      simpl in *. rewrite IH. unfold hashes_of. simpl. rewrite Hm.
      apply leibniz_equiv. set_solver.
    + apply IH, Hrest.
Qed.

Lemma NoDup_map_inj {A B} (f : A -> B) (l : list A) x y :
  NoDup (map f l) -> In x l -> In y l -> f x = f y -> x = y.
Proof using Type.
  clear md5 timestamp_text.
  induction l as [|a l IH]; intros Hnd Hx Hy Hf; [destruct Hx|].
  simpl in Hnd. apply NoDup_cons in Hnd as [Hna Hnd].
  destruct Hx as [->|Hx], Hy as [->|Hy].
  - reflexivity.
  - exfalso. apply Hna. rewrite Hf. apply list_elem_of_In.
    now apply in_map.
  - exfalso. apply Hna. rewrite <- Hf. apply list_elem_of_In.
    now apply in_map.
  - now apply IH.
Qed.

Lemma delete_old_ids cutoff coll :
  NoDup (map item_id coll) ->
  delete_ids (map item_id (List.filter (older_than cutoff) coll)) coll
    = List.filter (fun item => negb (older_than cutoff item)) coll.
Proof using Type.
  clear md5 timestamp_text.
  intros Hnd. unfold delete_ids. apply List.filter_ext_in.
  intros item Hin. f_equal.
  destruct (older_than cutoff item) eqn:Hold.
  - apply existsb_exists. exists (item_id item). split.
    + apply in_map, List.filter_In. now split.
    + apply str_eqb_refl.
  - apply not_true_is_false. intros Hex.
    apply existsb_exists in Hex as (i & Hi & Heq).
    apply str_eqb_eq in Heq.
    apply List.in_map_iff in Hi as (item' & Hid & Hin').
    apply List.filter_In in Hin' as [Hin' Hold'].
    assert (item' = item).
    { apply (NoDup_map_inj item_id coll); [assumption..|]. congruence. }
    subst item'. congruence.
Qed.

(** The store as Chroma and [add_documents] with the duplicate check keep
    it: the record ids are pairwise distinct, so are the content hashes,
    no hash is the empty string, and the set of hashes in memory is the
    one of the records. *)
Definition coherent (vm : VectorMemoryManager) : Prop :=
  NoDup (map item_id (collection vm)) /\
  distinct_hashes (collection vm) /\
  Forall (fun item => meta_content_hash item <> []) (collection vm) /\
  reopen (collection vm) = vm.

Lemma hashes_of_filter_split (f : StoredItem -> bool) coll :
  distinct_hashes coll ->
  hashes_of coll ∖ hashes_of (List.filter f coll)
    = hashes_of (List.filter (fun item => negb (f item)) coll).
Proof using Type.
  clear md5 timestamp_text.
  unfold distinct_hashes, hashes_of.
  induction coll as [|item rest IH]; intros Hnd; simpl.
  - apply leibniz_equiv. set_solver.
  - apply NoDup_cons in Hnd as [Hna Hnd]. specialize (IH Hnd).
    apply leibniz_equiv_iff in IH.
    assert (Hni : forall g, meta_content_hash item
                     ∉ (list_to_set (map meta_content_hash
                                       (List.filter g rest)) : gset pystr)).
    { intros g Hin. apply elem_of_list_to_set, list_elem_of_In in Hin.
      apply Hna, list_elem_of_In.
      apply List.in_map_iff in Hin as (it & Hit & Hin).
      apply List.filter_In in Hin as [Hin _].
      rewrite <- Hit. now apply in_map. }
    assert (Hnr : meta_content_hash item
                    ∉ (list_to_set (map meta_content_hash rest)
                       : gset pystr)).
    { intros Hin. apply elem_of_list_to_set in Hin. now apply Hna. }
    pose proof (Hni f) as Hf.
    pose proof (Hni (fun item => negb (f item))) as Hg.
    destruct (f item); simpl; apply leibniz_equiv; set_solver.
Qed.

(** Retention.  For a number of days that [timedelta] and the calendar
    accept, [clear_old_documents] on a coherent store deletes exactly the
    records older than the cut-off date and returns their number; the
    records left are those not older, in their order, and the store is
    still coherent: a deleted content is no longer a duplicate, a content
    left still is. *)
Theorem clear_old_documents_retention vm days now :
  coherent vm ->
  -999999999 <= days <= 999999999 ->
  0 <= now - days * day_us < 3652059 * day_us ->
  exists vm' n,
    clear_old_documents vm days now = Ok (vm', n) /\
    collection vm'
      = List.filter (fun item => now - days * day_us <=? meta_timestamp item)
          (collection vm) /\
    n = Z.of_nat (length (collection vm))
        - Z.of_nat (length (collection vm')) /\
    coherent vm'.
Proof using Type.
  clear md5 timestamp_text.
  intros (Hids & Hhashes & Hne & Hsync) Hdays Hcut.
  set (cutoff := now - days * day_us) in *.
  unfold clear_old_documents, timedelta_days, datetime_sub.
  replace ((-999999999 <=? days) && (days <=? 999999999)) with true by lia.
  cbn [bind]. fold cutoff.
  replace ((0 <=? cutoff) && (cutoff <? 3652059 * day_us)) with true by lia.
  cbn [bind].
  pose proof (collect_old_ids cutoff (collection vm) (content_hashes vm))
    as Hi.
  pose proof (collect_old_hashes cutoff (collection vm) (content_hashes vm)
                Hne) as Hh.
  destruct (collect_old cutoff (collection vm) (content_hashes vm))
    as [ids hashes].
  simpl in Hi, Hh. subst ids hashes.
  rewrite delete_old_ids by exact Hids.
  assert (Hfilter :
    List.filter (fun item => negb (older_than cutoff item)) (collection vm)
    = List.filter (fun item => cutoff <=? meta_timestamp item)
        (collection vm)).
  { apply List.filter_ext. intros item. unfold older_than. lia. }
  rewrite Hfilter. eexists _, _. split; [reflexivity|].
  cbn [collection]. split; [reflexivity|]. split.
  - rewrite length_map.
    pose proof (List.filter_length (older_than cutoff) (collection vm))
      as Hlen.
    rewrite <- Hfilter. lia.
  - assert (Hsub : forall (f : StoredItem -> pystr) g,
              NoDup (map f (collection vm)) ->
              NoDup (map f (List.filter g (collection vm)))).
    { intros f g. generalize (collection vm) as l.
      induction l as [|a l IH]; simpl; intros Hnd; [constructor|].
      apply NoDup_cons in Hnd as [Hna Hnd].
      destruct (g a); simpl; [|now apply IH].
      apply NoDup_cons. split; [|now apply IH].
      intros Hin. apply Hna. apply list_elem_of_In in Hin.
      apply list_elem_of_In.
      apply List.in_map_iff in Hin as (x & Hx & Hin).
      apply List.filter_In in Hin as [Hin _].
      rewrite <- Hx. now apply in_map. }
    repeat split; cbn [collection].
    + now apply Hsub.
    + now apply Hsub.
    + apply List.Forall_forall. intros item Hin.
      apply List.filter_In in Hin as [Hin _].
      revert item Hin. now apply List.Forall_forall.
    + unfold reopen. f_equal.
      rewrite load_existing_hashes_spec, <- Hfilter.
      rewrite <- (hashes_of_filter_split (older_than cutoff)) by exact Hhashes.
      assert (Hc : content_hashes vm = hashes_of (collection vm)).
      { rewrite <- Hsync at 1. simpl.
        rewrite load_existing_hashes_spec. apply leibniz_equiv.
        set_solver. }
      rewrite Hc. apply leibniz_equiv. set_solver.
Qed.

End WithHash.

Section WithResult.

(** The type of the cached results (the pipeline caches the output of the
    global synthesizer). *)
Variable Result : Type.

(** A value of [research_cache]. *)
Record CacheEntry := mkCache {
  cached_result : Result;
  cached_timestamp : Z
}.

(** The state of [AgentMemoryManager]. *)
Record AgentMemoryManager := mkAgent {
  max_history : nat;
  compression_threshold : Z;
  conversation_history : list ConversationEntry;
  research_cache : gmap pystr CacheEntry;
  summary_cache : gmap pystr (pystr * Z);
  topic_keywords : gmap pystr (list pystr)
}.

(** [deque(maxlen=n).append(e)]: the oldest entries leave when the queue
    is full. *)
Definition deque_append (n : nat) (l : list ConversationEntry)
    (e : ConversationEntry) : list ConversationEntry :=
  let l' := l ++ [e] in
  skipn (length l' - n) l'.

(** [topics_to_remove] in [_compress_memory]: the topics whose cached
    research is older than [cutoff]. *)
Definition to_remove (cache : gmap pystr CacheEntry) (cutoff : Z)
    (topic : pystr) : bool :=
  match cache !! topic with
  | Some e => cached_timestamp e <? cutoff
  | None => false
  end.

(** [_compress_memory]: the cached researches older than seven days leave
    the cache, with their keywords. *)
Definition _compress_memory (am : AgentMemoryManager) (now : Z)
  : AgentMemoryManager :=
  let cutoff := now - 7 * day_us in
  let cache := research_cache am in
  mkAgent (max_history am) (compression_threshold am)
    (conversation_history am)
    (filter (fun kv => to_remove cache cutoff (fst kv) = false) cache)
    (summary_cache am)
    (filter (fun kv => to_remove cache cutoff (fst kv) = false)
       (topic_keywords am)).

(** [add_conversation]; [metadata or {}] is the list itself. *)
Definition add_conversation (am : AgentMemoryManager) (user_message : pystr)
    (assistant_response : pystr) (metadata : list (pystr * Z)) (now : Z)
  : AgentMemoryManager :=
  let entry := mkEntry now user_message assistant_response metadata in
  let history :=
    deque_append (max_history am) (conversation_history am) entry in
  let am' :=
    mkAgent (max_history am) (compression_threshold am) history
      (research_cache am) (summary_cache am) (topic_keywords am) in
  if Z.of_nat (length history) >=? compression_threshold am
  then _compress_memory am' now
  else am'.

(** [add_research_result] *)
Definition add_research_result (am : AgentMemoryManager) (topic : pystr)
    (result : Result) (keywords : list pystr) (now : Z)
  : AgentMemoryManager :=
  mkAgent (max_history am) (compression_threshold am)
    (conversation_history am)
    (<[topic := mkCache result now]> (research_cache am))
    (summary_cache am)
    (<[topic := keywords]> (topic_keywords am)).

(** [get_research_result]; [now] is [datetime.now()].  The timestamp is
    stored with [isoformat] and read back with [fromisoformat], which
    gives the stored instant again. *)
Definition get_research_result (am : AgentMemoryManager) (topic : pystr)
    (max_age_hours : Z) (now : Z) : outcome (option Result) :=
  match research_cache am !! topic with
  | None => Ok None
  | Some cached =>
      bind (timedelta_hours max_age_hours)
        (fun max_age =>
           if now - cached_timestamp cached >? max_age
           then Ok None
           else Ok (Some (cached_result cached)))
  end.

(** The instants that a [datetime] can hold, counted from
    [datetime.min]: less than 3652059 days. *)
Definition valid_instant (t : Z) : Prop := 0 <= t < 3652059 * day_us.

(** The largest whole number of days, in hours, that [timedelta]
    accepts. *)
Definition max_age_unbounded : Z := 24 * 999999999.

(** [clear_all] *)
Definition clear_all (am : AgentMemoryManager) : AgentMemoryManager :=
  mkAgent (max_history am) (compression_threshold am) [] ∅ ∅ ∅.

(** ** The cache *)

Lemma get_after_put am topic result kws now1 now2 h :
  get_research_result (add_research_result am topic result kws now1)
    topic h now2 =
  bind (timedelta_hours h)
    (fun max_age =>
       if now2 - now1 >? max_age then Ok None else Ok (Some result)).
Proof.
  unfold get_research_result, add_research_result. simpl.
  now rewrite lookup_insert_eq.
Qed.

(** C9, as the code has it.  After [add_research_result topic r],
    [get_research_result topic] returns [r] for every maximal age that is
    at least the time elapsed on the clock, and so for the largest age
    that [timedelta] accepts at any two instants of [datetime]; with a
    maximal age of 0 it returns nothing when the reading of the clock is
    later than the one stored, and [r] when the clock has not advanced. *)
Theorem cache_law am topic r kws now1 now2 :
  let am' := add_research_result am topic r kws now1 in
  (forall h, -999999999 <= h / 24 <= 999999999 ->
             now2 - now1 <= h * hour_us ->
             get_research_result am' topic h now2 = Ok (Some r)) /\
  (valid_instant now1 -> valid_instant now2 ->
   get_research_result am' topic max_age_unbounded now2 = Ok (Some r)) /\
  (now1 < now2 -> get_research_result am' topic 0 now2 = Ok None) /\
  (now2 <= now1 -> get_research_result am' topic 0 now2 = Ok (Some r)).
Proof.
  intros am'. subst am'. repeat split.
  - intros h Hh Hage. rewrite get_after_put. unfold timedelta_hours.
    replace ((-999999999 <=? h / 24) && (h / 24 <=? 999999999)) with true
      by lia.
    simpl. replace (now2 - now1 >? h * hour_us) with false by lia.
    reflexivity.
  - unfold valid_instant, day_us, hour_us. intros H1 H2.
    rewrite get_after_put. simpl.
    replace (now2 - now1 >? _) with false; [reflexivity|].
    unfold max_age_unbounded, hour_us. lia.
  - intros Hlt. rewrite get_after_put. simpl.
    replace (now2 - now1 >? _) with true; [reflexivity|].
    unfold hour_us. lia.
  - intros Hle. rewrite get_after_put. simpl.
    replace (now2 - now1 >? _) with false; [reflexivity|].
    unfold hour_us. lia.
Qed.

(** ** The compression of the cache *)

Lemma filter_lookup_to_remove {V : Type} (cache : gmap pystr CacheEntry)
    (m : gmap pystr V) cutoff topic :
  filter (fun kv : pystr * V => to_remove cache cutoff (fst kv) = false) m
    !! topic
  = if to_remove cache cutoff topic then None else m !! topic.
Proof.
  destruct (to_remove cache cutoff topic) eqn:Hr.
  - apply map_lookup_filter_None. right. intros x _. simpl. congruence.
  - destruct (m !! topic) as [x|] eqn:Hm.
    + apply map_lookup_filter_Some. now split.
    + apply map_lookup_filter_None. now left.
Qed.

Lemma compress_memory_cache am now topic :
  research_cache (_compress_memory am now) !! topic
    = match research_cache am !! topic with
      | Some e =>
          if cached_timestamp e <? now - 7 * day_us then None else Some e
      | None => None
      end.
Proof.
  unfold _compress_memory. simpl.
  rewrite filter_lookup_to_remove. unfold to_remove.
  destruct (research_cache am !! topic) as [e|]; [|reflexivity].
  now destruct (cached_timestamp e <? now - 7 * day_us).
Qed.

(** [_compress_memory] removes from the cache exactly the researches
    stored strictly more than seven days before, with the keywords of
    their topics; what is younger, the conversation history and the
    summaries are left as they are. *)
Theorem compress_memory_exact am now topic :
  let am' := _compress_memory am now in
  research_cache am' !! topic
    = match research_cache am !! topic with
      | Some e =>
          if cached_timestamp e <? now - 7 * day_us then None else Some e
      | None => None
      end /\
  topic_keywords am' !! topic
    = match research_cache am !! topic with
      | Some e =>
          if cached_timestamp e <? now - 7 * day_us
          then None
          else topic_keywords am !! topic
      | None => topic_keywords am !! topic
      end /\
  conversation_history am' = conversation_history am /\
  summary_cache am' = summary_cache am.
Proof.
  intros am'. subst am'. split; [apply compress_memory_cache|].
  unfold _compress_memory. simpl.
  rewrite filter_lookup_to_remove. unfold to_remove.
  destruct (research_cache am !! topic) as [e|]; [|auto].
  destruct (cached_timestamp e <? now - 7 * day_us); auto.
Qed.

Lemma add_conversation_cache am user_message assistant_response metadata
    now topic :
  let am' :=
    add_conversation am user_message assistant_response metadata now in
  research_cache am' !! topic = research_cache am !! topic \/
  (research_cache am' !! topic = None /\
   exists e, research_cache am !! topic = Some e /\
             cached_timestamp e < now - 7 * day_us).
Proof.
  intros am'. subst am'. unfold add_conversation.
  destruct (_ >=? _); [|now left].
  rewrite compress_memory_cache. simpl.
  destruct (research_cache am !! topic) as [e|]; [|now left].
  destruct (cached_timestamp e <? now - 7 * day_us) eqn:He; [|now left].
  right. split; [reflexivity|]. exists e. split; [reflexivity | lia].
Qed.

(** Recording a conversation may compress the cache, but a reader of the
    cache does not see it: for a maximal age of at most seven days (the
    default is 24 hours), [get_research_result] answers after
    [add_conversation] what it would have answered without it. *)
Theorem compression_invisible_to_cache_reads am user_message
    assistant_response metadata now topic max_age_hours now' :
  -999999999 <= max_age_hours / 24 ->
  max_age_hours <= 168 ->
  now <= now' ->
  get_research_result
    (add_conversation am user_message assistant_response metadata now)
    topic max_age_hours now'
  = get_research_result am topic max_age_hours now'.
Proof.
  intros Hlow Hhigh Hnow.
  destruct (add_conversation_cache am user_message assistant_response
              metadata now topic) as [H | (H & e & He & Hold)];
    cbn zeta in H; unfold get_research_result; rewrite H;
    [reflexivity|].
  rewrite He. unfold timedelta_hours.
  replace ((-999999999 <=? max_age_hours / 24)
           && (max_age_hours / 24 <=? 999999999)) with true
    by (assert (max_age_hours / 24 <= 7)
          by (apply Z.div_le_upper_bound; lia); lia).
  simpl.
  replace (now' - cached_timestamp e >? max_age_hours * hour_us) with true;
    [reflexivity|].
  unfold day_us, hour_us in *. lia.
Qed.

(** The conversation history is a bounded queue: after
    [add_conversation] it holds the entries it held followed by the new
    one, less the oldest ones beyond [max_history], whether the cache was
    compressed or not. *)
Theorem conversation_history_bounded am user_message assistant_response
    metadata now :
  let am' :=
    add_conversation am user_message assistant_response metadata now in
  let entry := mkEntry now user_message assistant_response metadata in
  max_history am' = max_history am /\
  (length (conversation_history am') <= max_history am)%nat /\
  (exists oldest,
     conversation_history am ++ [entry]
       = oldest ++ conversation_history am' /\
     length oldest
       = (length (conversation_history am) + 1 - max_history am)%nat) /\
  ((0 < max_history am)%nat ->
   last (conversation_history am') = Some entry).
Proof.
  intros am' entry.
  assert (Hh : conversation_history am'
               = deque_append (max_history am) (conversation_history am)
                   entry /\ max_history am' = max_history am).
  { subst am'. unfold add_conversation. destruct (_ >=? _); simpl; auto. }
  destruct Hh as [Hh Hm]. rewrite Hh. unfold deque_append.
  set (l' := conversation_history am ++ [entry]).
  assert (Hl : length l' = (length (conversation_history am) + 1)%nat).
  { subst l'. rewrite length_app. simpl. lia. }
  split; [exact Hm|]. split; [|split].
  - rewrite length_skipn. lia.
  - exists (firstn (length l' - max_history am) l'). split.
    + symmetry. apply firstn_skipn.
    + rewrite length_firstn. lia.
  - intros Hpos.
    assert (Hne : skipn (length l' - max_history am) l' <> []).
    { intros Hnil. apply (f_equal (@length _)) in Hnil.
      rewrite length_skipn in Hnil. simpl in Hnil. lia. }
    assert (Hlast : last l' = Some entry) by (subst l'; apply last_snoc).
    rewrite <- (firstn_skipn (length l' - max_history am) l') in Hlast.
    rewrite last_app in Hlast.
    destruct (last (skipn (length l' - max_history am) l')) eqn:Hs;
      [try rewrite Hs in Hlast; exact Hlast|].
    apply last_None in Hs. contradiction.
Qed.

(** The cache is per topic: caching a research leaves what is read for
    any other topic as it was, a second [add_research_result] on a topic
    replaces the first, and after [clear_all] nothing is read. *)
Theorem cache_is_per_topic am topic r kws now :
  (forall topic' h now',
     topic' <> topic ->
     get_research_result (add_research_result am topic r kws now)
       topic' h now'
     = get_research_result am topic' h now') /\
  (forall r0 kws0 now0,
     add_research_result (add_research_result am topic r0 kws0 now0)
       topic r kws now
     = add_research_result am topic r kws now) /\
  (forall topic' h now',
     get_research_result (clear_all am) topic' h now' = Ok None).
Proof.
  split; [|split].
  - intros topic' h now' Hne. unfold get_research_result. simpl.
    now rewrite lookup_insert_ne.
  - intros r0 kws0 now0. unfold add_research_result. simpl.
    now rewrite !insert_insert_eq.
  - intros topic' h now'. unfold get_research_result. simpl.
    now rewrite lookup_empty.
Qed.

End WithResult.

Arguments mkCache {Result}.
Arguments cached_result {Result}.
Arguments cached_timestamp {Result}.
Arguments mkAgent {Result}.
Arguments max_history {Result}.
Arguments compression_threshold {Result}.
Arguments conversation_history {Result}.
Arguments research_cache {Result}.
Arguments summary_cache {Result}.
Arguments topic_keywords {Result}.
Arguments add_conversation {Result}.
Arguments add_research_result {Result}.
Arguments get_research_result {Result}.
Arguments clear_all {Result}.

(** An empty agent memory with the default sizes (100 entries, compression
    at 50). *)
Definition empty_agent {Result} : AgentMemoryManager Result :=
  mkAgent 100 50 [] ∅ ∅ ∅.

(** ** Runs of the vector memory *)

(** A stand-in for the hash in the runs below: the content itself. *)
Definition text_as_hash (c : pystr) : pystr := c.

(** A batch that holds the same content twice. *)
Definition twin_batch : list DocDict :=
  [mkDocDict (Some (str "alpha")) (Some (str "A")) None;
   mkDocDict (Some (str "alpha")) (Some (str "B")) None].

(** On an empty store, adding the batch without the duplicate check
    leaves the set of hashes equal to what the collection gives. *)
Lemma reopen_after_add_witness :
  let vm' :=
    fst (add_documents text_as_hash repr_int (mkVector ∅ []) twin_batch
           (str "research") false 1000) in
  reopen (collection vm') = vm' /\
  (forall c, is_duplicate text_as_hash (reopen (collection vm')) c
             = is_duplicate text_as_hash vm' c).
Proof.
  apply (reopen_after_add text_as_hash repr_int (mkVector ∅ []) twin_batch
           (str "research") false 1000).
  reflexivity.
Defined.

(** With the duplicate check, the second document of the batch is not
    stored. *)
Lemma add_documents_distinct_hashes_witness :
  distinct_hashes
    (collection
       (fst (add_documents text_as_hash repr_int (mkVector ∅ []) twin_batch
               (str "research") true 1000))).
Proof.
  apply (add_documents_distinct_hashes text_as_hash repr_int
           (mkVector ∅ []) twin_batch (str "research") 1000).
  - reflexivity.
  - apply NoDup_nil_2.
Defined.

(** A store of two records, written at the instant 0 and 40 days
    later. *)
Definition two_records : list StoredItem :=
  [mkItem (str "research_aaaaaaaa_0.0") (str "old text") (str "Old") []
     (str "research") 0 (str "aaaaaaaa") 2;
   mkItem (str "research_bbbbbbbb_3456000.0") (str "new text") (str "New") []
     (str "research") (40 * day_us) (str "bbbbbbbb") 2].

Lemma two_records_coherent : coherent (reopen two_records).
Proof.
  repeat split.
  - apply NoDup_cons. split; [|apply NoDup_singleton].
    intros H. apply list_elem_of_singleton in H. discriminate.
  - apply NoDup_cons. split; [|apply NoDup_singleton].
    intros H. apply list_elem_of_singleton in H. discriminate.
  - repeat (apply List.Forall_cons; [discriminate|]). apply List.Forall_nil.
Qed.

(** At the instant of 45 days, a retention of 30 days deletes the first
    record and keeps the second. *)
Lemma clear_old_documents_retention_witness :
  exists vm' n,
    clear_old_documents (reopen two_records) 30 (45 * day_us)
      = Ok (vm', n) /\
    collection vm'
      = List.filter
          (fun item => 45 * day_us - 30 * day_us <=? meta_timestamp item)
          (collection (reopen two_records)) /\
    n = Z.of_nat (length (collection (reopen two_records)))
        - Z.of_nat (length (collection vm')) /\
    coherent vm'.
Proof.
  apply (clear_old_documents_retention (reopen two_records) 30
           (45 * day_us)).
  - exact two_records_coherent.
  - lia.
  - vm_compute. split; [discriminate | reflexivity].
Defined.

(** ** Runs of the agent memory *)

(** A research cached at the instant 0 in a memory that compresses at
    every conversation; a conversation is recorded 8 days later. *)
Lemma compression_invisible_to_cache_reads_witness :
  get_research_result
    (add_conversation
       (add_research_result (mkAgent 100 1 [] ∅ ∅ ∅) (str "climate policy")
          7%nat [] 0)
       (str "Recherche sur: x") (str "report") [] (8 * day_us))
    (str "climate policy") 24 (8 * day_us)
  = get_research_result
      (add_research_result (mkAgent 100 1 [] ∅ ∅ ∅) (str "climate policy")
         7%nat [] 0)
      (str "climate policy") 24 (8 * day_us).
Proof.
  apply (compression_invisible_to_cache_reads nat).
  - vm_compute. discriminate.
  - lia.
  - lia.
Defined.

(** C9 as stated fails when the clock reads the same instant at the put
    and at the get: the comparison is strict, so with a maximal age of 0
    the entry is still returned. *)
Lemma cache_max_age_zero_same_instant :
  get_research_result
    (add_research_result empty_agent (str "climate policy") 7%nat [] 1000)
    (str "climate policy") 0 1000
  = Ok (Some 7%nat) /\
  get_research_result
    (add_research_result empty_agent (str "climate policy") 7%nat [] 1000)
    (str "climate policy") 0 1000
  <> Ok None.
Proof.
  rewrite get_after_put. split; [reflexivity | discriminate].
Qed.

(** C9 at a put at instant 1000 and a get one hour later. *)
Lemma cache_law_witness :
  get_research_result
    (add_research_result empty_agent (str "climate policy") 7%nat [] 1000)
    (str "climate policy") 24 (1000 + hour_us)
  = Ok (Some 7%nat) /\
  get_research_result
    (add_research_result empty_agent (str "climate policy") 7%nat [] 1000)
    (str "climate policy") 0 (1000 + hour_us)
  = Ok None.
Proof.
  pose proof (cache_law nat empty_agent (str "climate policy") 7%nat []
                1000 (1000 + hour_us)) as (H1 & _ & H3 & _).
  split.
  - apply H1; [vm_compute; split; discriminate | vm_compute; discriminate].
  - apply H3. vm_compute. reflexivity.
Defined.

End Memory.

(* ===================================================================== *)
(** * The pipeline and its tools: [src/memory_system.py]
      ([IntegratedMemorySystem]) and [src/memory_integration.py]          *)
(* ===================================================================== *)

Module Pipeline.
Import Py.

(** [ExtractionResult] *)
Record ExtractionResult := mkExtraction {
  documents : list Extractor.Document;
  total_urls : Z;
  successful_extractions : Z;
  failed_extractions : Z;
  failed_urls : list pystr
}.

(** [extraction_data.documents = new_docs] *)
Definition set_documents (ed : ExtractionResult)
    (docs : list Extractor.Document) : ExtractionResult :=
  mkExtraction docs (total_urls ed) (successful_extractions ed)
    (failed_extractions ed) (failed_urls ed).

(** [SummarizationOutput] *)
Record SummarizationOutput := mkSummarization {
  summaries : list Synthesizer.DocumentSummary;
  total_documents : Z
}.

(** [FinalReport]: the word count, and a slot for the renderings that the
    memory code looks for on the report.  The class declares no field
    [formatted_outputs], so that the slot is never read: every read goes
    through [final_report_formatted_outputs] below. *)
Record FinalReport := mkReport {
  formatted_outputs : gmap pystr pystr;
  word_count : Z
}.

(** [GlobalSynthesisOutput] *)
Record GlobalSynthesisOutput := mkSynthesis {
  final_report : FinalReport
}.

(** [IntegratedMemorySystem] *)
Record IntegratedMemorySystem := mkMemory {
  vector_memory : Memory.VectorMemoryManager;
  agent_memory : Memory.AgentMemoryManager GlobalSynthesisOutput
}.

(** The dictionary returned by [retrieve_context_for_query]; the
    conversation context and the related topics are only displayed and
    are left out. *)
Record Context := mkContext {
  semantic_context : pystr;
  ctx_cached_result : option GlobalSynthesisOutput
}.

(** ** A monad for the memory and the exceptions

    A computation reads and updates the memory system and returns a value
    or raises; when it raises, the memory is the one reached so far. *)

Definition M (A : Type) : Type :=
  IntegratedMemorySystem -> outcome A * IntegratedMemorySystem.

Definition ret {A} (a : A) : M A := fun ms => (Ok a, ms).

Definition mbind {A B} (m : M A) (f : A -> M B) : M B :=
  fun ms =>
    match m ms with
    | (Ok a, ms') => f a ms'
    | (Raise e, ms') => (Raise e, ms')
    end.

(** A call that does not touch the memory. *)
Definition call {A} (x : outcome A) : M A := fun ms => (x, ms).

Definition read : M IntegratedMemorySystem := fun ms => (Ok ms, ms).

Definition update (f : IntegratedMemorySystem -> IntegratedMemorySystem)
  : M unit :=
  fun ms => (Ok tt, f ms).

Notation "x <- m ;; k" := (mbind m (fun x => k))
  (at level 100, m at next level, right associativity).

(** [max(2, min(max_results, 10))] *)
Definition clamp_max_results (n : Z) : Z := Z.max 2 (Z.min n 10).

(** ** The attributes of the report

    [process_research_result] and the pipeline read
    [final_report.formatted_outputs].  The class [FinalReport] of
    models/synthesis_models.py declares no such field ([formatted_outputs]
    is a field of [GlobalSynthesisOutput]), and reading an attribute that
    an object does not have raises [AttributeError]. *)

(** The fields that the class [FinalReport] declares. *)
Definition FinalReport_fields : list pystr :=
  map str
    ["report_id"; "title"; "topic"; "generated_at"; "report_type";
     "report_format"; "executive_summary"; "introduction"; "main_sections";
     "conclusion"; "key_themes"; "consensus_points";
     "conflicting_viewpoints"; "emerging_trends"; "methodology"; "sources";
     "confidence_score"; "completeness_score"; "total_sources_analyzed";
     "processing_time"; "word_count"]%string.

(** The exception of an attribute that an object does not have. *)
Definition attribute_error (class_name name : pystr) : exn :=
  mkExn (str "AttributeError")
    (str "'" ++ class_name ++ str "' object has no attribute '" ++ name ++
     str "'").

(** [final_report.formatted_outputs] on an instance of the class: the
    attribute is read when the class declares it. *)
Definition final_report_formatted_outputs (r : FinalReport)
  : outcome (gmap pystr pystr) :=
  if existsb (str_eqb (str "formatted_outputs")) FinalReport_fields
  then Ok (formatted_outputs r)
  else Raise (attribute_error (str "FinalReport") (str "formatted_outputs")).

Section WithStages.

(** [hashlib.md5], the text of a timestamp in an id, and the order in
    which [list(set(words))] enumerates a set of words. *)
Variable md5 : pystr -> pystr.
Variable timestamp_text : Z -> pystr.
Variable set_to_list : list pystr -> list pystr.

(** The semantic retrieval of the vector store, and [str(obj)] on the
    output of the synthesizer. *)
Variable get_relevant_context :
  Memory.VectorMemoryManager -> pystr -> Z -> outcome pystr.
Variable repr_synthesis : GlobalSynthesisOutput -> pystr.

(** The four stages, as the pipeline calls them, and the keyword
    extraction (which catches every exception and falls back). *)
Variable extract_keywords_with_llm : pystr -> list pystr.
Variable researcher_process :
  Researcher.ResearchQuery -> outcome Researcher.ResearchOutput.
Variable extractor_process :
  Researcher.ResearchOutput -> outcome ExtractionResult.
Variable summarizer_process : ExtractionResult -> outcome SummarizationOutput.
Variable synthesizer_process :
  SummarizationOutput -> outcome GlobalSynthesisOutput.

(** [retrieve_context_for_query]; [now] is the reading of the clock. *)
Definition retrieve_context_for_query (ms : IntegratedMemorySystem)
    (q : pystr) (use_cache : bool) (now : Z) : outcome Context :=
  bind (if use_cache
        then Memory.get_research_result (agent_memory ms) q 24 now
        else Ok None)
    (fun cached =>
       bind (get_relevant_context (vector_memory ms) q 3)
         (fun sem => Ok (mkContext sem cached))).

(** The loop "Vérifier les doublons" of the pipeline: [new_docs] and
    [duplicates]. *)
Fixpoint check_duplicates (vm : Memory.VectorMemoryManager)
    (docs : list Extractor.Document) : list Extractor.Document * Z :=
  match docs with
  | [] => ([], 0)
  | doc :: rest =>
      let '(new_docs, duplicates) := check_duplicates vm rest in
      if negb (Memory.is_duplicate md5 vm (Extractor.content doc))
      then (doc :: new_docs, duplicates)
      else (new_docs, duplicates + 1)
  end.

(** The extraction data after the duplicate check. *)
Definition drop_duplicates (vm : Memory.VectorMemoryManager)
    (ed : ExtractionResult) : ExtractionResult :=
  match documents ed with
  | [] => ed
  | docs =>
      let '(new_docs, duplicates) := check_duplicates vm docs in
      if duplicates >? 0 then set_documents ed new_docs else ed
  end.

(** The documents and the summaries of a run, as
    [process_research_result] stores them in its steps 1 and 2. *)
Definition store_documents_and_summaries (vm : Memory.VectorMemoryManager)
    (extraction_result : ExtractionResult)
    (summarization_result : SummarizationOutput) (now : Z)
  : Memory.VectorMemoryManager :=
  let docs_to_store :=
    map (fun doc =>
           Memory.mkDocDict (Some (Extractor.content doc))
             (Some (Extractor.title doc)) (Some (Extractor.url doc)))
      (documents extraction_result) in
  let vm1 :=
    fst (Memory.add_documents md5 timestamp_text vm docs_to_store
           (str "research") true now) in
  let summaries_to_store :=
    map (fun s =>
           Memory.mkDocDict (Some (Synthesizer.detailed_summary s))
             (Some (Synthesizer.title s)) (Some (Synthesizer.url s)))
      (summaries summarization_result) in
  fst (Memory.add_documents md5 timestamp_text vm1 summaries_to_store
         (str "summary") true now).

(** [process_research_result]; [now] is the reading of the clock. *)
Definition process_research_result (topic : pystr)
    (extraction_result : ExtractionResult)
    (summarization_result : SummarizationOutput)
    (global_synthesis : GlobalSynthesisOutput) (now : Z) : M unit :=
  _ <- update (fun ms =>
         mkMemory
           (store_documents_and_summaries (vector_memory ms)
              extraction_result summarization_result now)
           (agent_memory ms)) ;;
  outputs <- call (final_report_formatted_outputs
                     (final_report global_synthesis)) ;;
  let synthesis_text := default [] (outputs !! str "text") in
  _ <- update (fun ms =>
         mkMemory
           (fst (Memory.add_documents md5 timestamp_text (vector_memory ms)
                   [Memory.mkDocDict (Some synthesis_text)
                      (Some (str "Synth" ++ [232%N] ++ str "se: " ++ topic))
                      (Some [])]
                   (str "synthesis") true now))
           (agent_memory ms)) ;;
  let all_text :=
    join [sp]
      (map (fun doc => slice_to 100 (Extractor.content doc))
         (slice_to 3 (documents extraction_result))) in
  let keywords := set_to_list (slice_to 10 (split_ws all_text)) in
  update (fun ms =>
    mkMemory (vector_memory ms)
      (Memory.add_research_result (agent_memory ms) topic global_synthesis
         keywords now)).

(** The value that the pipeline returns:
    [formatted_outputs.get('markdown', formatted_outputs.get('text',
    str(global_synthesis)))], where each [formatted_outputs] is read from
    [global_synthesis.final_report]. *)
Definition markdown_of (g : GlobalSynthesisOutput) : M pystr :=
  outputs <- call (final_report_formatted_outputs (final_report g)) ;;
  fallback_outputs <-
    call (final_report_formatted_outputs (final_report g)) ;;
  ret (default (default (repr_synthesis g) (fallback_outputs !! str "text"))
         (outputs !! str "markdown")).

(** [research_complete_pipeline_with_memory] for an integer [max_results];
    [now_start] is the reading of the clock at the cache lookup and
    [now_store] the one at the storage of the results. *)
Definition research_complete_pipeline_with_memory (topic : pystr)
    (max_results : Z) (use_cache : bool) (now_start now_store : Z)
  : M pystr :=
  let max_results := clamp_max_results max_results in
  ms <- read ;;
  context <- call (retrieve_context_for_query ms topic use_cache now_start) ;;
  match (if use_cache then ctx_cached_result context else None) with
  | Some cached_report =>
      outputs <- call (final_report_formatted_outputs
                         (final_report cached_report)) ;;
      ret (default (repr_synthesis cached_report)
             (outputs !! str "markdown"))
  | None =>
      let query :=
        Researcher.mkQuery topic (extract_keywords_with_llm topic)
          max_results (str "basic") in
      research_data <- call (researcher_process query) ;;
      extraction_data <- call (extractor_process research_data) ;;
      let extraction_data :=
        drop_duplicates (vector_memory ms) extraction_data in
      summarization_data <- call (summarizer_process extraction_data) ;;
      global_synthesis <- call (synthesizer_process summarization_data) ;;
      _ <- process_research_result topic extraction_data summarization_data
             global_synthesis now_store ;;
      outputs <- call (final_report_formatted_outputs
                         (final_report global_synthesis)) ;;
      let final_report_text :=
        slice_to 200 (default [] (outputs !! str "text")) in
      _ <- update (fun ms =>
             mkMemory (vector_memory ms)
               (Memory.add_conversation (agent_memory ms)
                  (str "Recherche sur: " ++ topic) final_report_text
                  [(str "max_results", max_results);
                   (str "sources", Researcher.total_found research_data)]
                  now_store)) ;;
      markdown_of global_synthesis
  end.

(** ** The storage of the results *)

(** The storage of the results of a run always raises [AttributeError],
    at the reading of [final_report.formatted_outputs]: the documents and
    the summaries are in the vector store by then, the synthesis is not,
    and the agent memory is untouched, so that the research is not cached
    and a later lookup of the topic reads what it read before. *)
Theorem storage_raises_attribute_error ms topic extraction_result
    summarization_result global_synthesis now :
  let run :=
    process_research_result topic extraction_result
      summarization_result global_synthesis now ms in
  fst run
    = Raise (attribute_error (str "FinalReport") (str "formatted_outputs")) /\
  vector_memory (snd run)
    = store_documents_and_summaries (vector_memory ms) extraction_result
        summarization_result now /\
  agent_memory (snd run) = agent_memory ms /\
  (forall max_age_hours now',
     Memory.get_research_result (agent_memory (snd run)) topic
       max_age_hours now'
     = Memory.get_research_result (agent_memory ms) topic max_age_hours
         now').
Proof. intros run. subst run. repeat split. Qed.

(** ** The duplicate check of the pipeline *)

Definition is_new (vm : Memory.VectorMemoryManager)
    (doc : Extractor.Document) : bool :=
  negb (Memory.is_duplicate md5 vm (Extractor.content doc)).

Lemma check_duplicates_spec vm docs :
  fst (check_duplicates vm docs) = List.filter (is_new vm) docs /\
  0 <= snd (check_duplicates vm docs) /\
  (snd (check_duplicates vm docs) = 0 ->
   List.filter (is_new vm) docs = docs).
Proof.
  induction docs as [|doc rest (IH1 & IH2 & IH3)]; simpl.
  - repeat split; lia.
  - destruct (check_duplicates vm rest) as [new_docs duplicates].
    simpl in *.
    change (negb (Memory.is_duplicate md5 vm (Extractor.content doc)))
      with (is_new vm doc).
    destruct (is_new vm doc); simpl.
    + repeat split; [now rewrite IH1 | lia | intros H; now rewrite IH3].
    + repeat split; [exact IH1 | lia | lia].
Qed.

(** The duplicate check keeps exactly the documents whose content is not
    in the memory store, and does not touch the counts. *)
Lemma drop_duplicates_documents vm ed :
  documents (drop_duplicates vm ed) = List.filter (is_new vm) (documents ed)
  /\ successful_extractions (drop_duplicates vm ed)
     = successful_extractions ed.
Proof.
  unfold drop_duplicates.
  destruct (documents ed) as [|doc rest] eqn:Hd; [now rewrite Hd|].
  pose proof (check_duplicates_spec vm (doc :: rest)) as (H1 & H2 & H3).
  destruct (check_duplicates vm (doc :: rest)) as [new_docs duplicates].
  simpl fst in H1. simpl snd in H2, H3.
  destruct (duplicates >? 0) eqn:Hdup.
  - simpl. now rewrite H1.
  - rewrite Hd. split; [|reflexivity]. symmetry. apply H3. lia.
Qed.

(** C1, as the code has it.  When the extractor returns two documents
    with the same content and the memory store does not hold that content,
    the duplicate check changes nothing: both documents are passed on to
    the summarizer (and [successful_extractions] still counts both).  It
    is when the documents of the run are stored that the second one is
    skipped as a duplicate of the first. *)
Theorem identical_documents_both_kept vm ed d1 d2 now :
  documents ed = [d1; d2] ->
  Extractor.content d1 = Extractor.content d2 ->
  Memory.is_duplicate md5 vm (Extractor.content d1) = false ->
  drop_duplicates vm ed = ed /\
  documents (drop_duplicates vm ed) = [d1; d2] /\
  let stats :=
    snd (Memory.add_documents md5 timestamp_text vm
           (map (fun doc =>
                   Memory.mkDocDict (Some (Extractor.content doc))
                     (Some (Extractor.title doc))
                     (Some (Extractor.url doc)))
              (documents (drop_duplicates vm ed)))
           (str "research") true now) in
  Memory.added stats = 1 /\ Memory.skipped stats = 1.
Proof using Type.
  intros Hd Hc Hnew.
  assert (Hdrop : drop_duplicates vm ed = ed).
  { unfold drop_duplicates. rewrite Hd. simpl.
    rewrite <- Hc, Hnew. reflexivity. }
  rewrite Hdrop. split; [reflexivity|]. split; [exact Hd|].
  rewrite Hd. unfold Memory.add_documents, Memory.add_one. simpl.
  unfold Memory.is_duplicate in Hnew. rewrite Hnew. simpl.
  rewrite <- Hc.
  rewrite bool_decide_eq_true_2
    by (apply elem_of_union; left; now apply elem_of_singleton).
  simpl. auto.
Qed.

(** ** Failures of the stages *)

(** The cache lookup and the retrieval of the context succeed and give no
    cached report, so that the stages are run. *)
Definition no_cache_hit (ms : IntegratedMemorySystem) (topic : pystr)
    (use_cache : bool) (now : Z) : Prop :=
  exists context,
    retrieve_context_for_query ms topic use_cache now = Ok context /\
    (if use_cache then ctx_cached_result context else None) = None.

(** The query that the pipeline builds. *)
Definition pipeline_query (topic : pystr) (max_results : Z)
  : Researcher.ResearchQuery :=
  Researcher.mkQuery topic (extract_keywords_with_llm topic)
    (clamp_max_results max_results) (str "basic").

(** One of the four stages raises [e], the stages before it having
    returned. *)
Inductive stage_raises (ms : IntegratedMemorySystem) (topic : pystr)
    (max_results : Z) (e : exn) : Prop :=
| researcher_raises :
    researcher_process (pipeline_query topic max_results) = Raise e ->
    stage_raises ms topic max_results e
| extractor_raises research_data :
    researcher_process (pipeline_query topic max_results)
      = Ok research_data ->
    extractor_process research_data = Raise e ->
    stage_raises ms topic max_results e
| summarizer_raises research_data extraction_data :
    researcher_process (pipeline_query topic max_results)
      = Ok research_data ->
    extractor_process research_data = Ok extraction_data ->
    summarizer_process (drop_duplicates (vector_memory ms) extraction_data)
      = Raise e ->
    stage_raises ms topic max_results e
| synthesizer_raises research_data extraction_data summarization_data :
    researcher_process (pipeline_query topic max_results)
      = Ok research_data ->
    extractor_process research_data = Ok extraction_data ->
    summarizer_process (drop_duplicates (vector_memory ms) extraction_data)
      = Ok summarization_data ->
    synthesizer_process summarization_data = Raise e ->
    stage_raises ms topic max_results e.

(** C5, as the code has it.  When a stage raises, the pipeline stops
    there: the exception itself reaches the caller (no string is
    returned), and the memory system is left as it was, so that no entry
    is added to the conversation log and nothing is stored. *)
Theorem stage_error_propagates ms topic max_results use_cache
    now_start now_store e :
  no_cache_hit ms topic use_cache now_start ->
  stage_raises ms topic max_results e ->
  research_complete_pipeline_with_memory topic max_results use_cache
    now_start now_store ms = (Raise e, ms).
Proof.
  intros (context & Hctx & Hmiss) Hstage.
  unfold research_complete_pipeline_with_memory, mbind, read, call.
  rewrite Hctx, Hmiss. fold (pipeline_query topic max_results).
  destruct Hstage as [H1 | rd H1 H2 | rd ed H1 H2 H3 | rd ed sd H1 H2 H3 H4].
  - now rewrite H1.
  - now rewrite H1, H2.
  - now rewrite H1, H2, H3.
  - now rewrite H1, H2, H3, H4.
Qed.

End WithStages.

(** ** The tool [get_research_history] *)

Section WithIsoformat.

(** [datetime.isoformat()] of an instant. *)
Variable isoformat : Z -> pystr.

(** The text of a metadata dictionary in an f-string. *)
Definition repr_metadata (m : list (pystr * Z)) : pystr :=
  str "{" ++
  join (str ", ")
    (map (fun kv => str "'" ++ fst kv ++ str "': " ++ repr_int (snd kv)) m)
  ++ str "}".

Definition no_history_message : pystr :=
  str "Aucun historique de recherche disponible.".

(** The lines added to [output] for the entry of rank [i]. *)
Definition render_entry (i : Z) (conv : Memory.ConversationEntry) : pystr :=
  str "[Recherche " ++ repr_int i ++ str "] - " ++
    isoformat (Memory.entry_timestamp conv) ++ [nl] ++
  str "Topic: " ++ slice_to 100 (Memory.entry_user conv) ++ [nl] ++
  (match Memory.entry_metadata conv with
   | [] => []
   | m => str "D" ++ [233%N] ++ str "tails: " ++ repr_metadata m ++ [nl]
   end) ++
  [nl].

(** The loop over [enumerate(history, 1)], from rank [i]. *)
Fixpoint render_entries (i : Z) (history : list Memory.ConversationEntry)
  : pystr :=
  match history with
  | [] => []
  | conv :: rest => render_entry i conv ++ render_entries (i + 1) rest
  end.

(** The listing of a non-empty [history]. *)
Definition render_history (history : list Memory.ConversationEntry)
  : pystr :=
  [128218%N] ++ str " Historique des " ++
    repr_int (Z.of_nat (length history)) ++
    str " derni" ++ [232%N] ++ str "res recherches:" ++ [nl; nl] ++
  render_entries 1 history.

(** [get_research_history] *)
Definition get_research_history (ms : IntegratedMemorySystem) (n_last : Z)
  : pystr :=
  let history :=
    last_n n_last (Memory.conversation_history (agent_memory ms)) in
  match history with
  | [] => no_history_message
  | _ => render_history history
  end.

Lemma last_n_zero {A} (l : list A) : last_n 0 l = l.
Proof. reflexivity. Qed.

Lemma render_entries_imap i history :
  render_entries i history
    = concat (imap (fun k conv => render_entry (i + Z.of_nat k) conv)
                history).
Proof.
  revert i. induction history as [|conv rest IH]; intros i; [reflexivity|].
  cbn [render_entries imap concat]. change (Z.of_nat 0) with 0.
  rewrite Z.add_0_r, IH. do 2 f_equal.
  apply imap_ext. intros k c _. simpl. f_equal. lia.
Qed.

(** C10.  With [n_last = 0] the slice [[-0:]] is the whole list: on a
    conversation log that is not empty, the tool returns the header with
    the number of entries of the log followed, for every entry of the log
    in order, by its rank, its timestamp, the first 100 characters of its
    user message and its details when it has some.  Every entry of the
    log is thus listed, and the result is not the message of an empty
    history. *)
Theorem history_n_last_zero ms :
  let log := Memory.conversation_history (agent_memory ms) in
  log <> [] ->
  get_research_history ms 0
    = [128218%N] ++ str " Historique des " ++
      repr_int (Z.of_nat (length log)) ++
      str " derni" ++ [232%N] ++ str "res recherches:" ++ [nl; nl] ++
      concat
        (imap (fun k conv =>
                 str "[Recherche " ++ repr_int (Z.of_nat k + 1) ++
                 str "] - " ++ isoformat (Memory.entry_timestamp conv) ++
                 [nl] ++
                 str "Topic: " ++ slice_to 100 (Memory.entry_user conv) ++
                 [nl] ++
                 (match Memory.entry_metadata conv with
                  | [] => []
                  | m =>
                      str "D" ++ [233%N] ++ str "tails: " ++
                      repr_metadata m ++ [nl]
                  end) ++
                 [nl])
           log) /\
  get_research_history ms 0 <> no_history_message /\
  (forall k conv,
     log !! k = Some conv ->
     contains
       (str "[Recherche " ++ repr_int (Z.of_nat k + 1) ++ str "] - " ++
        isoformat (Memory.entry_timestamp conv) ++ [nl] ++
        str "Topic: " ++ slice_to 100 (Memory.entry_user conv) ++ [nl])
       (get_research_history ms 0) = true).
Proof.
  intros log Hne.
  assert (Heq : get_research_history ms 0 = render_history log).
  { unfold get_research_history. fold log. rewrite last_n_zero.
    destruct log; [congruence | reflexivity]. }
  rewrite Heq. split; [|split].
  - unfold render_history. do 7 f_equal. rewrite render_entries_imap.
    f_equal. apply imap_ext. intros k conv _. simpl.
    unfold render_entry. now rewrite Z.add_comm.
  - discriminate.
  - intros k conv Hk. unfold render_history.
    rewrite render_entries_imap.
    rewrite <- (take_drop_middle log k conv Hk).
    rewrite imap_app, concat_app. cbn [imap concat].
    rewrite length_take_le by (apply lookup_lt_Some in Hk; lia).
    rewrite Nat.add_0_r, (Z.add_comm 1 (Z.of_nat k)).
    match goal with
    | |- contains ?pat _ = true => set (p := pat)
    end.
    assert (Hentry : exists tail,
              render_entry (Z.of_nat k + 1) conv = p ++ tail).
    { eexists. unfold render_entry. subst p.
      repeat rewrite <- app_assoc. reflexivity. }
    destruct Hentry as [tail ->].
    match goal with
    | |- contains p (?h1 ++ ?h2 ++ ?h3 ++ ?h4 ++ ?h5 ++ ?h6 ++ ?h7 ++ ?A
                       ++ (p ++ tail) ++ ?B) = true =>
        replace (h1 ++ h2 ++ h3 ++ h4 ++ h5 ++ h6 ++ h7 ++ A
                   ++ (p ++ tail) ++ B)
          with ((h1 ++ h2 ++ h3 ++ h4 ++ h5 ++ h6 ++ h7 ++ A)
                  ++ p ++ (tail ++ B))
          by (repeat rewrite <- app_assoc; reflexivity)
    end.
    apply contains_infix.
Qed.

(** ** The window of the history *)

Lemma render_history_not_message history :
  render_history history <> no_history_message.
Proof. discriminate. Qed.

(** [get_research_history] lists the [n_last] most recent entries of
    the log when [n_last] is positive, and says that there is no history
    only when the log is empty; with [n_last] zero or negative the slice
    [[-n_last:]] drops the [-n_last] oldest entries instead, and the
    message of an empty history is returned when nothing is left. *)
Theorem history_window ms n_last :
  let log := Memory.conversation_history (agent_memory ms) in
  let dropped :=
    if 0 <? n_last
    then (length log - Z.to_nat n_last)%nat
    else Z.to_nat (- n_last) in
  get_research_history ms n_last
    = match skipn dropped log with
      | [] => no_history_message
      | shown => render_history shown
      end /\
  (get_research_history ms n_last = no_history_message
   <-> (length log <= dropped)%nat).
Proof.
  intros log dropped.
  assert (Hslice : last_n n_last log = skipn dropped log).
  { unfold last_n, slice_from. subst dropped.
    destruct (0 <? n_last) eqn:Hn.
    - replace (- n_last <? 0) with true by lia. f_equal. lia.
    - replace (- n_last <? 0) with false by lia. reflexivity. }
  unfold get_research_history. fold log. rewrite Hslice.
  destruct (skipn dropped log) as [|c l] eqn:Hs.
  - split; [reflexivity|]. split; [|reflexivity]. intros _.
    apply (f_equal (@length _)) in Hs. rewrite length_skipn in Hs.
    simpl in Hs. lia.
  - split; [reflexivity|]. split.
    + intros H. now apply render_history_not_message in H.
    + intros Hle. rewrite skipn_all2 in Hs by exact Hle. discriminate.
Qed.

(** ** The tool [clear_memory] *)

Definition not_confirmed_message : pystr :=
  [9888%N; 65039%N] ++ str " Action non confirm" ++ [233%N] ++
  str "e. Passez confirm=True pour r" ++ [233%N] ++
  str "initialiser la m" ++ [233%N] ++ str "moire.".

Definition cleared_message : pystr :=
  [9989%N] ++ str " M" ++ [233%N] ++ str "moire de conversation r" ++
  [233%N] ++ str "initialis" ++ [233%N] ++
  str "e. Base vectorielle pr" ++ [233%N] ++ str "serv" ++ [233%N] ++
  str "e.".

(** [clear_memory] *)
Definition clear_memory (confirm : bool) : M pystr :=
  if negb confirm
  then ret not_confirmed_message
  else
    _ <- update (fun ms =>
           mkMemory (vector_memory ms)
             (Memory.clear_all (agent_memory ms))) ;;
    ret cleared_message.

(** Without confirmation [clear_memory] changes nothing.  With it, the
    history tool reports no history for every [n_last] and no research
    is read from the cache any more, while the vector store, and with it
    the duplicate check, is as before. *)
Theorem clear_memory_effect ms :
  snd (clear_memory false ms) = ms /\
  let ms' := snd (clear_memory true ms) in
  (forall n_last, get_research_history ms' n_last = no_history_message) /\
  (forall topic max_age_hours now,
     Memory.get_research_result (agent_memory ms') topic max_age_hours now
       = Ok None) /\
  vector_memory ms' = vector_memory ms.
Proof.
  split; [reflexivity|]. intros ms'. subst ms'. simpl. repeat split.
  intros n_last. unfold get_research_history. simpl.
  unfold last_n, slice_from. destruct (_ <? _); now rewrite skipn_nil.
Qed.

End WithIsoformat.

(** ** Concrete runs with stub stages *)

(** A stand-in for the hash in the concrete runs (equal contents have
    equal hashes, as with MD5). *)
Definition stub_hash (c : pystr) : pystr := c.

Definition stub_context (_ : Memory.VectorMemoryManager) (_ : pystr) (_ : Z)
  : outcome pystr := Ok [].

Definition stub_repr (_ : GlobalSynthesisOutput) : pystr :=
  str "GlobalSynthesisOutput".

Definition stub_keywords (_ : pystr) : list pystr := [].

Definition two_results : list Researcher.SearchResult :=
  [ Researcher.mkResult (str "Climate policy A") (str "https://a.example/p")
      (str "snippet") None (Some (1 # 2));
    Researcher.mkResult (str "Climate policy B") (str "https://b.example/p")
      (str "snippet") None (Some (1 # 2)) ].

(** A search that finds two sources, and one whose providers all fail. *)
Definition stub_researcher (q : Researcher.ResearchQuery)
  : outcome Researcher.ResearchOutput :=
  Ok (Researcher.mkOutput q two_results 2 (str "tavily")).

Definition failing_researcher (q : Researcher.ResearchQuery)
  : outcome Researcher.ResearchOutput :=
  Raise (Researcher.SearchAPIError
           ([201%N] ++ str "chec de recherche avec toutes les APIs pour: "
              ++ Researcher.topic q)).

Definition same_content : pystr :=
  str "The same article text, served by two different hosts.".

(** The fetcher returns the same content for both URLs. *)
Definition stub_extractor (_ : Researcher.ResearchOutput)
  : outcome ExtractionResult :=
  Ok (mkExtraction
        [ Extractor.mkDocument (str "Article") (str "https://a.example/p")
            same_content 9 (str "fr");
          Extractor.mkDocument (str "Article") (str "https://b.example/p")
            same_content 9 (str "fr") ]
        2 2 0 []).

Definition failing_extractor (_ : Researcher.ResearchOutput)
  : outcome ExtractionResult :=
  Raise (mkExn (str "ContentExtractionError")
           (str "Echec de l'extraction de contenu")).

(** One summary per document received. *)
Definition stub_summarizer (ed : ExtractionResult)
  : outcome SummarizationOutput :=
  Ok (mkSummarization
        (map (fun d =>
                Synthesizer.mkSummary (Extractor.title d) (Extractor.url d)
                  (str "Summary of " ++ Extractor.url d) None)
           (documents ed))
        (Z.of_nat (length (documents ed)))).

(** A report that states how many summaries it was built from. *)
Definition stub_synthesizer (so : SummarizationOutput)
  : outcome GlobalSynthesisOutput :=
  let line := str "Sources: " ++ repr_int (total_documents so) in
  Ok (mkSynthesis
        (mkReport (<[str "markdown" := str "# " ++ line]>
                     (<[str "text" := line]> ∅))
           2)).

Definition empty_memory : IntegratedMemorySystem :=
  mkMemory (Memory.mkVector ∅ []) Memory.empty_agent.

Definition run_with researcher extractor : M pystr :=
  research_complete_pipeline_with_memory stub_hash repr_int (fun l => l)
    stub_context stub_repr stub_keywords researcher extractor
    stub_summarizer stub_synthesizer (str "climate policy") 3 true
    1000 2000.

Definition same_extraction : ExtractionResult :=
  mkExtraction
    [ Extractor.mkDocument (str "Article") (str "https://a.example/p")
        same_content 9 (str "fr");
      Extractor.mkDocument (str "Article") (str "https://b.example/p")
        same_content 9 (str "fr") ]
    2 2 0 [].

(** The run of C1: over an empty memory, with an extractor that returns
    two documents of identical content, the duplicate check drops nothing
    and the summarizer receives the two documents: when the run stops, at
    the storage of the synthesis, the vector store holds the content once
    and the two summaries. *)
Lemma identical_documents_reach_summarizer :
  length (documents
            (drop_duplicates stub_hash (vector_memory empty_memory)
               same_extraction)) = 2%nat /\
  length (documents
            (drop_duplicates stub_hash (vector_memory empty_memory)
               same_extraction)) <> 1%nat /\
  fst (run_with stub_researcher stub_extractor empty_memory)
    = Raise (attribute_error (str "FinalReport") (str "formatted_outputs")) /\
  map Memory.item_content
    (Memory.collection
       (vector_memory
          (snd (run_with stub_researcher stub_extractor empty_memory))))
    = [same_content; str "Summary of https://a.example/p";
       str "Summary of https://b.example/p"].
Proof.
  split; [reflexivity|]. split; [discriminate|].
  split; vm_compute; reflexivity.
Qed.

(** C1 at that run. *)
Lemma identical_documents_both_kept_witness :
  drop_duplicates stub_hash (vector_memory empty_memory) same_extraction
    = same_extraction /\
  Memory.skipped
    (snd (Memory.add_documents stub_hash repr_int (vector_memory empty_memory)
            (map (fun doc =>
                    Memory.mkDocDict (Some (Extractor.content doc))
                      (Some (Extractor.title doc))
                      (Some (Extractor.url doc)))
               (documents
                  (drop_duplicates stub_hash (vector_memory empty_memory)
                     same_extraction)))
            (str "research") true 2000)) = 1.
Proof.
  destruct (identical_documents_both_kept stub_hash repr_int
              (vector_memory empty_memory) same_extraction
              (Extractor.mkDocument (str "Article")
                 (str "https://a.example/p") same_content 9 (str "fr"))
              (Extractor.mkDocument (str "Article")
                 (str "https://b.example/p") same_content 9 (str "fr"))
              2000 eq_refl eq_refl eq_refl) as (H1 & _ & _ & H4).
  split; [exact H1 | exact H4].
Defined.

(** C5 as stated fails: when the search raises, the caller gets the
    exception and not a string, and the conversation log, empty before the
    run, is still empty after it. *)
Lemma search_failure_is_raised_and_not_logged :
  fst (run_with failing_researcher stub_extractor empty_memory)
    = Raise (Researcher.SearchAPIError
               ([201%N] ++
                str "chec de recherche avec toutes les APIs pour: "
                  ++ str "climate policy")) /\
  (forall s, fst (run_with failing_researcher stub_extractor empty_memory)
             <> Ok s) /\
  Memory.conversation_history
    (agent_memory
       (snd (run_with failing_researcher stub_extractor empty_memory)))
    = [].
Proof.
  split; [reflexivity|]. split; [intros s; discriminate | reflexivity].
Qed.

(** C5, amended, at a run whose extraction fails. *)
Lemma stage_error_propagates_witness :
  run_with stub_researcher failing_extractor empty_memory
    = (Raise (mkExn (str "ContentExtractionError")
                (str "Echec de l'extraction de contenu")),
       empty_memory).
Proof.
  apply (stage_error_propagates stub_hash repr_int (fun l => l) stub_context
           stub_repr stub_keywords stub_researcher failing_extractor
           stub_summarizer stub_synthesizer).
  - eexists. split; reflexivity.
  - eapply extractor_raises; reflexivity.
Defined.

(** A memory whose conversation log holds two entries. *)
Definition memory_with_history : IntegratedMemorySystem :=
  mkMemory (Memory.mkVector ∅ [])
    (Memory.add_conversation
       (Memory.add_conversation Memory.empty_agent
          (str "Recherche sur: climate policy") (str "Sources: 2")
          [(str "max_results", 3); (str "sources", 2)] 1000)
       (str "Recherche sur: solar energy") (str "Sources: 3") [] 2000).

(** C10 at a log of two entries: with [n_last = 0] both are listed. *)
Lemma history_n_last_zero_witness :
  Memory.conversation_history (agent_memory memory_with_history) <> [] /\
  get_research_history repr_int memory_with_history 0
    = [128218%N] ++ str " Historique des 2 derni" ++ [232%N] ++
      str "res recherches:" ++ [nl; nl] ++
      str "[Recherche 1] - 1000" ++ [nl] ++
      str "Topic: Recherche sur: climate policy" ++ [nl] ++
      str "D" ++ [233%N] ++ str "tails: {'max_results': 3, 'sources': 2}" ++
      [nl; nl] ++
      str "[Recherche 2] - 2000" ++ [nl] ++
      str "Topic: Recherche sur: solar energy" ++ [nl; nl] /\
  contains
    (str "[Recherche 2] - 2000" ++ [nl] ++
     str "Topic: Recherche sur: solar energy" ++ [nl])
    (get_research_history repr_int memory_with_history 0) = true.
Proof.
  assert (H : Memory.conversation_history (agent_memory memory_with_history)
              <> []) by discriminate.
  destruct (history_n_last_zero repr_int memory_with_history H)
    as (Heq & _ & Hlisted).
  split; [exact H|]. split.
  - rewrite Heq. vm_compute. reflexivity.
  - exact (Hlisted 1%nat _ eq_refl).
Defined.

End Pipeline.
